(** * cnvway: the GMTK input-master generator, embedded and verified

    A shallow embedding of [gen_gmtk_params.py] (the GMTK object model, its
    name generator and the ordered registry [InputMaster]) and of the numeric
    tables, builders and orchestrator of [segway_input_master.py]
    (zero-diagonal tables, the duration transition table, the builders of
    [ParamSpec], the free-parameter accounting of [make_mapping]).

    Layout: Python basics; one module per source file, holding the
    embedding; the definitions the specification is stated with; the
    theorems. *)

From Stdlib Require Import ZArith QArith Qcanon Lia.
From Stdlib Require Import Floats.PrimFloat.
From Stdlib Require Uint63.
From stdpp Require Import base strings list pretty.

Local Open Scope string_scope.
Local Open Scope list_scope.
Set Warnings "-register-all".
Set Warnings "-clear-no-such-hyp".

(** ** Python basics *)

(** The exceptions the modelled code can raise.  [ValueError] is what the
    specification calls InvalidInput. *)
Inductive exn : Type :=
| ValueError (msg : string)
| IndexError
| KeyError
| TypeError
| ZeroDivisionError.

(** A call either returns a value or raises. *)
Inductive result (A : Type) : Type :=
| Ok (a : A)
| Raise (e : exn).
Arguments Ok {A} a.
Arguments Raise {A} e.

#[global] Instance result_ret : MRet result := fun A a => Ok a.
#[global] Instance result_bind : MBind result := fun A B f m =>
  match m with
  | Ok a => f a
  | Raise e => Raise e
  end.

(** A [for] loop whose body may raise: the first exception ends the loop. *)
Fixpoint for_each {A S : Type} (body : S -> A -> result S) (xs : list A) (s : S)
  : result S :=
  match xs with
  | [] => Ok s
  | x :: xs' => s' ← body s x; for_each body xs' s'
  end.

(** [range(n)] for a Python int [n]: empty when [n <= 0]. *)
Definition range (n : Z) : list Z := seqZ 0 n.

(** [xs.append(x)] *)
Definition append {A} (xs : list A) (x : A) : list A := xs ++ [x].

(** [xs[i]] for [0 <= i]. *)
Definition list_getitem {A} (xs : list A) (i : nat) : result A :=
  match xs !! i with
  | Some x => Ok x
  | None => Raise IndexError
  end.

(** [sep.join(parts)] for a list of strings. *)
Definition join (sep : string) (parts : list string) : string :=
  String.concat sep parts.

(** Iterating a [str] yields its characters, each a one-character string. *)
Fixpoint chars (s : string) : list string :=
  match s with
  | EmptyString => []
  | String c s' => String c EmptyString :: chars s'
  end.

(** A value that is either an int or a str (the docstrings' "str/int"). *)
Inductive atom : Type :=
| AInt (z : Z)
| AStr (s : string).

(** [str(x)] on such a value. *)
Definition str_atom (a : atom) : string :=
  match a with
  | AInt z => pretty z
  | AStr s => s
  end.

(** [int(a / b)] on ints: the true quotient, truncated toward zero.  (The
    float quotient truncates to the integer quotient for operands below
    2^52, as the list lengths it is used on are.) *)
Definition int_truediv (a b : Z) : result Z :=
  if (b =? 0)%Z then Raise ZeroDivisionError else Ok (Z.quot a b).

(** [range(start, stop, step)] *)
Definition range3 (start stop step : Z) : result (list Z) :=
  if (step =? 0)%Z then
    Raise (ValueError "range() arg 3 must not be zero")
  else if (0 <? step)%Z then
    Ok ((fun k => start + k * step)%Z
          <$> seqZ 0 ((stop - start + step - 1) / step))
  else
    Ok ((fun k => start + k * step)%Z
          <$> seqZ 0 ((start - stop - step - 1) / (- step))).

(** [xs * n] for a list and an int: [n] copies, none when [n <= 0]. *)
Definition list_repeat {A} (xs : list A) (n : Z) : list A :=
  mjoin (replicate (Z.to_nat n) xs).

(** ** Floating-point arithmetic

    The numeric code is written against Python floats.  The operations it
    uses are collected in a class with two instances: IEEE binary64 (what the
    interpreter runs) and the exact rationals (the arithmetic in which such
    statements as "the row sums to 1" are meant). *)
Class FloatOps (F : Type) : Type := {
  of_int : Z -> F;          (* float(n), an int operand promoted *)
  fadd : F -> F -> F;
  fsub : F -> F -> F;
  fmul : F -> F -> F;
  fdiv : F -> F -> F;       (* the divisor is checked by the caller *)
  feqb : F -> F -> bool;    (* == *)
}.

(** [float(z)] in binary64, for [|z| < 2^63].  An int that takes part in a
    true division or meets a float is promoted this way; the ints of the
    modelled code are small enough for the promotion to be exact. *)
Definition float_of_Z (z : Z) : float :=
  if (z <? 0)%Z
  then PrimFloat.opp (PrimFloat.of_uint63 (Uint63.of_Z (- z)))
  else PrimFloat.of_uint63 (Uint63.of_Z z).

#[global] Instance binary64 : FloatOps float := {|
  of_int := float_of_Z;
  fadd := PrimFloat.add;
  fsub := PrimFloat.sub;
  fmul := PrimFloat.mul;
  fdiv := PrimFloat.div;
  feqb := PrimFloat.eqb;
|}.

#[global] Instance exact : FloatOps Qc := {|
  of_int := Qc_of_Z;
  fadd := Qcplus;
  fsub := Qcminus;
  fmul := Qcmult;
  fdiv := Qcdiv;
  feqb := fun x y => bool_decide (x = y);
|}.

(** The builtin [sum] on floats: additions from the int [0], left to
    right. *)
Definition py_sum {F} `{FloatOps F} (xs : list F) : F :=
  foldl fadd (of_int 0) xs.

(** ** gen_gmtk_params.py *)
Module gen_gmtk_params.

Definition MC_TYPE_DIAG : string := "COMPONENT_TYPE_DIAG_GAUSSIAN".
Definition MC_TYPE_GAMMA : string := "COMPONENT_TYPE_GAMMA".
Definition MC_TYPE_MISSING : string :=
  "COMPONENT_TYPE_MISSING_FEATURE_SCALED_DIAG_GAUSSIAN".

Definition allowed_types : list string :=
  ["mx"; "mc_diag"; "mc_gamma"; "mc_missing"; "mean";
   "covar"; "col"; "mx_name"; "dpmf"; "gammascale";
   "gammashape"; "tied_covar"].

(** The body of the general branch's innermost loop: the name built for one
    (seg, subseg, track). *)
Definition general_line (obj distribution : string) (i j : Z) (name : string)
  : string :=
  if String.eqb obj "mc_diag" then
    "mc_" +:+ distribution +:+ "_seg" +:+ pretty i +:+ "_subseg" +:+ pretty j
      +:+ "_" +:+ name
  else if String.eqb obj "mc_missing" then
    ""
  else
    obj +:+ "_seg" +:+ pretty i +:+ "_subseg" +:+ pretty j +:+ "_" +:+ name.

(** [generate_gmtk_obj_names]: the loops append to [names] in source order. *)
Definition generate_gmtk_obj_names (obj : string) (track_names : list string)
    (num_segs num_subsegs : Z) (distribution : string)
    (num_mix_components : Z) : result (list string) :=
  if negb (bool_decide (obj ∈ allowed_types)) then
    Raise (ValueError ("Undefined GMTK object type: " +:+ obj))
  else
    let names : list string := [] in
    if String.eqb obj "covar" then
      Ok (foldl (fun names name => append names ("covar_" +:+ name))
                names track_names)
    else if String.eqb obj "tied_covar" then
      Ok (foldl (fun names name => append names ("covar_" +:+ name))
                names track_names)
    else if String.eqb obj "col" then
      Ok (foldl (fun names name => append names ("collection_seg_" +:+ name))
                names track_names)
    else if String.eqb obj "mx_name" then
      Ok (foldl (fun names name =>
            foldl (fun names i =>
              foldl (fun names j =>
                let line := "mx_seg" +:+ pretty i +:+ "_subseg" +:+ pretty j
                              +:+ "_" +:+ name in
                append names line)
              names (range num_subsegs))
            names (range num_segs))
          names track_names)
    else if String.eqb obj "dpmf" && (num_mix_components =? 1)%Z then
      Ok ["dpmf_always"]
    else
      Ok (foldl (fun names i =>
            foldl (fun names j =>
              foldl (fun names name =>
                append names (general_line obj distribution i j name))
              names track_names)
            names (range num_subsegs))
          names (range num_segs)).

(** *** Wire objects *)

(** The newline character, as a string. *)
Definition nl : string := String (Ascii.ascii_of_nat 10) EmptyString.

Section wire_objects.
(** [F]: the floats of probability tables and mixture weights, printed by
    [str_float] (the builtin [str] on a float).  [V]: the values stored in a
    Mean or a Covar, printed by [str_value]. *)
Context {F : Type} `{FloatOps F} (str_float : F -> string).
Context {V : Type} (str_value : V -> string).

(** [prob] of a DenseCPT: a list of floats, or a list of such tables. *)
Inductive prob_table : Type :=
| PRow (xs : list F)
| PNest (ps : list prob_table).

(** [DenseCPT]: [parent_card] is [-1] (here [None]) or a list. *)
Record DenseCPT : Type := {
  dense_name : string;
  dense_parent_card : option (list atom);
  dense_cardinality : atom;
  dense_prob : prob_table;
}.

(** [DenseCPT.generate_prob]: [prob[0]] raises IndexError on an empty list. *)
Fixpoint DenseCPT_generate_prob (prob : prob_table) : result string :=
  match prob with
  | PRow [] => Raise IndexError
  | PRow xs =>
      let prob_str := foldl (fun acc x => append acc (str_float x)) [] xs in
      Ok (join " " prob_str)
  | PNest [] => Raise IndexError
  | PNest ps =>
      line ← (fix go (ps : list prob_table) (line : list string) :=
                match ps with
                | [] => Ok line
                | p :: ps' =>
                    t ← DenseCPT_generate_prob p; go ps' (append line t)
                end) ps [];
      Ok (join nl line)
  end.

Definition DenseCPT_generate (self : DenseCPT) (index : nat) : result string :=
  let lines : list string := [] in
  let line : list string := [] in
  let line := append line (pretty index) in
  let line := append line (dense_name self) in
  let '(num_parents, parent_card_str) :=
    match dense_parent_card self with
    | None => (0%nat, [""])
    | Some pc => (length pc, foldl (fun acc c => append acc (str_atom c)) [] pc)
    end in
  let line := append line (pretty num_parents) in
  let line := match dense_parent_card self with
              | None => line
              | Some _ => line ++ parent_card_str
              end in
  let line := append line (str_atom (dense_cardinality self)) in
  let lines := append lines (join " " line) in
  prob ← DenseCPT_generate_prob (dense_prob self);
  let lines := append lines (prob +:+ nl) in
  let lines := append lines nl in
  Ok (join nl lines).

Record DeterministicCPT : Type := {
  det_name : string;
  det_parent_card : list atom;
  det_cardinality : atom;
  det_dt : string;
}.

(** [sep.join(xs)] where the elements may be ints: TypeError unless all are
    strs. *)
Definition join_atoms (sep : string) (xs : list atom) : result string :=
  strs ← for_each (fun acc a => match a with
                               | AStr s => Ok (append acc s)
                               | AInt _ => Raise TypeError
                               end) xs [];
  Ok (join sep strs).

Definition DeterministicCPT_generate (self : DeterministicCPT) (index : nat)
  : result string :=
  let lines : list string := [] in
  let line := [pretty index; det_name self] in
  let lines := append lines (join " " line) in
  let lines := append lines (pretty (length (det_parent_card self))) in
  let num_parents_cardinalities :=
    append (det_parent_card self) (det_cardinality self) in
  cards ← join_atoms " " num_parents_cardinalities;
  let lines := append lines cards in
  let lines := append lines (det_dt self) in
  let lines := append lines nl in
  Ok (join nl lines).

Record NameCollection : Type := {
  col_name : string;
  names_in_col : list string;
}.

Definition NameCollection_generate (self : NameCollection) (index : nat)
  : string :=
  let line := [pretty index; col_name self;
               pretty (length (names_in_col self))] in
  let lines := [join " " line; join nl (names_in_col self); nl] in
  join nl lines.

Record Mean : Type := {
  mean_name : string;
  mean_values : list V;
}.

Definition Mean_generate (self : Mean) (index : nat) : string :=
  let line := [pretty index; mean_name self;
               pretty (length (mean_values self))] in
  let mean_str := foldl (fun acc i => append acc (str_value i)) []
                        (mean_values self) in
  let line := line ++ mean_str in
  let line := append line nl in
  join " " line.

Record Covar : Type := {
  covar_name : string;
  covar_values : list V;
}.

Definition Covar_generate (self : Covar) (index : nat) : string :=
  let line := [pretty index; covar_name self;
               pretty (length (covar_values self))] in
  let covar_str := foldl (fun acc i => append acc (str_value i)) []
                         (covar_values self) in
  let line := line ++ covar_str in
  let line := append line nl in
  join " " line.

Record DPMF : Type := {
  dpmf_name : string;
  dpmf_values : list F;
}.

(** [DPMF.__init__(name, *args)]: the values are kept when they sum to
    [1.0]; otherwise ValueError.  (The values are also printed, which is
    not modelled.) *)
Definition DPMF_init (name : string) (args : list F) : result DPMF :=
  let dpmf_values := foldl (fun acc val => append acc val) [] args in
  if negb (feqb (py_sum dpmf_values) (of_int 1)) then
    Raise (ValueError "DPMF values must sum to 1.0.")
  else
    Ok {| dpmf_name := name; dpmf_values := dpmf_values |}.

Definition DPMF_generate (self : DPMF) (index : nat) : string :=
  let line := [pretty index; dpmf_name self;
               pretty (length (dpmf_values self))] in
  let dpmf_str := foldl (fun acc i => append acc (str_float i)) []
                        (dpmf_values self) in
  let line := line ++ dpmf_str in
  let line := append line nl in
  join " " line.

(** [MC]: [mean] is a Mean; [covar] is a Covar, or the default
    [Mean('sample_covar')].  Only their names are read. *)
Record MC : Type := {
  mc_name : string;
  mc_dim : atom;
  mc_type : atom;
  mc_mean : Mean;
  mc_covar : Mean + Covar;
  mc_weights : list F;
  mc_gamma_shape : string;
  mc_gamma_scale : string;
}.

Definition mc_covar_name (self : MC) : string :=
  match mc_covar self with
  | inl m => mean_name m
  | inr c => covar_name c
  end.

Definition atom_is_str (a : atom) (s : string) : bool :=
  match a with
  | AStr t => String.eqb t s
  | AInt _ => false
  end.

Definition MC_generate (self : MC) (index : nat) : string :=
  let line := [pretty index; str_atom (mc_dim self)] in
  let line :=
    if atom_is_str (mc_type self) MC_TYPE_GAMMA then
      line ++ [str_atom (mc_type self); mc_gamma_scale self;
               mc_gamma_shape self]
    else if atom_is_str (mc_type self) MC_TYPE_MISSING then
      line ++ [str_atom (mc_type self); mc_name self;
               mean_name (mc_mean self); mc_covar_name self;
               "matrix_weightscale_1x1"; nl]
    else
      line ++ [str_atom (mc_type self); mc_name self;
               mean_name (mc_mean self); mc_covar_name self; nl] in
  join " " line.

Record MX : Type := {
  mx_name : string;
  mx_dim : atom;
  mx_comp : list MC;
  mx_dpmf : DPMF;
}.

(** [MX.__init__]: [components] is a list of components or a single one. *)
Definition MX_init (name : string) (dim : atom) (dpmf : DPMF)
    (components : MC + list MC) : result MX :=
  let components := match components with
                    | inl c => [c]
                    | inr cs => cs
                    end in
  if negb (length (dpmf_values dpmf) =? length components)%nat then
    Raise (ValueError ("Dimension of DPMF object must be equal " +:+
                       "to number of components of MX."))
  else
    Ok {| mx_name := name; mx_dim := dim; mx_comp := components;
          mx_dpmf := dpmf |}.

Definition MX_generate (self : MX) (index : nat) : string :=
  let line := [pretty index; str_atom (mx_dim self); mx_name self;
               pretty (length (mx_comp self)); dpmf_name (mx_dpmf self)] in
  let comp_names := foldl (fun acc comp => append acc (mc_name comp)) []
                          (mx_comp self) in
  let line := line ++ comp_names in
  let line := append line nl in
  join " " line.

End wire_objects.

(** *** Constructors that only store their arguments *)

Section constructors.
Context {F : Type} `{FloatOps F} (str_float : F -> string).
Context {V : Type} (str_value : V -> string).

(** [NameCollection.__init__(name, *args)]: a list argument is spliced in,
    any other is appended. *)
Definition NameCollection_init (name : string)
    (args : list (string + list string)) : NameCollection :=
  let names_in_col :=
    foldl (fun acc name => match name with
                           | inr l => acc ++ l
                           | inl s => append acc s
                           end) [] args in
  {| col_name := name; names_in_col := names_in_col |}.

(** [Mean.__init__(name, *args)] *)
Definition Mean_init (name : string) (args : list V) : Mean :=
  {| mean_name := name;
     mean_values := foldl (fun acc val => append acc val) [] args |}.

(** [Covar.__init__(name, *args)] *)
Definition Covar_init (name : string) (args : list V) : Covar :=
  {| covar_name := name;
     covar_values := foldl (fun acc val => append acc val) [] args |}.

End constructors.

Section wire_defaults.
Context {F : Type} `{FloatOps F} {V : Type}.

(** [DPMF.__init__(name, *args)] when the arguments are strs: [sum] adds
    the first of them to the int 0, which raises TypeError; without
    arguments the sum is the int 0, which is not 1.0. *)
Definition DPMF_init_strs (name : string) (args : list string)
  : result (DPMF (F:=F)) :=
  match args with
  | [] => Raise (ValueError "DPMF values must sum to 1.0.")
  | _ :: _ => Raise TypeError
  end.

(** [MC.__init__]: the defaults of [mean] and [covar] are the objects
    [Mean('sample_mean')] and [Mean('sample_covar')]. *)
Definition MC_default_mean : Mean (V:=V) := Mean_init "sample_mean" [].
Definition MC_default_covar : Mean (V:=V) := Mean_init "sample_covar" [].

Definition MC_init (name : string) (dim type : atom) (mean : Mean (V:=V))
    (covar : Mean (V:=V) + Covar (V:=V)) (weights : list F)
    (gamma_shape gamma_scale : string) : MC (F:=F) (V:=V) :=
  {| mc_name := name; mc_dim := dim; mc_type := type; mc_mean := mean;
     mc_covar := covar; mc_weights := weights;
     mc_gamma_shape := gamma_shape; mc_gamma_scale := gamma_scale |}.

End wire_defaults.

(** *** The registry *)

(** [collections.OrderedDict] with string keys: the items in insertion
    order. *)
Definition OrderedDict (O : Type) : Type := list (string * O).

(** [list(d)]: the keys in insertion order. *)
Definition od_keys {O} (d : OrderedDict O) : list string := d.*1.

(** [list(d.values())] *)
Definition od_values {O} (d : OrderedDict O) : list O := d.*2.

(** [d[key] = value]: an existing key keeps its position and gets the new
    value; a new key goes to the end. *)
Fixpoint od_setitem {O} (key : string) (value : O) (d : OrderedDict O)
  : OrderedDict O :=
  match d with
  | [] => [(key, value)]
  | (k, v) :: d' =>
      if String.eqb k key then (k, value) :: d'
      else (k, v) :: od_setitem key value d'
  end.

(** [d[key]] *)
Fixpoint od_getitem {O} (key : string) (d : OrderedDict O) : result O :=
  match d with
  | [] => Raise KeyError
  | (k, v) :: d' => if String.eqb k key then Ok v else od_getitem key d'
  end.

(** What a per-kind [generate_*] method returns: the empty list [[]], or
    the block's text. *)
Inductive block : Type :=
| BlockEmptyList
| BlockStr (s : string).

(** The elements met when the value is iterated (by [str.join]). *)
Definition block_iter (b : block) : list string :=
  match b with
  | BlockEmptyList => []
  | BlockStr s => chars s
  end.

(** The common body of the eight [generate_*] methods, for the attribute
    [d], its header line and its objects' [generate]. *)
Definition generate_kind {O} (header : string) (d : OrderedDict O)
    (generate : O -> nat -> result string) : result block :=
  if (length d =? 0)%nat then Ok BlockEmptyList
  else
    let lines := [header] in
    let lines := append lines (pretty (length d) +:+ nl) in
    lines ← for_each (fun lines key_index =>
               key ← list_getitem (od_keys d) key_index;
               obj ← od_getitem key d;
               text ← generate obj key_index;
               Ok (append lines text))
             (seq 0 (length (od_keys d))) lines;
    Ok (BlockStr (join nl lines)).

Section registry.
Context {F : Type} `{FloatOps F} (str_float : F -> string).
Context {V : Type} (str_value : V -> string).

(** A Python object handed to [update]: one of the eight wire-object
    classes, or anything else. *)
Inductive pyobj : Type :=
| ObjMean (o : Mean (V:=V))
| ObjCovar (o : Covar (V:=V))
| ObjDeterministicCPT (o : DeterministicCPT)
| ObjDenseCPT (o : DenseCPT (F:=F))
| ObjDPMF (o : DPMF (F:=F))
| ObjMC (o : MC (F:=F) (V:=V))
| ObjMX (o : MX (F:=F) (V:=V))
| ObjNameCollection (o : NameCollection)
| ObjOther (repr : string).

Record InputMaster : Type := {
  mean : OrderedDict (Mean (V:=V));
  covar : OrderedDict (Covar (V:=V));
  dense : OrderedDict (DenseCPT (F:=F));
  deterministic : OrderedDict DeterministicCPT;
  dpmf : OrderedDict (DPMF (F:=F));
  mc : OrderedDict (MC (F:=F) (V:=V));
  mx : OrderedDict (MX (F:=F) (V:=V));
  name_collection : OrderedDict NameCollection;
}.

(** [InputMaster()] *)
Definition InputMaster_init : InputMaster :=
  {| mean := []; covar := []; dense := []; deterministic := []; dpmf := [];
     mc := []; mx := []; name_collection := [] |}.

(** [isinstance(obj, C)] for each of the eight classes. *)
Definition isinstance_Mean (obj : pyobj) : bool :=
  match obj with ObjMean _ => true | _ => false end.
Definition isinstance_Covar (obj : pyobj) : bool :=
  match obj with ObjCovar _ => true | _ => false end.
Definition isinstance_DeterministicCPT (obj : pyobj) : bool :=
  match obj with ObjDeterministicCPT _ => true | _ => false end.
Definition isinstance_DenseCPT (obj : pyobj) : bool :=
  match obj with ObjDenseCPT _ => true | _ => false end.
Definition isinstance_DPMF (obj : pyobj) : bool :=
  match obj with ObjDPMF _ => true | _ => false end.
Definition isinstance_MC (obj : pyobj) : bool :=
  match obj with ObjMC _ => true | _ => false end.
Definition isinstance_MX (obj : pyobj) : bool :=
  match obj with ObjMX _ => true | _ => false end.
Definition isinstance_NameCollection (obj : pyobj) : bool :=
  match obj with ObjNameCollection _ => true | _ => false end.

(** The body of the second loop of [update]: eight independent [if]s, each
    storing [obj] under [obj.name] in the attribute of its class. *)
Definition register (self : InputMaster) (obj : pyobj) : InputMaster :=
  let self := match obj with
    | ObjMean o =>
        {| mean := od_setitem (mean_name o) o (mean self);
           covar := covar self; dense := dense self;
           deterministic := deterministic self; dpmf := dpmf self;
           mc := mc self; mx := mx self;
           name_collection := name_collection self |}
    | _ => self end in
  let self := match obj with
    | ObjCovar o =>
        {| mean := mean self;
           covar := od_setitem (covar_name o) o (covar self);
           dense := dense self;
           deterministic := deterministic self; dpmf := dpmf self;
           mc := mc self; mx := mx self;
           name_collection := name_collection self |}
    | _ => self end in
  let self := match obj with
    | ObjDeterministicCPT o =>
        {| mean := mean self; covar := covar self; dense := dense self;
           deterministic := od_setitem (det_name o) o (deterministic self);
           dpmf := dpmf self; mc := mc self; mx := mx self;
           name_collection := name_collection self |}
    | _ => self end in
  let self := match obj with
    | ObjDenseCPT o =>
        {| mean := mean self; covar := covar self;
           dense := od_setitem (dense_name o) o (dense self);
           deterministic := deterministic self; dpmf := dpmf self;
           mc := mc self; mx := mx self;
           name_collection := name_collection self |}
    | _ => self end in
  let self := match obj with
    | ObjDPMF o =>
        {| mean := mean self; covar := covar self; dense := dense self;
           deterministic := deterministic self;
           dpmf := od_setitem (dpmf_name o) o (dpmf self);
           mc := mc self; mx := mx self;
           name_collection := name_collection self |}
    | _ => self end in
  let self := match obj with
    | ObjMC o =>
        {| mean := mean self; covar := covar self; dense := dense self;
           deterministic := deterministic self; dpmf := dpmf self;
           mc := od_setitem (mc_name o) o (mc self);
           mx := mx self;
           name_collection := name_collection self |}
    | _ => self end in
  let self := match obj with
    | ObjMX o =>
        {| mean := mean self; covar := covar self; dense := dense self;
           deterministic := deterministic self; dpmf := dpmf self;
           mc := mc self;
           mx := od_setitem (mx_name o) o (mx self);
           name_collection := name_collection self |}
    | _ => self end in
  match obj with
  | ObjNameCollection o =>
      {| mean := mean self; covar := covar self; dense := dense self;
         deterministic := deterministic self; dpmf := dpmf self;
         mc := mc self; mx := mx self;
         name_collection := od_setitem (col_name o) o (name_collection self) |}
  | _ => self
  end.

(** [InputMaster.update(gmtk_obj)]: the registry is mutated in place, so
    the call yields its outcome together with the registry it leaves. *)
Definition InputMaster_update (gmtk_obj : pyobj + list pyobj)
    (self : InputMaster) : result unit * InputMaster :=
  let gmtk_obj := match gmtk_obj with
                  | inl o => [o]
                  | inr os => os
                  end in
  match for_each (fun (_ : unit) obj =>
          if negb (isinstance_Mean obj || isinstance_Covar obj ||
                   isinstance_DeterministicCPT obj || isinstance_DenseCPT obj
                   || isinstance_DPMF obj || isinstance_MC obj
                   || isinstance_MX obj || isinstance_NameCollection obj)
          then Raise (ValueError "Object is not an allowed GMTK type.")
          else Ok tt) gmtk_obj tt with
  | Raise e => (Raise e, self)
  | Ok _ => (Ok tt, foldl register self gmtk_obj)
  end.

Definition total {O} (g : O -> nat -> string) : O -> nat -> result string :=
  fun o i => Ok (g o i).

Definition generate_mean (self : InputMaster) : result block :=
  generate_kind "MEAN_IN_FILE inline" (mean self)
                (total (Mean_generate str_value)).

Definition generate_covar (self : InputMaster) : result block :=
  generate_kind "COVAR_IN_FILE inline" (covar self)
                (total (Covar_generate str_value)).

Definition generate_dense (self : InputMaster) : result block :=
  generate_kind "DENSE_CPT_IN_FILE inline" (dense self)
                (DenseCPT_generate str_float).

Definition generate_deterministic (self : InputMaster) : result block :=
  generate_kind "DETERMINISTIC_CPT_IN_FILE inline" (deterministic self)
                DeterministicCPT_generate.

Definition generate_dpmf (self : InputMaster) : result block :=
  generate_kind "DPMF_IN_FILE inline" (dpmf self)
                (total (DPMF_generate str_float)).

Definition generate_mc (self : InputMaster) : result block :=
  generate_kind "MC_IN_FILE inline" (mc self) (total MC_generate).

Definition generate_mx (self : InputMaster) : result block :=
  generate_kind "MX_IN_FILE inline" (mx self) (total MX_generate).

Definition generate_name_col (self : InputMaster) : result block :=
  generate_kind "NAME_COLLECTION_IN_FILE inline" (name_collection self)
                (total NameCollection_generate).

(** [InputMaster.__str__]: the list [attrs_gen] is built left to right,
    then each element is joined on the empty string and appended to [s]. *)
Definition InputMaster_str (self : InputMaster) : result string :=
  a1 ← generate_name_col self;
  a2 ← generate_deterministic self;
  a3 ← generate_dense self;
  a4 ← generate_mean self;
  a5 ← generate_covar self;
  a6 ← generate_dpmf self;
  a7 ← generate_mc self;
  a8 ← generate_mx self;
  let attrs_gen := [a1; a2; a3; a4; a5; a6; a7; a8] in
  let s := foldl (fun s obj => append s (join "" (block_iter obj)))
                 [] attrs_gen in
  Ok (join "" s).

End registry.

End gen_gmtk_params.

(** ** segway_input_master.py *)
Module segway_input_master.

Definition CARD_SEGTRANSITION : Z := 3.
Definition LEN_SEG_EXPECTED : Z := 100000.
Definition LEN_SUBSEG_EXPECTED : Z := 100.

(** [a // b] on Python ints. *)
Definition floordiv (a b : Z) : result Z :=
  if (b =? 0)%Z then Raise ZeroDivisionError else Ok (a / b)%Z.

(** [a // b] on numpy integers: a zero divisor gives 0 (with a warning). *)
Definition np_floordiv (a b : Z) : Z := (a / b)%Z.

(** [a[i, j] = v] on a two-dimensional array (or on the first two axes of
    a three-dimensional one, [v] then being a whole innermost vector), for
    indices [0 <= i, j]: IndexError out of bounds. *)
Definition setitem2 {A} (a : list (list A)) (i j : nat) (v : A)
  : result (list (list A)) :=
  match a !! i with
  | None => Raise IndexError
  | Some row =>
      if decide (j < length row) then Ok (<[i := <[j := v]> row]> a)
      else Raise IndexError
  end.

(** An indexed assignment [a[I, J] = v] that selects the positions
    [pairs]. *)
Definition setitem_pairs {A} (a : list (list A)) (pairs : list (nat * nat))
    (v : A) : result (list (list A)) :=
  for_each (fun a '(i, j) => setitem2 a i j v) pairs a.

(** The bound [i] of a slice over an axis of length [len], as
    [slice.indices] normalises it. *)
Definition slice_bound (len i : Z) : Z :=
  if (i <? 0)%Z then Z.max (i + len) 0 else Z.min i len.

(** The indices selected by [start:stop] ([stop = None]: to the end). *)
Definition slice_indices (len : nat) (start : Z) (stop : option Z)
  : list nat :=
  let lo := slice_bound (Z.of_nat len) start in
  let hi := match stop with
            | None => Z.of_nat len
            | Some s => slice_bound (Z.of_nat len) s
            end in
  seq (Z.to_nat lo) (Z.to_nat (hi - lo)).

(** The positions [(i, j)], [i] from [rows] and [j] from [cols]. *)
Definition positions (rows cols : list nat) : list (nat * nat) :=
  i ← rows; j ← cols; [(i, j)].

(** [where(bitmap)]: the indices holding [True], increasing. *)
Fixpoint np_where (bitmap : list bool) (i : nat) : list nat :=
  match bitmap with
  | [] => []
  | b :: bitmap' =>
      if b then i :: np_where bitmap' (S i) else np_where bitmap' (S i)
  end.

Section tables.
Context {F : Type} `{FloatOps F}.

(** A numpy array of floats of one, two or three dimensions. *)
Inductive ndarray : Type :=
| Nd1 (a : list F)
| Nd2 (a : list (list F))
| Nd3 (a : list (list (list F))).

(** [x / d] for a float [x] and an int [d]. *)
Definition truediv (x : F) (d : Z) : result F :=
  if (d =? 0)%Z then Raise ZeroDivisionError else Ok (fdiv x (of_int d)).

(** Modelled from the spec: [fill_array] of [genomedata._util] is not in
    the repository; it is the "domain utility producing a constant-filled
    array of a given shape" (numpy refuses a negative dimension). *)
Definition fill_array2 (scalar : F) (shape : Z * Z) : result (list (list F)) :=
  let '(n, m) := shape in
  if (n <? 0)%Z || (m <? 0)%Z then
    Raise (ValueError "negative dimensions are not allowed")
  else Ok (replicate (Z.to_nat n) (replicate (Z.to_nat m) scalar)).

(** [numpy.empty(shape)] for a three-dimensional shape: the cells hold
    whatever was in memory, here [junk]. *)
Definition np_empty3 (junk : F) (shape : Z * Z * Z)
  : result (list (list (list F))) :=
  let '(n, m, k) := shape in
  if (n <? 0)%Z || (m <? 0)%Z || (k <? 0)%Z then
    Raise (ValueError "negative dimensions are not allowed")
  else Ok (replicate (Z.to_nat n)
             (replicate (Z.to_nat m) (replicate (Z.to_nat k) junk))).

(** [prob_transition_from_expected_len]: true division of two ints. *)
Definition prob_transition_from_expected_len (length : Z) : result F :=
  truediv (of_int length) (1 + length).

Definition make_zero_diagonal_table (length : Z) : result ndarray :=
  if (length =? 1)%Z then Ok (Nd1 [of_int 1])
  else
    let prob_self_self := of_int 0 in
    prob_self_other ← truediv (fsub (of_int 1) prob_self_self) (length - 1);
    res ← fill_array2 prob_self_other (length, length);
    let range_cpt := Z.to_nat <$> range length in
    res ← setitem_pairs res (zip range_cpt range_cpt) prob_self_self;
    Ok (Nd2 res).

(** A row of [seg_table].  Modelled from the spec: the column offsets
    OFFSET_START, OFFSET_END and OFFSET_STEP of [._util] are not in the
    repository; the table has "start/end/step columns". *)
Record seg_len : Type := {
  seg_start : Z;
  seg_end : Z;
  seg_step : Z;
}.

(** The attributes a [TableParamSpec] reads. *)
Record TableParamSpec : Type := {
  num_segs : Z;
  resolution : Z;
  card_seg_countdown : Z;
  seg_table : list seg_len;
  seg_countdowns_initial : list Z;
}.

Definition probs_force_transition : list F :=
  [of_int 0; of_int 0; of_int 1].

Definition calc_prob_transition (self : TableParamSpec) (length : Z)
  : result (F * F) :=
  length_scaled ← floordiv length (resolution self);
  prob_self_self ← prob_transition_from_expected_len length_scaled;
  let prob_self_other := fsub (of_int 1) prob_self_self in
  Ok (prob_self_self, prob_self_other).

(** The two probability vectors computed at the head of
    [make_dense_cpt_segCountDown_seg_segTransition]:
    [(probs_allow_transition, probs_prevent_transition)]. *)
Definition transition_probs (self : TableParamSpec)
  : result (list F * list F) :=
  '(prob_seg_self_self, prob_seg_self_other) ←
    calc_prob_transition self LEN_SEG_EXPECTED;
  '(prob_subseg_self_self, prob_subseg_self_other) ←
    calc_prob_transition self LEN_SUBSEG_EXPECTED;
  let probs_allow_transition :=
    [fmul prob_seg_self_self prob_subseg_self_self;
     fmul prob_seg_self_self prob_subseg_self_other;
     prob_seg_self_other] in
  let probs_prevent_transition :=
    [prob_subseg_self_self; prob_subseg_self_other; of_int 0] in
  Ok (probs_allow_transition, probs_prevent_transition).

(** [seg_countdown_allow] of the loop over the labels with a maximum. *)
Definition seg_countdown_allow (seg_countdown_initial : Z) (row : seg_len)
  : Z :=
  let minimum := np_floordiv (seg_start row) (seg_step row) in
  (seg_countdown_initial - minimum + 1)%Z.

(** [make_dense_cpt_segCountDown_seg_segTransition]: the array is indexed
    [countdown][seg][transition]. *)
Definition make_dense_cpt_segCountDown_seg_segTransition (junk : F)
    (self : TableParamSpec) : result (list (list (list F))) :=
  let card_seg_countdown := card_seg_countdown self in
  res ← np_empty3 junk
          (card_seg_countdown, num_segs self, CARD_SEGTRANSITION);
  '(probs_allow_transition, probs_prevent_transition) ← transition_probs self;
  let table := seg_table self in
  let ends := seg_end <$> table in
  let bitmap_without_maximum := (fun e => (e =? 0)%Z) <$> ends in
  let labels_with_maximum := np_where (negb <$> bitmap_without_maximum) 0 in
  let labels_without_maximum := np_where bitmap_without_maximum 0 in
  let card := length res in
  (* labels without a maximum *)
  res ← setitem_pairs res (positions [0%nat] labels_without_maximum)
          probs_allow_transition;
  res ← setitem_pairs res
          (positions (slice_indices card 1 None) labels_without_maximum)
          probs_prevent_transition;
  (* labels with a maximum *)
  let seg_countdowns_initial := seg_countdowns_initial self in
  res ← setitem_pairs res (positions [0%nat] labels_with_maximum)
          probs_force_transition;
  for_each (fun res label =>
      seg_countdown_initial ← list_getitem seg_countdowns_initial label;
      row ← list_getitem table label;
      let seg_countdown_allow :=
        seg_countdown_allow seg_countdown_initial row in
      res ← setitem_pairs res
              (positions (slice_indices card 1 (Some seg_countdown_allow))
                         [label])
              probs_allow_transition;
      setitem_pairs res
        (positions (slice_indices card seg_countdown_allow None) [label])
        probs_prevent_transition)
    labels_with_maximum res.

End tables.

(** *** Methods that work on the registry *)

(** A method that reads and mutates the module-level registry
    [input_master] (of type [R]) and returns or raises. *)
Definition prog (R A : Type) : Type := R -> result A * R.

#[global] Instance prog_ret {R} : MRet (prog R) := fun A a r => (Ok a, r).
#[global] Instance prog_bind {R} : MBind (prog R) := fun A B f m r =>
  match m r with
  | (Ok a, r') => f a r'
  | (Raise e, r') => (Raise e, r')
  end.

Definition raise {R A} (e : exn) : prog R A := fun r => (Raise e, r).

Section constants.
(** Constants of [._util], which is not in the repository. *)
Context (DISTRIBUTION_NORM DISTRIBUTION_ASINH_NORMAL DISTRIBUTION_GAMMA
         : string) (USE_MFSDG : bool).

Definition COVAR_TIED : bool := if USE_MFSDG then false else true.

Definition DISTRIBUTIONS_LIKE_NORM : list string :=
  [DISTRIBUTION_NORM; DISTRIBUTION_ASINH_NORMAL].

End constants.

(** *** The builders of [ParamSpec] *)

Import gen_gmtk_params.

(** [xs[start:stop]] *)
Definition list_slice {A} (xs : list A) (start stop : Z) : list A :=
  let lo := slice_bound (Z.of_nat (length xs)) start in
  let hi := slice_bound (Z.of_nat (length xs)) stop in
  take (Z.to_nat (hi - lo)) (drop (Z.to_nat lo) xs).

(** A call that neither reads nor changes the registry. *)
Definition lift {R A} (r : result A) : prog R A := fun st => (r, st).

(** Reading the registry. *)
Definition gets {R A} (f : R -> A) : prog R A := fun st => (Ok (f st), st).

(** A method of the registry that returns or raises and leaves it as it
    is. *)
Definition call {R A} (f : R -> result A) : prog R A := fun st => (f st, st).

(** A [for] loop whose body works on the registry. *)
Fixpoint prog_for_each {R A} (body : A -> prog R unit) (xs : list A)
  : prog R unit :=
  match xs with
  | [] => mret tt
  | x :: xs' => _ ← body x; prog_for_each body xs'
  end.

Definition ROUND_NDIGITS : Z := 12.

Section builders.
Context {F : Type} `{FloatOps F} (str_float : F -> string).
Context {V : Type} (str_value : V -> string).
(** Constants of [._util], which is not in the repository. *)
Context (DISTRIBUTION_NORM DISTRIBUTION_ASINH_NORMAL DISTRIBUTION_GAMMA
         : string) (USE_MFSDG : bool).
(** [str(round(x, ndigits))] on a float. *)
Context (str_round : F -> Z -> string).

Abbreviation registry := (InputMaster (F:=F) (V:=V)).

(** The attributes of a [ParamSpec] that the modelled methods read.
    [spec_track_groups] holds, for each group, the names of its tracks;
    [spec_vars] is [self.vars.tolist()]; [spec_mean_data] is the list
    [self.make_mean_data().tolist()], which is drawn from [random_state]. *)
Record ParamSpec : Type := {
  spec_distribution : string;
  spec_num_segs : Z;
  spec_num_subsegs : Z;
  spec_num_mix_components : Z;
  spec_track_names : list string;
  spec_num_track_groups : Z;
  spec_track_groups : list (list string);
  spec_vars : list V;
  spec_mean_data : list V;
}.

(** [generate_gmtk_obj_names(obj, track_names=self.track_names, ...)] *)
Definition spec_names (self : ParamSpec) (obj : string)
  : result (list string) :=
  generate_gmtk_obj_names obj (spec_track_names self) (spec_num_segs self)
    (spec_num_subsegs self) (spec_distribution self)
    (spec_num_mix_components self).

(** [input_master.update(obj)] *)
Definition input_master_update (obj : pyobj (F:=F) (V:=V))
  : prog registry unit :=
  InputMaster_update (inl obj).

Definition ParamSpec_generate_name_collection (self : ParamSpec)
  : prog registry block :=
  collection_names ← lift (spec_names self "col");
  names ← lift (spec_names self "mx_name");
  let num_tracks := Z.of_nat (length (spec_track_names self)) in
  len_name_group ← lift (int_truediv (Z.of_nat (length names)) num_tracks);
  starts ← lift (range3 0 (Z.of_nat (length names)) len_name_group);
  let name_groups :=
    (fun i => list_slice names i (i + len_name_group)) <$> starts in
  _ ← prog_for_each (fun group_index =>
         name ← lift (list_getitem collection_names group_index);
         group ← lift (list_getitem name_groups group_index);
         let name_col := NameCollection_init name [inr group] in
         input_master_update (ObjNameCollection name_col))
       (seq 0 (length name_groups));
  call generate_name_col.

Definition ParamSpec_generate_mean_objects (self : ParamSpec)
  : prog registry block :=
  names ← lift (spec_names self "mean");
  let means := spec_mean_data self in
  _ ← prog_for_each (fun i =>
         name ← lift (list_getitem names i);
         value ← lift (list_getitem means i);
         let mean_obj := Mean_init name [value] in
         input_master_update (ObjMean mean_obj))
       (seq 0 (length names));
  call (generate_mean str_value).

Definition ParamSpec_generate_covar_objects (self : ParamSpec)
  : prog registry block :=
  names ← lift (if negb (COVAR_TIED USE_MFSDG)
                then spec_names self "covar"
                else spec_names self "tied_covar");
  let covars := spec_vars self in
  _ ← prog_for_each (fun i =>
         name ← lift (list_getitem names i);
         value ← lift (list_getitem covars i);
         let covar_obj := Covar_init name [value] in
         input_master_update (ObjCovar covar_obj))
       (seq 0 (length names));
  call (generate_covar str_value).

Definition ParamSpec_generate_mc_objects (self : ParamSpec)
  : prog registry block :=
  _ ← (if bool_decide (spec_distribution self
                        ∈ DISTRIBUTIONS_LIKE_NORM DISTRIBUTION_NORM
                            DISTRIBUTION_ASINH_NORMAL) then
         let option := if USE_MFSDG then "mc_missing" else "mc_diag" in
         names ← lift (spec_names self option);
         covars ← gets (fun input_master =>
                     list_repeat (od_values (covar input_master))
                       (spec_num_segs self * spec_num_subsegs self));
         prog_for_each (fun i =>
             name ← lift (list_getitem names i);
             means ← gets (fun input_master => od_values (mean input_master));
             mean ← lift (list_getitem means i);
             covar ← lift (list_getitem covars i);
             let mc_obj :=
               MC_init name (AInt 1) (AStr "COMPONENT_TYPE_DIAG_GAUSSIAN")
                       mean (inr covar) [] "" "" in
             input_master_update (ObjMC mc_obj))
           (seq 0 (length names))
       else if String.eqb (spec_distribution self) DISTRIBUTION_GAMMA then
         let option := "mc_gamma" in
         names ← lift (spec_names self option);
         gamma_scale ← lift (spec_names self "gammascale");
         gamma_shape ← lift (spec_names self "gammashape");
         prog_for_each (fun i =>
             name ← lift (list_getitem names i);
             shape ← lift (list_getitem gamma_shape i);
             scale ← lift (list_getitem gamma_scale i);
             let mc_obj :=
               MC_init name (AInt 1) (AStr "COMPONENT_TYPE_GAMMA")
                       MC_default_mean (inl MC_default_covar) [] shape scale in
             input_master_update (ObjMC mc_obj))
           (seq 0 (length names))
       else mret tt);
  call generate_mc.

Definition ParamSpec_generate_mx_objects (self : ParamSpec)
  : prog registry block :=
  names ← lift (spec_names self "mx");
  mc_obj ← gets (fun input_master => od_values (mc input_master));
  dpmf_obj ← gets (fun input_master => od_values (dpmf input_master));
  multiple ← lift (int_truediv (Z.of_nat (length names))
                               (Z.of_nat (length dpmf_obj)));
  let dpmf_obj := list_repeat dpmf_obj multiple in
  _ ← prog_for_each (fun i =>
         name ← lift (list_getitem names i);
         dpmf ← lift (list_getitem dpmf_obj i);
         components ← lift (list_getitem mc_obj i);
         mx_obj ← lift (MX_init name (AInt 1) dpmf (inl components));
         input_master_update (ObjMX mx_obj))
       (seq 0 (length names));
  call generate_mx.

Definition ParamSpec_generate_dpmf_objects (self : ParamSpec)
  : prog registry block :=
  names ← lift (spec_names self "dpmf");
  _ ← (if (spec_num_mix_components self =? 1)%Z then
         name ← lift (list_getitem names 0);
         dpmf_obj ← lift (DPMF_init name [of_int 1]);
         input_master_update (ObjDPMF dpmf_obj)
       else
         quotient ← lift (truediv (of_int 1) (spec_num_mix_components self));
         let dpmf_values := str_round quotient ROUND_NDIGITS in
         prog_for_each (fun i =>
             name ← lift (list_getitem names i);
             value ← lift (list_getitem (chars dpmf_values) i);
             dpmf_obj ← lift (DPMF_init_strs name [value]);
             input_master_update (ObjDPMF dpmf_obj))
           (seq 0 (length names)));
  call (generate_dpmf str_float).

End builders.

(** *** The template mappings of [ParamSpec] *)

(** [format_indexed_strs(fmt, num)], for a [fmt] without conversion
    specifiers of its own, as ["seg"] and ["subseg"] are:
    [(fmt + "%d") % index] is [fmt] followed by the decimal index. *)
Definition format_indexed_strs (fmt : string) (num : Z) : list string :=
  (fun index => fmt +:+ pretty index) <$> range num.

(** [enumerate(xs)] *)
Definition enumerate {A} (xs : list A) : list (nat * A) :=
  zip (seq 0 (length xs)) xs.

(** A generator that has been run to its end: the values it yielded, in
    order, and whether it was exhausted or raised. *)
Definition gen (A : Type) : Type := list A * result unit.

(** [yield x] *)
Definition yield {A} (x : A) : gen A := ([x], Ok tt).

(** A [for] loop in a generator: the yields of the iterations in order, up
    to the first iteration that raises. *)
Fixpoint gen_for_each {X A} (body : X -> gen A) (xs : list X) : gen A :=
  match xs with
  | [] => ([], Ok tt)
  | x :: xs' =>
      match body x with
      | (ys, Ok _) =>
          let '(zs, r) := gen_for_each body xs' in (ys ++ zs, r)
      | (ys, Raise e) => (ys, Raise e)
      end
  end.

(** The dict [generate_tmpl_mappings] yields. *)
Record tmpl_mapping : Type := {
  tm_seg : string;
  tm_subseg : string;
  tm_track : string;
  tm_seg_index : nat;
  tm_subseg_index : nat;
  tm_track_index : nat;
  tm_index : Z;
  tm_distribution : string;
}.

Section templates.
Context {V : Type}.

Definition ParamSpec_make_segnames (self : ParamSpec (V:=V)) : list string :=
  format_indexed_strs "seg" (spec_num_segs self).

Definition ParamSpec_make_subsegnames (self : ParamSpec (V:=V))
  : list string :=
  format_indexed_strs "subseg" (spec_num_subsegs self).

Definition ParamSpec_generate_tmpl_mappings (self : ParamSpec (V:=V))
  : gen tmpl_mapping :=
  let num_subsegs := spec_num_subsegs self in
  let track_groups := spec_track_groups self in
  let num_track_groups := spec_num_track_groups self in
  gen_for_each (fun '(seg_index, segname) =>
      let seg_offset :=
        (num_track_groups * num_subsegs * Z.of_nat seg_index)%Z in
      gen_for_each (fun '(subseg_index, subsegname) =>
          let subseg_offset :=
            (seg_offset + num_track_groups * Z.of_nat subseg_index)%Z in
          gen_for_each (fun '(track_group_index, track_group) =>
              let track_offset :=
                (subseg_offset + Z.of_nat track_group_index)%Z in
              match list_getitem track_group 0 with
              | Raise e => ([], Raise e)
              | Ok head_trackname =>
                  yield {| tm_seg := segname; tm_subseg := subsegname;
                           tm_track := head_trackname;
                           tm_seg_index := seg_index;
                           tm_subseg_index := subseg_index;
                           tm_track_index := track_group_index;
                           tm_index := track_offset;
                           tm_distribution := spec_distribution self |}
              end)
            (enumerate track_groups))
        (enumerate (ParamSpec_make_subsegnames self)))
    (enumerate (ParamSpec_make_segnames self)).

End templates.

(** *** The orchestrator *)

(** The value bound to [real_mat_spec]. *)
Inductive real_mat : Type :=
| RealMatEmptyStr
| RealMatParamSpec
| GammaRealMatParamSpec.

(** The locals returned by [make_mapping] (the spec objects built from the
    saver alone, [param_spec], [dt_spec], [dense_cpt_spec] and [ve_spec],
    are left out: they carry no value of their own). *)
Record mapping : Type := {
  num_free_params : Z;
  fullnum_subsegs : Z;
  include_filename : string;
  name_collection_spec : block;
  mean_spec : block;
  covar_spec : block;
  real_mat_spec : real_mat;
  mc_spec : block;
  dpmf_spec : block;
  mx_spec : block;
  card_seg : Z;
}.

Section make_mapping.
Context {F : Type} `{FloatOps F} (str_float : F -> string).
Context {V : Type} (str_value : V -> string).
(** Constants of [._util], which is not in the repository. *)
Context (DISTRIBUTION_NORM DISTRIBUTION_ASINH_NORMAL DISTRIBUTION_GAMMA
         : string) (USE_MFSDG : bool).
(** [str(round(x, ndigits))] on a float. *)
Context (str_round : F -> Z -> string).

(** The attributes of the saver that [make_mapping] reads, itself and
    through the [ParamSpec] it builds.  [saver_tracks] holds the names of
    [self.tracks] and [saver_track_groups] those of the tracks of each
    group; [saver_vars] is [self.vars.tolist()]; [saver_mean_data] is the
    list that [make_mean_data] draws from [means], [vars] and
    [random_state]. *)
Record InputMasterSaver : Type := {
  saver_num_segs : Z;
  saver_num_subsegs : Z;
  saver_num_track_groups : Z;
  saver_distribution : string;
  gmtk_include_filename_relative : string;
  saver_num_mix_components : Z;
  saver_tracks : list string;
  saver_track_groups : list (list string);
  saver_vars : list V;
  saver_mean_data : list V;
}.

(** [ParamSpec.__init__(saver)]: the attributes are copied from the saver
    and [track_names] is filled with the names of the tracks. *)
Definition ParamSpec_init (saver : InputMasterSaver) : ParamSpec (V:=V) :=
  let track_names :=
    foldl (fun acc track => append acc track) [] (saver_tracks saver) in
  {| spec_distribution := saver_distribution saver;
     spec_num_segs := saver_num_segs saver;
     spec_num_subsegs := saver_num_subsegs saver;
     spec_num_mix_components := saver_num_mix_components saver;
     spec_track_names := track_names;
     spec_num_track_groups := saver_num_track_groups saver;
     spec_track_groups := saver_track_groups saver;
     spec_vars := saver_vars saver;
     spec_mean_data := saver_mean_data saver |}.

Definition make_mapping (self : InputMasterSaver)
  : prog (InputMaster (F:=F) (V:=V)) mapping :=
  let param_spec := ParamSpec_init self in
  let num_free_params := 0%Z in
  let num_segs := saver_num_segs self in
  let num_subsegs := saver_num_subsegs self in
  let num_track_groups := saver_num_track_groups self in
  let fullnum_subsegs := (num_segs * num_subsegs)%Z in
  let include_filename := gmtk_include_filename_relative self in
  (* seg_seg *)
  let num_free_params :=
    (num_free_params + fullnum_subsegs * (fullnum_subsegs - 1))%Z in
  (* segCountDown_seg_segTransition *)
  let num_free_params := (num_free_params + fullnum_subsegs)%Z in
  name_collection_spec ← ParamSpec_generate_name_collection param_spec;
  let distribution := saver_distribution self in
  '(mean_spec, covar_spec, real_mat_spec, mc_spec, num_free_params) ←
    (if bool_decide (distribution
                       ∈ DISTRIBUTIONS_LIKE_NORM DISTRIBUTION_NORM
                           DISTRIBUTION_ASINH_NORMAL) then
       mean_spec ← ParamSpec_generate_mean_objects str_value param_spec;
       covar_spec ←
         ParamSpec_generate_covar_objects str_value USE_MFSDG param_spec;
       let real_mat_spec :=
         if USE_MFSDG then RealMatParamSpec else RealMatEmptyStr in
       mc_spec ←
         ParamSpec_generate_mc_objects DISTRIBUTION_NORM
           DISTRIBUTION_ASINH_NORMAL DISTRIBUTION_GAMMA USE_MFSDG param_spec;
       let num_free_params :=
         if COVAR_TIED USE_MFSDG then
           (num_free_params + (fullnum_subsegs + 1) * num_track_groups)%Z
         else
           (num_free_params + (fullnum_subsegs * 2) * num_track_groups)%Z in
       mret (mean_spec, covar_spec, real_mat_spec, mc_spec, num_free_params)
     else if String.eqb distribution DISTRIBUTION_GAMMA then
       let mean_spec := BlockStr "" in
       let covar_spec := BlockStr "" in
       let real_mat_spec := GammaRealMatParamSpec in
       mc_spec ←
         ParamSpec_generate_mc_objects DISTRIBUTION_NORM
           DISTRIBUTION_ASINH_NORMAL DISTRIBUTION_GAMMA USE_MFSDG param_spec;
       let num_free_params :=
         (num_free_params + (fullnum_subsegs * 2) * num_track_groups)%Z in
       mret (mean_spec, covar_spec, real_mat_spec, mc_spec, num_free_params)
     else
       raise (ValueError ("distribution " +:+ distribution
                          +:+ " not supported")));
  dpmf_spec ← ParamSpec_generate_dpmf_objects str_float str_round param_spec;
  mx_spec ← ParamSpec_generate_mx_objects param_spec;
  let card_seg := num_segs in
  mret {| num_free_params := num_free_params;
          fullnum_subsegs := fullnum_subsegs;
          include_filename := include_filename;
          name_collection_spec := name_collection_spec;
          mean_spec := mean_spec;
          covar_spec := covar_spec;
          real_mat_spec := real_mat_spec;
          mc_spec := mc_spec;
          dpmf_spec := dpmf_spec;
          mx_spec := mx_spec;
          card_seg := card_seg |}.

End make_mapping.

End segway_input_master.

Import gen_gmtk_params.
Import segway_input_master.

(** * Specification-side definitions

    What the theorems below are stated with: the names, views and
    predicates of the specification, and the concrete inputs of the worked
    examples. *)

(** ** Names *)

(** The names of the pattern "<prefix>_seg<i>_subseg<j>_<track>", seg
    outermost, then subseg, then track. *)
Definition seg_subseg_track_names (prefix : string)
    (track_names : list string) (num_segs num_subsegs : Z) : list string :=
  i ← range num_segs; j ← range num_subsegs; name ← track_names;
  [prefix +:+ "_seg" +:+ pretty i +:+ "_subseg" +:+ pretty j +:+ "_" +:+ name].

(** The names each kind is said to get, by pattern and iteration order. *)
Definition names_by_pattern (kind : string) (track_names : list string)
    (num_segs num_subsegs : Z) (distribution : string)
    (num_mix_components : Z) : list string :=
  if String.eqb kind "covar" || String.eqb kind "tied_covar" then
    (fun name => "covar_" +:+ name) <$> track_names
  else if String.eqb kind "col" then
    (fun name => "collection_seg_" +:+ name) <$> track_names
  else if String.eqb kind "mx_name" then
    name ← track_names; i ← range num_segs; j ← range num_subsegs;
    ["mx_seg" +:+ pretty i +:+ "_subseg" +:+ pretty j +:+ "_" +:+ name]
  else if String.eqb kind "dpmf" && (num_mix_components =? 1)%Z then
    ["dpmf_always"]
  else if String.eqb kind "mc_diag" then
    seg_subseg_track_names ("mc_" +:+ distribution) track_names
                           num_segs num_subsegs
  else
    seg_subseg_track_names kind track_names num_segs num_subsegs.

(** Evaluates the membership test and the chain of string comparisons of
    [generate_gmtk_obj_names] at a literal kind. *)
Ltac eval_kind :=
  unfold generate_gmtk_obj_names, names_by_pattern, general_line;
  match goal with
  | |- context [bool_decide (?k ∈ allowed_types)] =>
      replace (bool_decide (k ∈ allowed_types)) with true
        by (vm_compute; reflexivity)
  end;
  cbn [negb orb andb String.eqb Ascii.eqb Bool.eqb].

(** ** Wire objects and the registry *)

(** The list a [components] argument stands for. *)
Definition component_list {F V} `{FloatOps F}
    (components : MC (F:=F) (V:=V) + list (MC (F:=F) (V:=V)))
  : list (MC (F:=F) (V:=V)) :=
  match components with
  | inl c => [c]
  | inr cs => cs
  end.

Section registry_views.
Context {F : Type} `{FloatOps F} {V : Type}.

Abbreviation pyobj := (pyobj (F:=F) (V:=V)).
Abbreviation InputMaster := (InputMaster (F:=F) (V:=V)).

(** The eight wire-object kinds, and the order in which [__str__] is said
    to render them. *)
Inductive kind : Type :=
| KNameCollection | KDeterministicCPT | KDenseCPT | KMean | KCovar | KDPMF
| KMC | KMX.

#[global] Instance kind_eq_dec : EqDecision kind.
Proof. solve_decision. Defined.

Definition render_order : list kind :=
  [KNameCollection; KDeterministicCPT; KDenseCPT; KMean; KCovar; KDPMF;
   KMC; KMX].

(** The kind of a Python object: [None] when it is no wire object. *)
Definition kind_of (obj : pyobj) : option kind :=
  match obj with
  | ObjMean _ => Some KMean
  | ObjCovar _ => Some KCovar
  | ObjDeterministicCPT _ => Some KDeterministicCPT
  | ObjDenseCPT _ => Some KDenseCPT
  | ObjDPMF _ => Some KDPMF
  | ObjMC _ => Some KMC
  | ObjMX _ => Some KMX
  | ObjNameCollection _ => Some KNameCollection
  | ObjOther _ => None
  end.

Definition is_wire_object (obj : pyobj) : bool :=
  match kind_of obj with
  | Some _ => true
  | None => false
  end.

(** [obj.name] of a wire object. *)
Definition obj_name (obj : pyobj) : string :=
  match obj with
  | ObjMean o => mean_name o
  | ObjCovar o => covar_name o
  | ObjDeterministicCPT o => det_name o
  | ObjDenseCPT o => dense_name o
  | ObjDPMF o => dpmf_name o
  | ObjMC o => mc_name o
  | ObjMX o => mx_name o
  | ObjNameCollection o => col_name o
  | ObjOther _ => ""
  end.

(** The ordered mapping the registry keeps for a kind, its values seen as
    Python objects. *)
Definition entries (k : kind) (im : InputMaster) : OrderedDict pyobj :=
  match k with
  | KMean => prod_map id ObjMean <$> mean im
  | KCovar => prod_map id ObjCovar <$> covar im
  | KDeterministicCPT => prod_map id ObjDeterministicCPT <$> deterministic im
  | KDenseCPT => prod_map id ObjDenseCPT <$> dense im
  | KDPMF => prod_map id ObjDPMF <$> dpmf im
  | KMC => prod_map id ObjMC <$> mc im
  | KMX => prod_map id ObjMX <$> mx im
  | KNameCollection => prod_map id ObjNameCollection <$> name_collection im
  end.

(** A dict holds each key once. *)
Definition registry_wf (im : InputMaster) : Prop :=
  forall k, NoDup (od_keys (entries k im)).

(** The text a block adds to the document. *)
Definition block_text (b : block) : string :=
  match b with
  | BlockEmptyList => ""
  | BlockStr s => s
  end.

(** The blocks' texts, one after the other. *)
Definition concat_blocks (bs : list block) : string :=
  foldr (fun b doc => block_text b +:+ doc) "" bs.

End registry_views.

Section rendering_views.
Context {F : Type} `{FloatOps F} (str_float : F -> string).
Context {V : Type} (str_value : V -> string).

(** The [generate_*] method of a kind. *)
Definition generate_of (im : InputMaster (F:=F) (V:=V)) (k : kind)
  : result block :=
  match k with
  | KNameCollection => generate_name_col im
  | KDeterministicCPT => generate_deterministic im
  | KDenseCPT => generate_dense str_float im
  | KMean => generate_mean str_value im
  | KCovar => generate_covar str_value im
  | KDPMF => generate_dpmf str_float im
  | KMC => generate_mc im
  | KMX => generate_mx im
  end.

(** The document made of the blocks of the kinds [ks], in that order; a
    block that raises ends the rendering. *)
Definition document (im : InputMaster (F:=F) (V:=V)) (ks : list kind)
  : result string :=
  blocks ← mapM (generate_of im) ks; Ok (concat_blocks blocks).

End rendering_views.

Section rendering_index.
Context {O : Type} (generate : O -> nat -> result string).

(** The texts of the entries [d] in insertion order, the first rendered
    with index [i0], the next with [i0 + 1], and so on. *)
Fixpoint render_from (i0 : nat) (d : OrderedDict O) : result (list string) :=
  match d with
  | [] => Ok []
  | (_, obj) :: d' =>
      text ← generate obj i0;
      texts ← render_from (S i0) d';
      Ok (text :: texts)
  end.

End rendering_index.

(** ** Arrays *)

Section array_views.
Context {A : Type}.
Implicit Types (a : list (list A)).

(** [a] has [n] rows of [m] entries each. *)
Definition rect (n m : nat) a : Prop :=
  length a = n /\ Forall (fun row => length row = m) a.

(** The entry [a[i, j]], when there is one. *)
Definition cell a (i j : nat) : option A :=
  row ← a !! i; row !! j.

End array_views.

(** The row from which a label's countdown rows switch from allowing to
    preventing a segment transition. *)
Definition allow_bound (seg_countdowns_initial : list Z)
    (table : list seg_len) (label : nat) : Z :=
  match seg_countdowns_initial !! label, table !! label with
  | Some init, Some row => seg_countdown_allow init row
  | _, _ => 0
  end.

(** Two labels, the first without a maximum, the second with one whose
    countdown starts at 3. *)
Definition two_label_config : TableParamSpec :=
  {| num_segs := 2; resolution := 1; card_seg_countdown := 4;
     seg_table := [ {| seg_start := 10; seg_end := 0; seg_step := 5 |};
                    {| seg_start := 10; seg_end := 20; seg_step := 5 |} ];
     seg_countdowns_initial := [0; 3]%Z |}.

(** One label with a maximum whose initial countdown, 1, is below its
    minimum [10 // 5 = 2]: [seg_countdown_allow = 1 - 2 + 1 = 0]. *)
Definition short_countdown_config : TableParamSpec :=
  {| num_segs := 1; resolution := 1; card_seg_countdown := 2;
     seg_table := [ {| seg_start := 10; seg_end := 20; seg_step := 5 |} ];
     seg_countdowns_initial := [1]%Z |}.

(** ** The orchestrator *)

(** The count as the accounting states it: the seg-seg table, the countdown
    table, and the emission parameters of the distribution family. *)
Definition free_params_stated (norm_like covar_tied : bool)
    (num_segs num_subsegs num_track_groups : Z) : Z :=
  let fullnum_subsegs := (num_segs * num_subsegs)%Z in
  (fullnum_subsegs * (fullnum_subsegs - 1)
   + fullnum_subsegs
   + (if norm_like then
        if covar_tied then (fullnum_subsegs + 1) * num_track_groups
        else (fullnum_subsegs * 2) * num_track_groups
      else (fullnum_subsegs * 2) * num_track_groups))%Z.

(** ** A small registry *)

Definition mean_a : Mean (V:=Z) :=
  {| mean_name := "mean_a"; mean_values := [1%Z] |}.
Definition mean_b : Mean (V:=Z) :=
  {| mean_name := "mean_b"; mean_values := [2%Z] |}.
Definition mean_a' : Mean (V:=Z) :=
  {| mean_name := "mean_a"; mean_values := [3%Z] |}.

(** The registry after [mean_a] and [mean_b] were registered. *)
Definition two_means : InputMaster (F:=float) (V:=Z) :=
  {| mean := [("mean_a", mean_a); ("mean_b", mean_b)];
     covar := []; dense := []; deterministic := []; dpmf := [];
     mc := []; mx := []; name_collection := [] |}.

(** ** Counting names and reading them back *)

(** The number of names each allowed kind is given. *)
Definition names_count_stated (kind : string) (num_tracks : nat)
    (num_segs num_subsegs num_mix_components : Z) : nat :=
  if String.eqb kind "covar" || String.eqb kind "tied_covar"
     || String.eqb kind "col" then num_tracks
  else if String.eqb kind "dpmf" && (num_mix_components =? 1)%Z then 1
  else Z.to_nat num_segs * Z.to_nat num_subsegs * num_tracks.

(** A decimal digit. *)
Definition is_digit (c : Ascii.ascii) : bool :=
  let n := Ascii.nat_of_ascii c in (48 <=? n)%nat && (n <=? 57)%nat.

Fixpoint all_digits (s : string) : bool :=
  match s with
  | EmptyString => true
  | String c s' => is_digit c && all_digits s'
  end.

(** ** What renders *)

Definition is_str (a : atom) : bool :=
  match a with
  | AStr _ => true
  | AInt _ => false
  end.

Section prob_views.
Context {F : Type} `{FloatOps F} (str_float : F -> string).

(** No list of the table, at any depth, is empty. *)
Fixpoint prob_nonempty (p : prob_table (F:=F)) : bool :=
  match p with
  | PRow xs => negb (length xs =? 0)%nat
  | PNest ps => negb (length ps =? 0)%nat && forallb prob_nonempty ps
  end.

(** The text of a table: the floats of a row separated by spaces, the
    sub-tables separated by newlines. *)
Fixpoint prob_text (p : prob_table (F:=F)) : string :=
  match p with
  | PRow xs => join " " (str_float <$> xs)
  | PNest ps => join nl (prob_text <$> ps)
  end.

End prob_views.

(** A DeterministicCPT whose cardinalities are all strs. *)
Definition deterministic_renders (o : DeterministicCPT) : bool :=
  forallb is_str (det_parent_card o ++ [det_cardinality o]).

(** A DenseCPT whose probability table has no empty list. *)
Definition dense_renders `{FloatOps F} (o : DenseCPT (F:=F)) : bool :=
  prob_nonempty (dense_prob o).

(** ** The builders *)

(** Folding the values of a list of outcomes in order, up to the first
    exception. *)
Fixpoint fold_until {S A} (step : S -> A -> S) (items : list (result A))
    (s : S) : result unit * S :=
  match items with
  | [] => (Ok tt, s)
  | Ok a :: items' => fold_until step items' (step s a)
  | Raise e :: _ => (Raise e, s)
  end.

(** The (seg, subseg, track) triples in the order of the general
    pattern. *)
Definition seg_subseg_tracks {A} (tracks : list A)
    (num_segs num_subsegs : Z) : list (Z * Z * A) :=
  i ← range num_segs; j ← range num_subsegs; track ← tracks;
  [(i, j, track)].

(** The component [generate_mc_objects] builds for one triple when the
    distribution is gamma. *)
Definition gamma_component `{FloatOps F} {V : Type} (p : Z * Z * string)
    : pyobj (F:=F) (V:=V) :=
  let name := fun (prefix : string) =>
    prefix +:+ "_seg" +:+ pretty p.1.1 +:+ "_subseg" +:+ pretty p.1.2
      +:+ "_" +:+ p.2 in
  ObjMC {| mc_name := name "mc_gamma"; mc_dim := AInt 1;
           mc_type := AStr "COMPONENT_TYPE_GAMMA";
           mc_mean := {| mean_name := "sample_mean"; mean_values := [] |};
           mc_covar := inl {| mean_name := "sample_covar";
                              mean_values := [] |};
           mc_weights := [];
           mc_gamma_shape := name "gammashape";
           mc_gamma_scale := name "gammascale" |}.

(** The mixture the builders leave for one (seg, subseg, (track, var))
    and one mean value, under a norm-like distribution without MFSDG. *)
Definition wired_mixture `{FloatOps F} {V : Type} (distribution : string)
    (p : Z * Z * (string * V)) (value : V) : MX (F:=F) (V:=V) :=
  let suffix :=
    "_seg" +:+ pretty p.1.1 +:+ "_subseg" +:+ pretty p.1.2 +:+ "_"
      +:+ p.2.1 in
  {| mx_name := "mx" +:+ suffix; mx_dim := AInt 1;
     mx_comp :=
       [{| mc_name := "mc_" +:+ distribution +:+ suffix; mc_dim := AInt 1;
           mc_type := AStr "COMPONENT_TYPE_DIAG_GAUSSIAN";
           mc_mean := {| mean_name := "mean" +:+ suffix;
                         mean_values := [value] |};
           mc_covar := inr {| covar_name := "covar_" +:+ p.2.1;
                              covar_values := [p.2.2] |};
           mc_weights := []; mc_gamma_shape := ""; mc_gamma_scale := "" |}];
     mx_dpmf := {| dpmf_name := "dpmf_always"; dpmf_values := [of_int 1] |} |}.

(** ** A small parameter specification *)

(** Two tracks, two segments of one subsegment each, one mixture
    component, with a variance per track and a mean per name. *)
Definition two_track_spec : ParamSpec (V:=Z) :=
  {| spec_distribution := "norm"; spec_num_segs := 2; spec_num_subsegs := 1;
     spec_num_mix_components := 1; spec_track_names := ["a"; "b"];
     spec_num_track_groups := 2; spec_track_groups := [["a"]; ["b"]];
     spec_vars := [5; 6]%Z; spec_mean_data := [1; 2; 3; 4]%Z |}.

(** The same with two mixture components. *)
Definition two_component_spec : ParamSpec (V:=Z) :=
  {| spec_distribution := "norm"; spec_num_segs := 2; spec_num_subsegs := 1;
     spec_num_mix_components := 2; spec_track_names := ["a"; "b"];
     spec_num_track_groups := 2; spec_track_groups := [["a"]; ["b"]];
     spec_vars := [5; 6]%Z; spec_mean_data := [1; 2; 3; 4]%Z |}.

(** The same with a distribution that is neither norm-like nor gamma. *)
Definition other_distribution_spec : ParamSpec (V:=Z) :=
  {| spec_distribution := "poisson"; spec_num_segs := 2;
     spec_num_subsegs := 1; spec_num_mix_components := 1;
     spec_track_names := ["a"; "b"];
     spec_num_track_groups := 2; spec_track_groups := [["a"]; ["b"]];
     spec_vars := [5; 6]%Z; spec_mean_data := [1; 2; 3; 4]%Z |}.

(** A printer of floats for the concrete runs. *)
Definition str_float_whole : float -> string := fun _ => "1.0".
Definition str_round_half : float -> Z -> string := fun _ _ => "0.5".

(** ** A small saver *)

(** Two segments of one subsegment each, one track in one track group, a
    norm-like distribution with one mixture component, and a mean row per
    segment. *)
Definition two_seg_saver : InputMasterSaver (V:=Z) :=
  {| saver_num_segs := 2; saver_num_subsegs := 1;
     saver_num_track_groups := 1; saver_distribution := "norm";
     gmtk_include_filename_relative := "";
     saver_num_mix_components := 1;
     saver_tracks := ["a"]; saver_track_groups := [["a"]];
     saver_vars := [5%Z]; saver_mean_data := [1; 2]%Z |}.

(** The same saver with the gamma distribution. *)
Definition two_seg_gamma_saver : InputMasterSaver (V:=Z) :=
  {| saver_num_segs := 2; saver_num_subsegs := 1;
     saver_num_track_groups := 1; saver_distribution := "gamma";
     gmtk_include_filename_relative := "";
     saver_num_mix_components := 1;
     saver_tracks := ["a"]; saver_track_groups := [["a"]];
     saver_vars := [5%Z]; saver_mean_data := [1; 2]%Z |}.

(** One segment of one subsegment, one track. *)
Definition one_seg_saver : InputMasterSaver (V:=Z) :=
  {| saver_num_segs := 1; saver_num_subsegs := 1;
     saver_num_track_groups := 1; saver_distribution := "norm";
     gmtk_include_filename_relative := "";
     saver_num_mix_components := 1;
     saver_tracks := ["a"]; saver_track_groups := [["a"]];
     saver_vars := [5%Z]; saver_mean_data := [1%Z] |}.

(** * Theorems *)

(** ** Loops that only append *)

Lemma foldl_extend {A B} (body : list B -> A -> list B) (h : A -> list B) :
  (forall acc x, body acc x = acc ++ h x) ->
  forall xs acc, foldl body acc xs = acc ++ (xs ≫= h).
Proof.
  intros Hbody xs. induction xs as [|x xs IH]; intros acc; simpl.
  - by rewrite app_nil_r.
  - rewrite IH, Hbody. by rewrite <- app_assoc.
Qed.

Lemma foldl_append_map {A B} (f : A -> B) xs acc :
  foldl (fun acc x => append acc (f x)) acc xs = acc ++ (f <$> xs).
Proof.
  rewrite (foldl_extend _ (fun x => [f x])) by done.
  reflexivity.
Qed.

Lemma foldl_append_id {A} (xs : list A) :
  foldl (fun acc x => append acc x) [] xs = xs.
Proof.
  rewrite (foldl_append_map (fun x => x)). simpl. apply list_fmap_id.
Qed.

(** ** The name generator *)

Example names_covar :
  generate_gmtk_obj_names "covar" ["gc"; "len"] 2 3 "norm" 1
  = Ok ["covar_gc"; "covar_len"].
Proof. vm_compute. reflexivity. Qed.

Example names_dpmf_always :
  generate_gmtk_obj_names "dpmf" ["t"] 1 1 "norm" 1 = Ok ["dpmf_always"].
Proof. vm_compute. reflexivity. Qed.

Example names_mc_missing :
  generate_gmtk_obj_names "mc_missing" ["a"; "b"] 2 1 "norm" 1
  = Ok [""; ""; ""; ""].
Proof. vm_compute. reflexivity. Qed.

(** The general branch, in closed form. *)
Lemma general_branch_names (line : Z -> Z -> string -> string)
    track_names num_segs num_subsegs :
  foldl (fun names i =>
     foldl (fun names j =>
       foldl (fun names name => append names (line i j name))
         names track_names)
       names (range num_subsegs))
     [] (range num_segs)
  = (i ← range num_segs; j ← range num_subsegs; name ← track_names;
     [line i j name]).
Proof.
  rewrite (foldl_extend _
    (fun i => j ← range num_subsegs; name ← track_names; [line i j name])).
  { done. }
  intros acc i.
  rewrite (foldl_extend _ (fun j => name ← track_names; [line i j name])).
  { done. }
  intros acc' j.
  by rewrite (foldl_extend _ (fun name => [line i j name])).
Qed.

Lemma mx_name_branch_names track_names num_segs num_subsegs :
  foldl (fun names name =>
     foldl (fun names i =>
       foldl (fun names j =>
         let line := "mx_seg" +:+ pretty i +:+ "_subseg" +:+ pretty j
                       +:+ "_" +:+ name in
         append names line)
       names (range num_subsegs))
     names (range num_segs))
    [] track_names
  = (name ← track_names; i ← range num_segs; j ← range num_subsegs;
     ["mx_seg" +:+ pretty i +:+ "_subseg" +:+ pretty j +:+ "_" +:+ name]).
Proof.
  rewrite (foldl_extend _ (fun name =>
    i ← range num_segs; j ← range num_subsegs;
    ["mx_seg" +:+ pretty i +:+ "_subseg" +:+ pretty j +:+ "_" +:+ name])).
  { done. }
  intros acc name.
  rewrite (foldl_extend _ (fun i => j ← range num_subsegs;
    ["mx_seg" +:+ pretty i +:+ "_subseg" +:+ pretty j +:+ "_" +:+ name])).
  { done. }
  intros acc' i.
  by rewrite (foldl_extend _ (fun j =>
    ["mx_seg" +:+ pretty i +:+ "_subseg" +:+ pretty j +:+ "_" +:+ name])).
Qed.

Lemma allowed_types_closed kind :
  kind ∈ allowed_types ->
  kind = "mx" \/ kind = "mc_diag" \/ kind = "mc_gamma" \/ kind = "mc_missing"
  \/ kind = "mean" \/ kind = "covar" \/ kind = "col" \/ kind = "mx_name"
  \/ kind = "dpmf" \/ kind = "gammascale" \/ kind = "gammashape"
  \/ kind = "tied_covar".
Proof.
  unfold allowed_types. rewrite !elem_of_cons, elem_of_nil. tauto.
Qed.

(** C2 (as amended).  For every track list, counts, distribution and
    mixture-component count, each kind other than [mc_missing] gets exactly
    the names of its pattern, in the stated iteration order: [covar] and
    [tied_covar] one [covar_<track>] per track, [col] one
    [collection_seg_<track>] per track, [mx_name] the names
    [mx_seg<i>_subseg<j>_<track>] with track outermost, [dpmf] with one
    mixture component the single name [dpmf_always], [mc_diag] the names
    [mc_<distribution>_seg<i>_subseg<j>_<track>], and the remaining allowed
    kinds [<kind>_seg<i>_subseg<j>_<track>], seg outermost. *)
Theorem names_follow_pattern (track_names : list string)
    (num_segs num_subsegs : Z) (distribution : string)
    (num_mix_components : Z) :
  Forall (fun kind =>
            generate_gmtk_obj_names kind track_names num_segs num_subsegs
                                    distribution num_mix_components
            = Ok (names_by_pattern kind track_names num_segs num_subsegs
                                   distribution num_mix_components))
         ["covar"; "tied_covar"; "col"; "mx_name"; "dpmf"; "mc_diag";
          "mx"; "mean"; "mc_gamma"; "gammascale"; "gammashape"].
Proof.
  repeat apply Forall_cons_2; try apply Forall_nil_2.
  - eval_kind. by rewrite foldl_append_map.
  - eval_kind. by rewrite foldl_append_map.
  - eval_kind. by rewrite foldl_append_map.
  - eval_kind. by rewrite mx_name_branch_names.
  - eval_kind. destruct (num_mix_components =? 1)%Z; [done|].
    by rewrite general_branch_names.
  - eval_kind. by rewrite general_branch_names.
  - eval_kind. by rewrite general_branch_names.
  - eval_kind. by rewrite general_branch_names.
  - eval_kind. by rewrite general_branch_names.
  - eval_kind. by rewrite general_branch_names.
  - eval_kind. by rewrite general_branch_names.
Qed.

(** C2, counterexample.  For the allowed kind [mc_missing] the generator
    returns empty strings, not the names of the pattern
    [<kind>_seg<i>_subseg<j>_<track>] claimed for "every other kind". *)
Lemma names_mc_missing_off_pattern :
  generate_gmtk_obj_names "mc_missing" ["t"] 1 1 "norm" 1 = Ok [""]
  /\ names_by_pattern "mc_missing" ["t"] 1 1 "norm" 1
     = ["mc_missing_seg0_subseg0_t"]
  /\ generate_gmtk_obj_names "mc_missing" ["t"] 1 1 "norm" 1
     <> Ok (names_by_pattern "mc_missing" ["t"] 1 1 "norm" 1).
Proof.
  split; [|split].
  - vm_compute. reflexivity.
  - vm_compute. reflexivity.
  - vm_compute. intros Heq. discriminate Heq.
Qed.




(** ** Constructors that validate *)

Set Warnings "-inexact-float".

(** C5.  Constructing a DPMF returns the object holding the supplied values
    exactly when they sum ([sum(values) == 1.0]) to 1.0, and raises
    ValueError otherwise; in binary64, [0.5, 0.5] is accepted and
    [0.4, 0.5] is refused. *)
Theorem DPMF_init_checks_sum :
  (forall (F : Type) (ops : FloatOps F) (name : string) (values : list F),
      (DPMF_init name values
       = Ok {| dpmf_name := name; dpmf_values := values |}
       <-> feqb (py_sum values) (of_int 1) = true)
      /\ (DPMF_init name values
          = Raise (ValueError "DPMF values must sum to 1.0.")
          <-> feqb (py_sum values) (of_int 1) <> true))
  /\ (forall name,
        DPMF_init name [0.5; 0.5]%float
        = Ok {| dpmf_name := name; dpmf_values := [0.5; 0.5]%float |})
  /\ (forall name,
        DPMF_init name [0.4; 0.5]%float
        = Raise (ValueError "DPMF values must sum to 1.0.")).
Proof.
  split; [|split].
  - intros F ops name values. unfold DPMF_init.
    rewrite foldl_append_id.
    destruct (feqb (py_sum values) (of_int 1)) eqn:Hsum; cbn [negb].
    + split; split; intros Hyp; congruence.
    + split; split; intros Hyp; congruence.
  - intros name. vm_compute. reflexivity.
  - intros name. vm_compute. reflexivity.
Qed.

(** C6.  Constructing an MX raises ValueError exactly when the DPMF's
    number of values differs from the number of components (a single
    component counting as a list of one), and returns the mixture
    otherwise; a DPMF of two values with one component is refused. *)
Theorem MX_init_checks_count :
  (forall (F V : Type) (ops : FloatOps F) (name : string) (dim : atom)
          (dpmf : DPMF (F:=F))
          (components : MC (F:=F) (V:=V) + list (MC (F:=F) (V:=V))),
      ((exists msg, MX_init name dim dpmf components = Raise (ValueError msg))
       <-> length (dpmf_values dpmf) <> length (component_list components))
      /\ (MX_init name dim dpmf components
          = Ok {| mx_name := name; mx_dim := dim;
                  mx_comp := component_list components; mx_dpmf := dpmf |}
          <-> length (dpmf_values dpmf) = length (component_list components)))
  /\ (forall (F V : Type) (ops : FloatOps F) (name dpmf_name : string)
             (dim : atom) (x y : F) (c : MC (F:=F) (V:=V)),
        exists msg,
          MX_init name dim {| dpmf_name := dpmf_name; dpmf_values := [x; y] |}
                  (inr [c])
          = Raise (ValueError msg)).
Proof.
  split.
  - intros F V ops name dim dpmf components. unfold MX_init.
    fold (component_list components).
    destruct (Nat.eqb_spec (length (dpmf_values dpmf))
                           (length (component_list components)))
      as [Heq|Hne]; cbn [negb].
    + split; split; intros Hyp; try congruence.
      destruct Hyp as [msg Hmsg]. discriminate Hmsg.
    + split; split; intros Hyp; try congruence. eauto.
  - intros F V ops name dname dim x y c. unfold MX_init. simpl. eauto.
Qed.

(** ** The registry *)

Section ordered_dict.
Context {O : Type}.
Implicit Types (d : OrderedDict O) (key : string) (v : O).

Lemma od_keys_setitem_in key v d :
  key ∈ od_keys d -> od_keys (od_setitem key v d) = od_keys d.
Proof.
  unfold od_keys. induction d as [|[k x] d IH]; simpl.
  - intros Hin. by apply elem_of_nil in Hin.
  - intros Hin. destruct (String.eqb_spec k key) as [->|Hne]; [done|].
    simpl. f_equal. apply IH.
    apply elem_of_cons in Hin as [Heq|Hin]; [congruence | done].
Qed.

Lemma od_setitem_notin key v d :
  key ∉ od_keys d -> od_setitem key v d = d ++ [(key, v)].
Proof.
  unfold od_keys. induction d as [|[k x] d IH]; simpl; [done|].
  intros Hout. apply not_elem_of_cons in Hout as [Hne Hout].
  destruct (String.eqb_spec k key) as [->|_]; [done|].
  by rewrite IH.
Qed.

Lemma od_setitem_lookup key v d i n x :
  NoDup (od_keys d) ->
  d !! i = Some (n, x) ->
  od_setitem key v d !! i = Some (n, if decide (n = key) then v else x).
Proof.
  unfold od_keys. revert i.
  induction d as [|[k y] d IH]; intros i Hnd Hi; [done|].
  simpl in Hnd. apply NoDup_cons in Hnd as [Hk Hnd]. simpl.
  destruct (String.eqb_spec k key) as [->|Hne].
  - destruct i as [|i]; simpl in *.
    + injection Hi as -> ->. by rewrite decide_True.
    + rewrite Hi. rewrite decide_False; [done|].
      intros ->. apply Hk. apply list_elem_of_fmap.
      exists (key, x). split; [done|]. by eapply list_elem_of_lookup_2.
  - destruct i as [|i]; simpl in *.
    + injection Hi as -> ->. by rewrite decide_False.
    + by apply IH.
Qed.

Lemma od_keys_setitem_nodup key v d :
  NoDup (od_keys d) -> NoDup (od_keys (od_setitem key v d)).
Proof.
  intros Hnd. destruct (decide (key ∈ od_keys d)) as [Hin|Hout].
  - by rewrite od_keys_setitem_in.
  - rewrite od_setitem_notin by done. unfold od_keys in *.
    rewrite fmap_app. simpl. apply NoDup_app. split; [done|].
    split; [|apply NoDup_singleton].
    intros k Hk Hk'. apply list_elem_of_singleton in Hk'. by subst.
Qed.

Lemma od_setitem_fmap {P} (f : O -> P) key v d :
  prod_map id f <$> od_setitem key v d
  = od_setitem key (f v) (prod_map id f <$> d).
Proof.
  induction d as [|[k x] d IH]; simpl; [done|].
  destruct (String.eqb k key); simpl; [done|]. f_equal. apply IH.
Qed.

(** Under distinct keys, [d[list(d)[i]]] is the value at position [i]. *)
Lemma od_getitem_at d i n x :
  NoDup (od_keys d) -> d !! i = Some (n, x) -> od_getitem n d = Ok x.
Proof.
  unfold od_keys. revert i.
  induction d as [|[k y] d IH]; intros i Hnd Hi; [done|].
  simpl in Hnd. apply NoDup_cons in Hnd as [Hk Hnd]. simpl.
  destruct i as [|i]; simpl in Hi.
  - injection Hi as -> ->. by rewrite String.eqb_refl.
  - destruct (String.eqb_spec k n) as [->|Hne]; [|by eapply IH].
    exfalso. apply Hk. apply list_elem_of_fmap.
    exists (n, x). split; [done|]. by eapply list_elem_of_lookup_2.
Qed.

End ordered_dict.

Section registry_update.
Context {F : Type} `{FloatOps F} {V : Type}.

Abbreviation pyobj' := (pyobj (F:=F) (V:=V)).
Abbreviation InputMaster' := (InputMaster (F:=F) (V:=V)).

Implicit Types (obj : pyobj') (im : InputMaster') (k : kind).

Lemma isinstance_any obj :
  isinstance_Mean obj || isinstance_Covar obj
  || isinstance_DeterministicCPT obj || isinstance_DenseCPT obj
  || isinstance_DPMF obj || isinstance_MC obj || isinstance_MX obj
  || isinstance_NameCollection obj = is_wire_object obj.
Proof. by destruct obj. Qed.

(** The first loop of [update] returns when every object is a wire object
    and raises at the first one that is not. *)
Lemma update_validation (objs : list pyobj') :
  for_each (fun (_ : unit) obj =>
      if negb (isinstance_Mean obj || isinstance_Covar obj ||
               isinstance_DeterministicCPT obj || isinstance_DenseCPT obj
               || isinstance_DPMF obj || isinstance_MC obj
               || isinstance_MX obj || isinstance_NameCollection obj)
      then Raise (ValueError "Object is not an allowed GMTK type.")
      else Ok tt) objs tt
  = if forallb is_wire_object objs then Ok tt
    else Raise (ValueError "Object is not an allowed GMTK type.").
Proof.
  induction objs as [|obj objs IH]; [done|].
  cbn [for_each forallb]. rewrite isinstance_any.
  destruct (is_wire_object obj); [|done]. exact IH.
Qed.

Lemma update_list im (objs : list pyobj') :
  InputMaster_update (inr objs) im
  = if forallb is_wire_object objs then (Ok tt, foldl register im objs)
    else (Raise (ValueError "Object is not an allowed GMTK type."), im).
Proof.
  unfold InputMaster_update. rewrite update_validation.
  by destruct (forallb is_wire_object objs).
Qed.

(** What the eight [if]s of the second loop amount to: the object is stored
    in the mapping of its class, and nowhere else. *)
Lemma register_cases im obj :
  register im obj
  = match obj with
    | ObjMean o =>
        {| mean := od_setitem (mean_name o) o (mean im);
           covar := covar im; dense := dense im;
           deterministic := deterministic im; dpmf := dpmf im;
           mc := mc im; mx := mx im; name_collection := name_collection im |}
    | ObjCovar o =>
        {| mean := mean im;
           covar := od_setitem (covar_name o) o (covar im);
           dense := dense im;
           deterministic := deterministic im; dpmf := dpmf im;
           mc := mc im; mx := mx im; name_collection := name_collection im |}
    | ObjDeterministicCPT o =>
        {| mean := mean im; covar := covar im; dense := dense im;
           deterministic := od_setitem (det_name o) o (deterministic im);
           dpmf := dpmf im;
           mc := mc im; mx := mx im; name_collection := name_collection im |}
    | ObjDenseCPT o =>
        {| mean := mean im; covar := covar im;
           dense := od_setitem (dense_name o) o (dense im);
           deterministic := deterministic im; dpmf := dpmf im;
           mc := mc im; mx := mx im; name_collection := name_collection im |}
    | ObjDPMF o =>
        {| mean := mean im; covar := covar im; dense := dense im;
           deterministic := deterministic im;
           dpmf := od_setitem (dpmf_name o) o (dpmf im);
           mc := mc im; mx := mx im; name_collection := name_collection im |}
    | ObjMC o =>
        {| mean := mean im; covar := covar im; dense := dense im;
           deterministic := deterministic im; dpmf := dpmf im;
           mc := od_setitem (mc_name o) o (mc im);
           mx := mx im; name_collection := name_collection im |}
    | ObjMX o =>
        {| mean := mean im; covar := covar im; dense := dense im;
           deterministic := deterministic im; dpmf := dpmf im;
           mc := mc im;
           mx := od_setitem (mx_name o) o (mx im);
           name_collection := name_collection im |}
    | ObjNameCollection o =>
        {| mean := mean im; covar := covar im; dense := dense im;
           deterministic := deterministic im; dpmf := dpmf im;
           mc := mc im; mx := mx im;
           name_collection := od_setitem (col_name o) o (name_collection im) |}
    | ObjOther _ => im
    end.
Proof. destruct obj; lazy [register]; reflexivity. Qed.

Lemma register_entries im obj k :
  kind_of obj = Some k ->
  entries k (register im obj) = od_setitem (obj_name obj) obj (entries k im).
Proof.
  intros Hk. rewrite register_cases.
  destruct obj; cbn [kind_of] in Hk; simplify_eq;
    cbn [entries obj_name mean covar dense deterministic dpmf mc mx
         name_collection];
    apply od_setitem_fmap.
Qed.

Lemma register_entries_other im obj k k' :
  kind_of obj = Some k -> k' <> k ->
  entries k' (register im obj) = entries k' im.
Proof.
  intros Hk Hne. rewrite register_cases.
  destruct obj; cbn [kind_of] in Hk; simplify_eq; by destruct k'.
Qed.

Lemma register_other im repr : register im (ObjOther repr) = im.
Proof. by rewrite register_cases. Qed.

Lemma register_wf im obj : registry_wf im -> registry_wf (register im obj).
Proof.
  intros Hwf k'. destruct (kind_of obj) as [k|] eqn:Hk.
  - destruct (decide (k' = k)) as [->|Hne].
    + rewrite (register_entries _ _ _ Hk). apply od_keys_setitem_nodup, Hwf.
    + rewrite (register_entries_other _ _ _ _ Hk Hne). apply Hwf.
  - destruct obj; try discriminate Hk. rewrite register_other. apply Hwf.
Qed.

Lemma InputMaster_init_wf : registry_wf (InputMaster_init (F:=F) (V:=V)).
Proof. intros k. destruct k; apply NoDup_nil_2. Qed.

(** X2.  [update] keeps the invariant that each kind's mapping holds a
    name once, whether it returns or raises; so every registry reached from
    [InputMaster()] by [update] calls has it. *)
Lemma update_wf im (gmtk_obj : pyobj' + list pyobj') :
  registry_wf im -> registry_wf (InputMaster_update gmtk_obj im).2.
Proof.
  intros Hwf.
  assert (forall objs, registry_wf (InputMaster_update (inr objs) im).2)
    as Hlist.
  { intros objs. rewrite update_list.
    destruct (forallb is_wire_object objs); [|done]. cbn [snd].
    revert im Hwf. induction objs as [|obj objs IH]; intros im Hwf; [done|].
    cbn [foldl]. apply IH. by apply register_wf. }
  destruct gmtk_obj as [obj|objs]; [|apply Hlist].
  apply (Hlist [obj]).
Qed.

(** C10.  [update] takes a single object or a list of objects, the single
    object standing for the list of one.  Every element is type-checked
    before any is registered: if some element is not of one of the eight
    wire-object classes the call raises ValueError and leaves the registry
    as it was; if all are, the call returns after registering them in
    order. *)
Theorem update_all_or_nothing im (objs : list pyobj') :
  (Exists (fun obj => is_wire_object obj = false) objs ->
   InputMaster_update (inr objs) im
   = (Raise (ValueError "Object is not an allowed GMTK type."), im))
  /\ (Forall (fun obj => is_wire_object obj = true) objs ->
      InputMaster_update (inr objs) im = (Ok tt, foldl register im objs))
  /\ (forall obj,
        InputMaster_update (inl obj) im = InputMaster_update (inr [obj]) im).
Proof.
  split; [|split].
  - intros Hbad. rewrite update_list.
    destruct (forallb is_wire_object objs) eqn:Hall; [|done].
    rewrite forallb_forall in Hall.
    apply Exists_exists in Hbad as (obj & Hin & Hobj).
    apply list_elem_of_In in Hin. specialize (Hall obj Hin). congruence.
  - intros Hgood. rewrite update_list.
    destruct (forallb is_wire_object objs) eqn:Hall; [done|].
    assert (forallb is_wire_object objs = true) as Hyes.
    { apply forallb_forall. intros obj Hin. apply list_elem_of_In in Hin.
      rewrite Forall_forall in Hgood. by apply Hgood. }
    congruence.
  - done.
Qed.

(** C8.  In a registry whose mappings hold each name once, registering a
    wire object of kind [k] returns normally and touches only the mapping
    of [k].  When the object's name is already a key there, the keys and
    their order stay as they were and the entry at that name's position
    now holds the new object, every other position keeping its name and
    value; when the name is new, the entry is added at the end. *)
Theorem update_keeps_position im obj k :
  registry_wf im ->
  kind_of obj = Some k ->
  exists im',
    InputMaster_update (inl obj) im = (Ok tt, im')
    /\ registry_wf im'
    /\ (forall k', k' <> k -> entries k' im' = entries k' im)
    /\ (obj_name obj ∈ od_keys (entries k im) ->
        od_keys (entries k im') = od_keys (entries k im)
        /\ forall i n x,
             entries k im !! i = Some (n, x) ->
             entries k im' !! i
             = Some (n, if decide (n = obj_name obj) then obj else x))
    /\ (obj_name obj ∉ od_keys (entries k im) ->
        entries k im' = entries k im ++ [(obj_name obj, obj)]).
Proof.
  intros Hwf Hk. exists (register im obj).
  assert (is_wire_object obj = true) as Hobj.
  { unfold is_wire_object. by rewrite Hk. }
  split; [|split; [|split; [|split]]].
  - change (InputMaster_update (inl obj) im)
      with (InputMaster_update (inr [obj]) im).
    rewrite update_list. cbn [forallb]. by rewrite Hobj.
  - by apply register_wf.
  - intros k' Hne. by eapply register_entries_other.
  - intros Hin. rewrite (register_entries _ _ _ Hk). split.
    + by apply od_keys_setitem_in.
    + intros i n x Hi. apply od_setitem_lookup; [apply Hwf | done].
  - intros Hout. rewrite (register_entries _ _ _ Hk).
    by apply od_setitem_notin.
Qed.

End registry_update.

(** ** Rendering the document *)

Lemma join_empty_cons s parts : join "" (s :: parts) = s +:+ join "" parts.
Proof.
  unfold join. destruct parts as [|t parts]; simpl; [|done].
  induction s as [|c s IH]; [done|].
  change (String c s +:+ "") with (String c (s +:+ "")). f_equal. exact IH.
Qed.

(** Joining the characters of a string on the empty string gives it back. *)
Lemma join_chars s : join "" (chars s) = s.
Proof.
  induction s as [|c s IH]; [done|].
  cbn [chars]. rewrite join_empty_cons, IH. done.
Qed.

Lemma join_block_iter b : join "" (block_iter b) = block_text b.
Proof. destruct b; [done|]. apply join_chars. Qed.

(** The loop of [__str__] followed by its final join. *)
Lemma str_loop (attrs_gen : list block) :
  join "" (foldl (fun s obj => append s (join "" (block_iter obj)))
                 [] attrs_gen)
  = concat_blocks attrs_gen.
Proof.
  rewrite foldl_append_map. cbn [app].
  induction attrs_gen as [|b bs IH]; [done|].
  cbn [fmap list_fmap concat_blocks foldr].
  rewrite join_empty_cons, join_block_iter. f_equal. exact IH.
Qed.

Lemma generate_kind_empty {O} header (generate : O -> nat -> result string) :
  generate_kind header [] generate = Ok BlockEmptyList.
Proof. done. Qed.

Section rendering_index_facts.
Context {O : Type} (header : string) (generate : O -> nat -> result string).

(** The loop of a [generate_*] method: under distinct keys, looking the
    [key_index]-th key up gives the [key_index]-th entry. *)
Lemma generate_kind_loop (d : list (string * O)) :
  NoDup (od_keys d) ->
  forall (suffix done_ : list (string * O)) (lines : list string),
  d = done_ ++ suffix ->
  for_each (fun lines key_index =>
      key ← list_getitem (od_keys d) key_index;
      obj ← od_getitem key d;
      text ← generate obj key_index;
      Ok (append lines text))
    (seq (length done_) (length suffix)) lines
  = (texts ← render_from generate (length done_) suffix; Ok (lines ++ texts)).
Proof.
  intros Hnd suffix.
  induction suffix as [|[n x] suffix IH]; intros done_ lines Hd.
  - simpl. by rewrite app_nil_r.
  - assert (d !! length done_ = Some (n, x)) as Hlookup.
    { rewrite Hd. by apply list_lookup_middle. }
    assert (list_getitem (od_keys d) (length done_) = Ok n) as Hkey.
    { unfold list_getitem, od_keys. by rewrite list_lookup_fmap, Hlookup. }
    cbn [length seq for_each render_from]. rewrite Hkey.
    cbn [mbind result_bind].
    rewrite (od_getitem_at d (length done_) n x Hnd Hlookup).
    cbn [mbind result_bind].
    destruct (generate x (length done_)) as [text|e]; [|done].
    cbn [mbind result_bind].
    specialize (IH (done_ ++ [(n, x)]) (append lines text)).
    rewrite length_app in IH. cbn [length] in IH.
    rewrite Nat.add_1_r in IH. rewrite IH.
    + destruct (render_from generate (S (length done_)) suffix)
        as [texts|e]; [|done].
      cbn [mbind result_bind]. unfold append. by rewrite <- app_assoc.
    + by rewrite <- app_assoc.
Qed.

(** X1.  A non-empty mapping with distinct keys renders as its header
    line, its count, and its entries in insertion order, the entry at
    position [i] with index [i]: the rendering index of an object is its
    position among the keys. *)
Lemma generate_kind_indexed (d : list (string * O)) :
  NoDup (od_keys d) -> d <> [] ->
  generate_kind header d generate
  = (texts ← render_from generate 0 d;
     Ok (BlockStr (join nl ([header; pretty (length d) +:+ nl] ++ texts)))).
Proof.
  intros Hnd Hne. unfold generate_kind.
  destruct d as [|kv d']; [done|].
  cbn [length Nat.eqb]. unfold od_keys at 2. rewrite length_fmap.
  rewrite (generate_kind_loop _ Hnd (kv :: d') [] _ eq_refl).
  change (length (@nil (string * O))) with 0.
  by destruct (render_from generate 0 (kv :: d')).
Qed.

End rendering_index_facts.

Section rendering.
Context {F : Type} `{FloatOps F} (str_float : F -> string).
Context {V : Type} (str_value : V -> string).

Abbreviation InputMaster'' := (InputMaster (F:=F) (V:=V)).

Lemma generate_of_empty im k :
  entries k im = [] -> generate_of str_float str_value im k = Ok BlockEmptyList.
Proof.
  intros Hempty.
  destruct k; simpl in Hempty; apply fmap_nil_inv in Hempty; simpl;
    unfold generate_name_col, generate_deterministic, generate_dense,
      generate_mean, generate_covar, generate_dpmf, generate_mc, generate_mx;
    rewrite Hempty; apply generate_kind_empty.
Qed.

Lemma str_is_document im :
  InputMaster_str str_float str_value im
  = document str_float str_value im render_order.
Proof.
  unfold InputMaster_str, document, render_order.
  cbn [mapM generate_of].
  destruct (generate_name_col im) as [a1|e]; [|done].
  destruct (generate_deterministic im) as [a2|e]; [|done].
  destruct (generate_dense str_float im) as [a3|e]; [|done].
  destruct (generate_mean str_value im) as [a4|e]; [|done].
  destruct (generate_covar str_value im) as [a5|e]; [|done].
  destruct (generate_dpmf str_float im) as [a6|e]; [|done].
  destruct (generate_mc im) as [a7|e]; [|done].
  destruct (generate_mx im) as [a8|e]; [|done].
  cbn [mbind result_bind mret result_ret]. f_equal. apply str_loop.
Qed.

(** Leaving an empty kind out of the list of kinds changes nothing. *)
Lemma document_skip_empty im k ks :
  entries k im = [] ->
  document str_float str_value im ks
  = document str_float str_value im (filter (fun k' => k' <> k) ks).
Proof.
  intros Hempty. unfold document.
  induction ks as [|k' ks IH]; [done|].
  rewrite filter_cons. destruct (decide (k' <> k)) as [Hne|Heq].
  - cbn [mapM].
    destruct (generate_of str_float str_value im k') as [b|e]; [|done].
    cbn [mbind result_bind] in *.
    destruct (mapM (generate_of str_float str_value im) ks) as [bs|e];
      destruct (mapM (generate_of str_float str_value im)
                  (filter (fun k' => k' <> k) ks))
        as [bs'|e']; simplify_eq/=; try done.
    by rewrite IH.
  - apply dec_stable in Heq. subst k'. rewrite <- IH.
    cbn [mapM]. rewrite (generate_of_empty _ _ Hempty).
    cbn [mbind result_bind].
    by destruct (mapM (generate_of str_float str_value im) ks) as [bs|e].
Qed.

(** C3.  The document [__str__] returns is the concatenation of the
    per-kind blocks in the order name collections, deterministic CPTs,
    dense CPTs, means, covariances, DPMFs, mixture components, mixtures;
    and a kind whose mapping holds no object yields the empty list and adds
    nothing: the document is that of the other kinds alone. *)
Theorem str_renders_in_order (im : InputMaster'') :
  InputMaster_str str_float str_value im
  = document str_float str_value im
      [KNameCollection; KDeterministicCPT; KDenseCPT; KMean; KCovar; KDPMF;
       KMC; KMX]
  /\ forall k,
       entries k im = [] ->
       generate_of str_float str_value im k = Ok BlockEmptyList
       /\ InputMaster_str str_float str_value im
          = document str_float str_value im
              (filter (fun k' => k' <> k)
                 [KNameCollection; KDeterministicCPT; KDenseCPT; KMean;
                  KCovar; KDPMF; KMC; KMX]).
Proof.
  split; [apply str_is_document|].
  intros k Hempty. split; [by apply generate_of_empty|].
  rewrite str_is_document. by apply document_skip_empty.
Qed.

End rendering.

(** ** Indexed assignment *)

Section arrays.
Context {A : Type}.
Implicit Types (a : list (list A)) (v : A).

Lemma rect_replicate n m v : rect n m (replicate n (replicate m v)).
Proof.
  split; [apply length_replicate|].
  apply Forall_replicate, length_replicate.
Qed.


Lemma cell_Some_lt n m a i j x :
  rect n m a -> cell a i j = Some x -> i < n /\ j < m.
Proof.
  intros [Hlen Hrows] Hcell. unfold cell in Hcell.
  destruct (a !! i) as [row|] eqn:Hrow; [|done]. simpl in Hcell.
  split.
  - rewrite <- Hlen. by eapply lookup_lt_Some.
  - rewrite Forall_lookup in Hrows. rewrite <- (Hrows _ _ Hrow).
    by eapply lookup_lt_Some.
Qed.

Lemma setitem2_spec n m a i j v :
  rect n m a -> i < n -> j < m ->
  exists a',
    setitem2 a i j v = Ok a'
    /\ rect n m a'
    /\ forall i' j',
         cell a' i' j'
         = if decide ((i', j') = (i, j)) then Some v else cell a i' j'.
Proof.
  intros [Hlen Hrows] Hi Hj.
  destruct (lookup_lt_is_Some_2 a i) as [row Hrow]; [lia|].
  assert (length row = m) as Hrowlen.
  { rewrite Forall_lookup in Hrows. by eapply Hrows. }
  exists (<[i := <[j := v]> row]> a). unfold setitem2. rewrite Hrow.
  rewrite decide_True by lia. split; [done|]. split.
  - split; [by rewrite length_insert|].
    apply Forall_insert; [done|]. by rewrite length_insert.
  - intros i' j'. unfold cell.
    destruct (decide (i' = i)) as [->|Hne].
    + rewrite list_lookup_insert_eq by lia. simpl.
      destruct (decide (j' = j)) as [->|Hne'].
      * rewrite decide_True by done.
        apply list_lookup_insert_eq. lia.
      * rewrite decide_False by congruence.
        rewrite list_lookup_insert_ne by done. by rewrite Hrow.
    + rewrite decide_False by congruence.
      by rewrite list_lookup_insert_ne.
Qed.

(** An assignment at positions that are all in bounds returns, keeps the
    shape, and changes exactly the selected entries. *)
Lemma setitem_pairs_spec n m pairs : forall a v,
  rect n m a ->
  Forall (fun p => p.1 < n /\ p.2 < m) pairs ->
  exists a',
    setitem_pairs a pairs v = Ok a'
    /\ rect n m a'
    /\ forall i j,
         cell a' i j = if decide ((i, j) ∈ pairs) then Some v else cell a i j.
Proof.
  induction pairs as [|[i0 j0] pairs IH]; intros a v Hrect Hpairs.
  - exists a. split; [done|]. split; [done|]. intros i j.
    rewrite decide_False; [done|]. apply not_elem_of_nil.
  - apply Forall_cons in Hpairs as [[Hi0 Hj0] Hpairs]. simpl in Hi0, Hj0.
    destruct (setitem2_spec n m a i0 j0 v Hrect Hi0 Hj0)
      as (a1 & Hstep & Hrect1 & Hcell1).
    destruct (IH a1 v Hrect1 Hpairs) as (a' & Hrest & Hrect' & Hcell').
    exists a'. split; [|split; [done|]].
    + unfold setitem_pairs in *. cbn [for_each]. rewrite Hstep. exact Hrest.
    + intros i j. rewrite Hcell', Hcell1.
      destruct (decide ((i, j) ∈ pairs)) as [Hin|Hout].
      * rewrite decide_True; [done|]. by apply list_elem_of_further.
      * destruct (decide ((i, j) = (i0, j0))) as [Heq|Hne].
        -- rewrite decide_True; [done|]. rewrite Heq. apply list_elem_of_here.
        -- rewrite decide_False; [done|].
           intros Hin. apply elem_of_cons in Hin as [Heq|Hin]; done.
Qed.

End arrays.

(** ** Zero-diagonal tables *)



Section zero_diagonal.
Context {F : Type} `{FloatOps F}.


End zero_diagonal.


Example zero_diagonal_table_3 :
  make_zero_diagonal_table 3
  = Ok (Nd2 [[0; 0.5; 0.5]; [0.5; 0; 0.5]; [0.5; 0.5; 0]]%float)
  /\ py_sum [0; 0.5; 0.5]%float = 1%float.
Proof. split; vm_compute; reflexivity. Qed.

(** In binary64 the rows of the seven-state table, summed left to right,
    fall short of 1. *)
Example zero_diagonal_table_7_binary64 :
  exists rows,
    make_zero_diagonal_table 7 = Ok (Nd2 rows)
    /\ Forall (fun row => py_sum row = 0.99999999999999989%float) rows.
Proof.
  eexists. split.
  - vm_compute. reflexivity.
  - repeat constructor.
Qed.




(** ** The duration transition table *)

Lemma elem_of_positions rows cols i j :
  (i, j) ∈ positions rows cols <-> i ∈ rows /\ j ∈ cols.
Proof.
  unfold positions. rewrite list_elem_of_bind. split.
  - intros (i' & Hin & Hi'). apply list_elem_of_bind in Hin as (j' & Hin & Hj').
    apply list_elem_of_singleton in Hin. by simplify_eq.
  - intros [Hi Hj]. exists i. split; [|done].
    apply list_elem_of_bind. exists j. split; [|done].
    by apply list_elem_of_singleton.
Qed.

(** A slice with non-negative bounds selects the indices between them that
    exist. *)
Lemma elem_of_slice_indices len start stop r :
  (0 <= start)%Z ->
  r ∈ slice_indices len start stop
  <-> (start <= Z.of_nat r)%Z /\ r < len
      /\ match stop with
         | None => True
         | Some s => (0 <= s)%Z -> (Z.of_nat r < s)%Z
         end
      /\ match stop with
         | None => True
         | Some s => (0 <= s)%Z
         end
      \/ (start <= Z.of_nat r)%Z /\ r < len
         /\ match stop with
            | None => False
            | Some s => (s < 0)%Z /\ (Z.of_nat r < s + Z.of_nat len)%Z
            end.
Proof.
  intros Hstart. unfold slice_indices, slice_bound. rewrite elem_of_seq.
  destruct (Z.ltb_spec start 0) as [?|_]; [lia|].
  destruct stop as [s|]; [destruct (Z.ltb_spec s 0)|]; lia.
Qed.

Lemma elem_of_slice_from len start r :
  (0 <= start)%Z ->
  r ∈ slice_indices len start None <-> (start <= Z.of_nat r)%Z /\ r < len.
Proof.
  intros Hstart. rewrite elem_of_slice_indices by done. tauto.
Qed.

Lemma elem_of_slice_between len start stop r :
  (0 <= start)%Z -> (0 <= stop)%Z ->
  r ∈ slice_indices len start (Some stop)
  <-> (start <= Z.of_nat r < stop)%Z /\ r < len.
Proof.
  intros Hstart Hstop. rewrite elem_of_slice_indices by done. lia.
Qed.

Lemma elem_of_np_where bitmap : forall i0 l,
  l ∈ np_where bitmap i0 <-> i0 <= l /\ bitmap !! (l - i0) = Some true.
Proof.
  induction bitmap as [|b bitmap IH]; intros i0 l; simpl.
  - rewrite elem_of_nil. split; [done|]. intros [_ Hl]. discriminate Hl.
  - assert (l ∈ np_where bitmap (S i0)
            <-> S i0 <= l /\ (b :: bitmap) !! (l - i0) = Some true) as Htail.
    { rewrite IH. split.
      - intros [Hle Hl]. split; [done|].
        replace (l - i0) with (S (l - S i0)) by lia. done.
      - intros [Hle Hl]. split; [done|].
        replace (l - i0) with (S (l - S i0)) in Hl by lia. done. }
    destruct b.
    + rewrite elem_of_cons, Htail. split.
      * intros [->|[Hle Hl]]; [|split; [lia|done]].
        split; [done|]. by rewrite Nat.sub_diag.
      * intros [Hle Hl]. destruct (decide (l = i0)) as [|Hne]; [by left|].
        right. split; [lia|done].
    + rewrite Htail. split.
      * intros [Hle Hl]. split; [lia|done].
      * intros [Hle Hl]. split; [|done].
        destruct (decide (l = i0)) as [->|Hne]; [|lia].
        rewrite Nat.sub_diag in Hl. discriminate Hl.
Qed.

Lemma NoDup_np_where bitmap : forall i0, NoDup (np_where bitmap i0).
Proof.
  induction bitmap as [|b bitmap IH]; intros i0; simpl.
  - apply NoDup_nil_2.
  - destruct b; [|apply IH]. apply NoDup_cons. split; [|apply IH].
    rewrite elem_of_np_where. lia.
Qed.

Section duration_table.
Context {F : Type} `{FloatOps F}.
Implicit Types (self : TableParamSpec) (res : list (list (list F))).

(** With a positive [resolution] both transition probabilities are
    computed, and the two vectors have the three entries of
    CARD_SEGTRANSITION. *)
Lemma transition_probs_returns self :
  (1 <= resolution self)%Z ->
  exists allow prevent : list F,
    transition_probs self = Ok (allow, prevent)
    /\ length allow = 3 /\ length prevent = 3.
Proof.
  intros Hres. unfold transition_probs, calc_prob_transition, floordiv,
    prob_transition_from_expected_len, truediv.
  destruct (Z.eqb_spec (resolution self) 0) as [?|_]; [lia|].
  cbn [mbind result_bind].
  assert (forall len, (0 <= len)%Z -> (1 + len / resolution self)%Z <> 0%Z)
    as Hscaled.
  { intros len Hlen.
    pose proof (Z.div_pos len (resolution self) Hlen ltac:(lia)). lia. }
  destruct (Z.eqb_spec (1 + LEN_SEG_EXPECTED / resolution self) 0)
    as [Hz|_]; [by apply Hscaled in Hz|].
  destruct (Z.eqb_spec (1 + LEN_SUBSEG_EXPECTED / resolution self) 0)
    as [Hz|_]; [by apply Hscaled in Hz|].
  cbn [mbind result_bind]. eauto.
Qed.

(** The labels selected by [where] on the end column. *)
Lemma elem_of_labels_without (table : list seg_len) l :
  l ∈ np_where ((fun e => (e =? 0)%Z) <$> (seg_end <$> table)) 0
  <-> exists row, table !! l = Some row /\ seg_end row = 0%Z.
Proof.
  rewrite elem_of_np_where, Nat.sub_0_r, !list_lookup_fmap.
  destruct (table !! l) as [row|]; simpl.
  - destruct (Z.eqb_spec (seg_end row) 0) as [Hz|Hnz]; split.
    + intros _. by exists row.
    + intros _. split; [lia|done].
    + intros [_ Hb]. discriminate Hb.
    + intros (row' & Hrow & Hend). congruence.
  - split; [intros [_ Hb]; discriminate Hb|].
    intros (row & Hrow & _). discriminate Hrow.
Qed.

Lemma elem_of_labels_with (table : list seg_len) l :
  l ∈ np_where (negb <$> ((fun e => (e =? 0)%Z) <$> (seg_end <$> table))) 0
  <-> exists row, table !! l = Some row /\ seg_end row <> 0%Z.
Proof.
  rewrite elem_of_np_where, Nat.sub_0_r, !list_lookup_fmap.
  destruct (table !! l) as [row|]; simpl.
  - destruct (Z.eqb_spec (seg_end row) 0) as [Hz|Hnz]; split.
    + intros [_ Hb]. discriminate Hb.
    + intros (row' & Hrow & Hend). congruence.
    + intros _. by exists row.
    + intros _. split; [lia|done].
  - split; [intros [_ Hb]; discriminate Hb|].
    intros (row & Hrow & _). discriminate Hrow.
Qed.

Lemma in_column_from (N : nat) (sca : Z) (l0 r l : nat) :
  (1 <= sca)%Z ->
  (r, l) ∈ positions (slice_indices N sca None) [l0]
  <-> l = l0 /\ (sca <= Z.of_nat r)%Z /\ r < N.
Proof.
  intros Hsca. rewrite elem_of_positions, list_elem_of_singleton.
  rewrite elem_of_slice_from by lia. tauto.
Qed.

Lemma in_column_between (N : nat) (sca : Z) (l0 r l : nat) :
  (1 <= sca)%Z ->
  (r, l) ∈ positions (slice_indices N 1 (Some sca)) [l0]
  <-> l = l0 /\ (1 <= Z.of_nat r < sca)%Z /\ r < N.
Proof.
  intros Hsca. rewrite elem_of_positions, list_elem_of_singleton.
  rewrite elem_of_slice_between by lia. tauto.
Qed.

(** The loop over the labels with a maximum: each label's column gets
    the allowing vector on the rows from 1 up to its bound and the
    preventing vector from there on; nothing else changes. *)
Lemma countdown_loop_spec (N M : nat) (allow prevent : list F)
    (table : list seg_len) (sci : list Z) (labels : list nat) :
  forall res,
  rect N M res ->
  NoDup labels ->
  (forall l, l ∈ labels ->
     l < M /\ exists init row,
       sci !! l = Some init /\ table !! l = Some row
       /\ (1 <= seg_countdown_allow init row)%Z) ->
  exists res',
    for_each (fun res label =>
        seg_countdown_initial ← list_getitem sci label;
        row ← list_getitem table label;
        let seg_countdown_allow :=
          seg_countdown_allow seg_countdown_initial row in
        res ← setitem_pairs res
                (positions (slice_indices N 1 (Some seg_countdown_allow))
                           [label])
                allow;
        setitem_pairs res
          (positions (slice_indices N seg_countdown_allow None) [label])
          prevent)
      labels res = Ok res'
    /\ rect N M res'
    /\ forall r l,
         cell res' r l
         = if decide (l ∈ labels /\ 1 <= r < N) then
             Some (if decide (Z.of_nat r < allow_bound sci table l)%Z
                   then allow else prevent)
           else cell res r l.
Proof.
  induction labels as [|l0 labels IH]; intros res Hrect Hnd Hlabels.
  - exists res. split; [done|]. split; [done|]. intros r l.
    rewrite decide_False; [done|]. rewrite elem_of_nil. tauto.
  - apply NoDup_cons in Hnd as [Hl0 Hnd].
    destruct (Hlabels l0) as (HlM & init & row & Hinit & Hrow & Hsca).
    { apply list_elem_of_here. }
    set (sca := seg_countdown_allow init row) in *.
    destruct (setitem_pairs_spec N M
                (positions (slice_indices N 1 (Some sca)) [l0]) res allow)
      as (res1 & Hset1 & Hrect1 & Hcell1); [done| |].
    { apply Forall_forall. intros [r l] Hin.
      apply elem_of_positions in Hin as [Hr Hl].
      apply elem_of_slice_between in Hr; [|lia..].
      apply list_elem_of_singleton in Hl. simpl. lia. }
    destruct (setitem_pairs_spec N M
                (positions (slice_indices N sca None) [l0]) res1 prevent)
      as (res2 & Hset2 & Hrect2 & Hcell2); [done| |].
    { apply Forall_forall. intros [r l] Hin.
      apply elem_of_positions in Hin as [Hr Hl].
      apply elem_of_slice_from in Hr; [|lia].
      apply list_elem_of_singleton in Hl. simpl. lia. }
    destruct (IH res2 Hrect2 Hnd) as (res' & Hloop & Hrect' & Hcell').
    { intros l Hl. apply Hlabels. by apply list_elem_of_further. }
    exists res'. split; [|split; [done|]].
    + cbn [for_each]. unfold list_getitem. rewrite Hinit.
      cbn [mbind result_bind]. rewrite Hrow.
      cbn [mbind result_bind]. fold sca. rewrite Hset1.
      cbn [mbind result_bind]. rewrite Hset2. exact Hloop.
    + intros r l. rewrite Hcell', Hcell2, Hcell1.
      pose proof (in_column_from N sca l0 r l Hsca) as Hfrom.
      pose proof (in_column_between N sca l0 r l Hsca) as Hbetween.
      pose proof (elem_of_cons labels l l0) as Hcons.
      assert (l = l0 -> allow_bound sci table l = sca) as Hbound.
      { intros ->. unfold allow_bound. by rewrite Hinit, Hrow. }
      assert (l = l0 -> l ∉ labels) as Hfresh by (by intros ->).
      repeat case_decide; try done; exfalso;
        rewrite ?Hfrom, ?Hbetween, ?Hcons in *; clear Hfrom Hbetween Hcons;
        intuition lia.
Qed.

(** C1 (as amended).  For every configuration with at least one countdown
    value, a positive resolution, a length table of at most [num_segs]
    labels, and [seg_countdown_allow >= 1] for every label with a maximum,
    the function returns a (card_seg_countdown, num_segs, 3) array in
    which: for a label whose end column is 0, countdown row 0 is
    [probs_allow_transition] and every later row is
    [probs_prevent_transition]; for a label with a maximum, row 0 is
    [probs_force_transition = [0.0, 0.0, 1.0]], the rows from 1 below
    [seg_countdown_allow] are [probs_allow_transition] and the rows from
    [seg_countdown_allow] on are [probs_prevent_transition]. *)
Theorem duration_table_rows (junk : F) self :
  (1 <= card_seg_countdown self)%Z ->
  (1 <= resolution self)%Z ->
  (Z.of_nat (length (seg_table self)) <= num_segs self)%Z ->
  (forall label row,
     seg_table self !! label = Some row -> seg_end row <> 0%Z ->
     exists init,
       seg_countdowns_initial self !! label = Some init
       /\ (1 <= seg_countdown_allow init row)%Z) ->
  exists res allow prevent,
    make_dense_cpt_segCountDown_seg_segTransition junk self = Ok res
    /\ transition_probs self = Ok (allow, prevent)
    /\ rect (Z.to_nat (card_seg_countdown self)) (Z.to_nat (num_segs self)) res
    /\ (forall r l v, cell res r l = Some v -> length v = 3)
    /\ probs_force_transition = [of_int 0; of_int 0; of_int 1]
    /\ forall label row,
         seg_table self !! label = Some row ->
         (seg_end row = 0%Z ->
          cell res 0 label = Some allow
          /\ forall r, 1 <= r < Z.to_nat (card_seg_countdown self) ->
                       cell res r label = Some prevent)
         /\ (seg_end row <> 0%Z ->
             forall init,
               seg_countdowns_initial self !! label = Some init ->
               cell res 0 label = Some probs_force_transition
               /\ (forall r, 1 <= r < Z.to_nat (card_seg_countdown self) ->
                     (Z.of_nat r < seg_countdown_allow init row)%Z ->
                     cell res r label = Some allow)
               /\ (forall r, r < Z.to_nat (card_seg_countdown self) ->
                     (seg_countdown_allow init row <= Z.of_nat r)%Z ->
                     cell res r label = Some prevent)).
Proof.
  intros Hcard Hres Hfit Hallow.
  destruct (transition_probs_returns self Hres)
    as (allow & prevent & Hprobs & Hlen_allow & Hlen_prevent).
  set (N := Z.to_nat (card_seg_countdown self)).
  set (M := Z.to_nat (num_segs self)).
  set (table := seg_table self) in *.
  set (sci := seg_countdowns_initial self) in *.
  set (without := np_where ((fun e => (e =? 0)%Z) <$> (seg_end <$> table)) 0).
  set (with_max :=
         np_where (negb <$> ((fun e => (e =? 0)%Z) <$> (seg_end <$> table))) 0).
  set (res0 := replicate N (replicate M (replicate 3 junk))).
  assert (forall l row, table !! l = Some row -> l < M) as Hlabel.
  { intros l row Hrow. apply lookup_lt_Some in Hrow. lia. }
  assert (0 < N) as HN by lia.
  (* the four assignments and the loop, one after the other *)
  destruct (setitem_pairs_spec N M (positions [0] without) res0 allow)
    as (res1 & Hset1 & Hrect1 & Hcell1).
  { apply rect_replicate. }
  { apply Forall_forall. intros [r l] Hin.
    apply elem_of_positions in Hin as [Hr Hl].
    apply list_elem_of_singleton in Hr.
    apply elem_of_labels_without in Hl as (row & Hrow & _).
    simpl. split; [lia | by eapply Hlabel]. }
  destruct (setitem_pairs_spec N M
              (positions (slice_indices N 1 None) without) res1 prevent)
    as (res2 & Hset2 & Hrect2 & Hcell2); [done| |].
  { apply Forall_forall. intros [r l] Hin.
    apply elem_of_positions in Hin as [Hr Hl].
    apply elem_of_slice_from in Hr; [|lia].
    apply elem_of_labels_without in Hl as (row & Hrow & _).
    simpl. split; [lia | by eapply Hlabel]. }
  destruct (setitem_pairs_spec N M (positions [0] with_max) res2
              probs_force_transition)
    as (res3 & Hset3 & Hrect3 & Hcell3); [done| |].
  { apply Forall_forall. intros [r l] Hin.
    apply elem_of_positions in Hin as [Hr Hl].
    apply list_elem_of_singleton in Hr.
    apply elem_of_labels_with in Hl as (row & Hrow & _).
    simpl. split; [lia | by eapply Hlabel]. }
  destruct (countdown_loop_spec N M allow prevent table sci with_max res3)
    as (res4 & Hloop & Hrect4 & Hcell4); [done| | |].
  { apply NoDup_np_where. }
  { intros l Hl. apply elem_of_labels_with in Hl as (row & Hrow & Hend).
    split; [by eapply Hlabel|].
    destruct (Hallow l row Hrow Hend) as (init & Hinit & Hsca). eauto. }
  (* every cell is the last vector assigned to it *)
  assert (forall r l,
    cell res4 r l
    = if decide (l ∈ with_max /\ 1 <= r < N) then
        Some (if decide (Z.of_nat r < allow_bound sci table l)%Z
              then allow else prevent)
      else if decide (r = 0 /\ l ∈ with_max) then Some probs_force_transition
      else if decide (1 <= r < N /\ l ∈ without) then Some prevent
      else if decide (r = 0 /\ l ∈ without) then Some allow
      else cell res0 r l) as Hcell.
  { intros r l. rewrite Hcell4, Hcell3, Hcell2, Hcell1.
    pose proof (elem_of_positions [0] with_max r l) as Hp3.
    pose proof (elem_of_positions (slice_indices N 1 None) without r l) as Hp2.
    pose proof (elem_of_positions [0] without r l) as Hp1.
    pose proof (elem_of_slice_from N 1 r ltac:(lia)) as Hslice.
    pose proof (list_elem_of_singleton r 0) as Hzero.
    repeat case_decide; try done; exfalso;
      rewrite ?Hp3, ?Hp2, ?Hp1, ?Hslice, ?Hzero in *;
      clear Hp3 Hp2 Hp1 Hslice Hzero Hcell1 Hcell2 Hcell3 Hcell4;
      naive_solver lia. }
  exists res4, allow, prevent.
  split; [|split; [done|split; [done|split; [|split; [done|]]]]].
  - unfold make_dense_cpt_segCountDown_seg_segTransition, np_empty3.
    destruct (Z.ltb_spec (card_seg_countdown self) 0) as [?|_]; [lia|].
    destruct (Z.ltb_spec (num_segs self) 0) as [?|_]; [lia|].
    cbn [orb Z.ltb CARD_SEGTRANSITION Z.compare mbind result_bind].
    rewrite Hprobs. cbn [mbind result_bind].
    change (Z.to_nat CARD_SEGTRANSITION) with 3.
    fold N M table sci. fold res0. fold without with_max.
    replace (length res0) with N by (symmetry; apply length_replicate).
    rewrite Hset1. cbn [mbind result_bind].
    rewrite Hset2. cbn [mbind result_bind].
    rewrite Hset3. cbn [mbind result_bind].
    exact Hloop.
  - intros r l v. rewrite Hcell.
    assert (length (probs_force_transition (F:=F)) = 3) as Hlen_force by done.
    repeat case_decide; intros Hv; simplify_eq; try done.
    unfold cell, res0 in Hv.
    destruct (decide (r < N)) as [Hr|Hr];
      [|by rewrite (proj1 (lookup_replicate_None _ _ _)) in Hv by lia].
    rewrite lookup_replicate_2 in Hv by done. simpl in Hv.
    apply lookup_replicate in Hv as [-> _]. reflexivity.
  - intros label row Hrow. split.
    + intros Hend.
      assert (label ∈ without) as Hin.
      { apply elem_of_labels_without. eauto. }
      assert (label ∉ with_max) as Hout.
      { intros Hin'. apply elem_of_labels_with in Hin' as (row' & Hrow' & ?).
        congruence. }
      split.
      * rewrite Hcell. rewrite decide_False by tauto.
        rewrite decide_False by tauto. rewrite decide_False by lia.
        by rewrite decide_True.
      * intros r Hr. rewrite Hcell. rewrite decide_False by tauto.
        rewrite decide_False by tauto. by rewrite decide_True.
    + intros Hend init Hinit.
      assert (label ∈ with_max) as Hin.
      { apply elem_of_labels_with. eauto. }
      assert (allow_bound sci table label = seg_countdown_allow init row)
        as Hbound.
      { unfold allow_bound. by rewrite Hinit, Hrow. }
      destruct (Hallow label row Hrow Hend) as (init' & Hinit' & Hsca).
      assert (init' = init) as -> by congruence.
      split; [|split].
      * rewrite Hcell. rewrite decide_False by lia. by rewrite decide_True.
      * intros r Hr Hlt. rewrite Hcell. rewrite decide_True by done.
        rewrite Hbound. by rewrite decide_True.
      * intros r Hr Hge. rewrite Hcell.
        rewrite decide_True by (split; [done|lia]).
        rewrite Hbound. by rewrite decide_False by lia.
Qed.

End duration_table.

Lemma binary64_zero_one : 0%float <> 1%float.
Proof.
  intros Heq.
  assert (PrimFloat.eqb 0 0 = PrimFloat.eqb 0 1) as Hb by (f_equal; exact Heq).
  vm_compute in Hb. discriminate Hb.
Qed.

(** C1, counterexample.  With [seg_countdown_allow = 0] the slice
    [res[seg_countdown_allow:, label]] starts at row 0, so for this label,
    which has a maximum, countdown row 0 ends up holding
    [probs_prevent_transition] and not [probs_force_transition]. *)
Lemma duration_table_row0_overwritten :
  exists res allow prevent,
    make_dense_cpt_segCountDown_seg_segTransition 0%float
      short_countdown_config = Ok res
    /\ transition_probs short_countdown_config = Ok (allow, prevent)
    /\ (exists row, seg_table short_countdown_config !! 0 = Some row
                    /\ seg_end row <> 0%Z)
    /\ cell res 0 0 = Some prevent
    /\ cell res 0 0 <> Some probs_force_transition.
Proof.
  eexists _, _, _. split; [vm_compute; reflexivity|].
  split; [vm_compute; reflexivity|]. split; [|split].
  - eexists. split; [reflexivity|]. simpl. lia.
  - vm_compute. reflexivity.
  - vm_compute. intros Heq.
    apply binary64_zero_one. congruence.
Qed.

(** Outside the preconditions the function raises: no countdown row for
    row 0, a zero resolution, a label beyond [num_segs]. *)
Example duration_table_no_rows :
  make_dense_cpt_segCountDown_seg_segTransition 0%float
    {| num_segs := 1; resolution := 1; card_seg_countdown := 0;
       seg_table := [ {| seg_start := 10; seg_end := 0; seg_step := 5 |} ];
       seg_countdowns_initial := [0]%Z |}
  = Raise IndexError.
Proof. vm_compute. reflexivity. Qed.

Example duration_table_zero_resolution :
  make_dense_cpt_segCountDown_seg_segTransition 0%float
    {| num_segs := 1; resolution := 0; card_seg_countdown := 2;
       seg_table := [ {| seg_start := 10; seg_end := 0; seg_step := 5 |} ];
       seg_countdowns_initial := [0]%Z |}
  = Raise ZeroDivisionError.
Proof. vm_compute. reflexivity. Qed.

Example duration_table_label_out_of_range :
  make_dense_cpt_segCountDown_seg_segTransition 0%float
    {| num_segs := 1; resolution := 1; card_seg_countdown := 2;
       seg_table := [ {| seg_start := 10; seg_end := 0; seg_step := 5 |};
                      {| seg_start := 10; seg_end := 0; seg_step := 5 |} ];
       seg_countdowns_initial := [0; 0]%Z |}
  = Raise IndexError.
Proof. vm_compute. reflexivity. Qed.

(** The theorem at the two-label configuration. *)
Lemma duration_table_rows_witness :
  (1 <= card_seg_countdown two_label_config)%Z
  /\ (1 <= resolution two_label_config)%Z
  /\ exists res allow prevent,
       make_dense_cpt_segCountDown_seg_segTransition 0%float
         two_label_config = Ok res
       /\ transition_probs two_label_config = Ok (allow, prevent)
       /\ rect 4 2 res
       /\ cell res 0 0 = Some allow
       /\ cell res 1 0 = Some prevent
       /\ cell res 0 1 = Some probs_force_transition
       /\ cell res 1 1 = Some allow
       /\ cell res 2 1 = Some prevent
       /\ cell res 3 1 = Some prevent.
Proof.
  assert (1 <= card_seg_countdown two_label_config)%Z as Hcard
    by (simpl; lia).
  assert (1 <= resolution two_label_config)%Z as Hres by (simpl; lia).
  split; [exact Hcard|]. split; [exact Hres|].
  destruct (duration_table_rows 0%float two_label_config Hcard Hres)
    as (res & allow & prevent & Hrun & Hprobs & Hrect & _ & _ & Hrows).
  - simpl. lia.
  - intros label row Hrow Hend. destruct label as [|[|label]]; simpl in Hrow.
    + injection Hrow as <-. simpl in Hend. lia.
    + injection Hrow as <-. exists 3%Z. split; [reflexivity|].
      vm_compute. discriminate.
    + discriminate Hrow.
  - exists res, allow, prevent.
    destruct (Hrows 0 _ eq_refl) as [Hfree _].
    destruct (Hfree eq_refl) as [Hfree0 Hfree_rest].
    destruct (Hrows 1 _ eq_refl) as [_ Hmax].
    destruct (Hmax ltac:(simpl; lia) 3%Z eq_refl)
      as (Hforce & Hallow & Hprevent).
    split; [exact Hrun|]. split; [exact Hprobs|]. split; [exact Hrect|].
    split; [exact Hfree0|]. split; [apply Hfree_rest; simpl; lia|].
    split; [exact Hforce|].
    split; [apply Hallow; [simpl; lia | vm_compute; reflexivity]|].
    split; apply Hprevent; (simpl; lia) || (vm_compute; discriminate).
Defined.

(** ** Concrete runs *)

Lemma two_means_reached :
  InputMaster_update (inr [ObjMean mean_a; ObjMean mean_b]) InputMaster_init
  = (Ok tt, two_means).
Proof. vm_compute. reflexivity. Qed.

Lemma two_means_wf : registry_wf two_means.
Proof.
  intros k. destruct k; apply (bool_decide_unpack _); vm_compute; exact I.
Defined.

(** Registering [mean_a] again keeps it first. *)
Lemma update_keeps_position_witness :
  registry_wf two_means
  /\ exists im',
       InputMaster_update (inl (ObjMean mean_a')) two_means = (Ok tt, im')
       /\ od_keys (entries KMean im') = ["mean_a"; "mean_b"]
       /\ entries KMean im' !! 0 = Some ("mean_a", ObjMean mean_a')
       /\ entries KMean im' !! 1 = Some ("mean_b", ObjMean mean_b).
Proof.
  split; [exact two_means_wf|].
  destruct (update_keeps_position two_means (ObjMean mean_a') KMean
              two_means_wf eq_refl)
    as (im' & Hrun & _ & _ & Hold & _).
  destruct Hold as [Hkeys Hvalues].
  - vm_compute. apply list_elem_of_here.
  - exists im'. split; [exact Hrun|]. split; [exact Hkeys|]. split.
    + exact (Hvalues 0 "mean_a" (ObjMean mean_a) eq_refl).
    + exact (Hvalues 1 "mean_b" (ObjMean mean_b) eq_refl).
Defined.

(** A list holding something that is no wire object is refused whole. *)
Lemma update_all_or_nothing_witness :
  InputMaster_update (inr [ObjMean mean_a'; ObjOther "a tuple"]) two_means
  = (Raise (ValueError "Object is not an allowed GMTK type."), two_means).
Proof.
  apply (proj1 (update_all_or_nothing two_means
                  [ObjMean mean_a'; ObjOther "a tuple"])).
  apply Exists_cons_tl, Exists_cons_hd. reflexivity.
Defined.

(** With only means registered, the document is the mean block alone. *)
Lemma str_renders_in_order_witness :
  entries KCovar two_means = []
  /\ InputMaster_str (fun _ : float => "1.0") pretty two_means
     = document (fun _ : float => "1.0") pretty two_means
         [KNameCollection; KDeterministicCPT; KDenseCPT; KMean; KDPMF;
          KMC; KMX].
Proof.
  split; [reflexivity|].
  apply (proj2 (str_renders_in_order (fun _ : float => "1.0") pretty
                  two_means) KCovar).
  reflexivity.
Defined.

(** The mean block of the small registry: [mean_a] is rendered with index
    0 and [mean_b] with index 1. *)
Lemma generate_kind_indexed_witness :
  generate_mean pretty two_means
  = (texts ← render_from (total (Mean_generate pretty)) 0 (mean two_means);
     Ok (BlockStr (join nl (["MEAN_IN_FILE inline"; pretty 2 +:+ nl]
                            ++ texts)))).
Proof.
  apply (generate_kind_indexed "MEAN_IN_FILE inline"
           (total (Mean_generate pretty)) (mean two_means)).
  - apply (bool_decide_unpack _). vm_compute. exact I.
  - simpl. discriminate.
Defined.

Example generate_mean_two_means :
  generate_mean pretty two_means
  = Ok (BlockStr ("MEAN_IN_FILE inline" +:+ nl +:+ "2" +:+ nl +:+ nl
                  +:+ "0 mean_a 1 1 " +:+ nl +:+ nl
                  +:+ "1 mean_b 1 2 " +:+ nl)).
Proof. vm_compute. reflexivity. Qed.

(** Registering into the small registry leaves each name held once. *)
Lemma update_wf_witness :
  registry_wf (InputMaster_update (inl (ObjMean mean_a')) two_means).2.
Proof.
  apply (update_wf two_means (inl (ObjMean mean_a'))).
  exact two_means_wf.
Defined.

(** ** Counting names and telling them apart *)

Lemma length_bind_const {A B} (f : A -> list B) (n : nat) (l : list A) :
  (forall x, length (f x) = n) -> length (l ≫= f) = length l * n.
Proof.
  intros Hf. induction l as [|x l IH]; [done|].
  rewrite bind_cons, length_app, Hf, IH. simpl. lia.
Qed.

Lemma length_range n : length (range n) = Z.to_nat n.
Proof. apply length_seqZ. Qed.

Lemma length_pattern (line : Z -> Z -> string -> string) track_names
    num_segs num_subsegs :
  length (i ← range num_segs; j ← range num_subsegs; name ← track_names;
          [line i j name])
  = Z.to_nat num_segs * Z.to_nat num_subsegs * length track_names.
Proof.
  rewrite (length_bind_const _ (Z.to_nat num_subsegs * length track_names)).
  { rewrite length_range. lia. }
  intros i. rewrite (length_bind_const _ (length track_names)).
  { by rewrite length_range. }
  intros j. rewrite (length_bind_const _ 1); [lia|done].
Qed.

Lemma length_mx_name_pattern (line : string -> Z -> Z -> string) track_names
    num_segs num_subsegs :
  length (name ← track_names; i ← range num_segs; j ← range num_subsegs;
          [line name i j])
  = Z.to_nat num_segs * Z.to_nat num_subsegs * length track_names.
Proof.
  rewrite (length_bind_const _ (Z.to_nat num_segs * Z.to_nat num_subsegs)).
  { lia. }
  intros name. rewrite (length_bind_const _ (Z.to_nat num_subsegs)).
  { by rewrite length_range. }
  intros i. rewrite (length_bind_const _ 1); [|done].
  rewrite length_range. lia.
Qed.

(** X3.  Every allowed kind is given names, and the kind fixes how many:
    one per track for [covar], [tied_covar] and [col]; one for [dpmf] with
    a single mixture component; and for every other kind one per (seg,
    subseg, track), a count of segments or subsegments below zero counting
    as zero. *)
Theorem names_count (kind : string) (track_names : list string)
    (num_segs num_subsegs : Z) (distribution : string)
    (num_mix_components : Z) :
  kind ∈ allowed_types ->
  exists names,
    generate_gmtk_obj_names kind track_names num_segs num_subsegs
      distribution num_mix_components = Ok names
    /\ length names
       = names_count_stated kind (length track_names) num_segs num_subsegs
           num_mix_components.
Proof.
  intros Hkind. apply allowed_types_closed in Hkind.
  unfold names_count_stated.
  destruct Hkind as [->|[->|[->|[->|[->|[->|[->|[->|[->|[->|[->| ->]]]]]]]]]]];
    eval_kind; try destruct (num_mix_components =? 1)%Z;
    rewrite ?foldl_append_map, ?general_branch_names, ?mx_name_branch_names;
    (eexists; split; [reflexivity|]);
    first [ done
          | by rewrite length_app, length_fmap
          | apply length_pattern
          | apply (length_mx_name_pattern
             (fun name i j => "mx_seg" +:+ pretty i +:+ "_subseg" +:+ pretty j
                               +:+ "_" +:+ name)) ].
Qed.

(** ** Decimal numerals *)

Lemma pretty_N_char_digit x : is_digit (pretty_N_char x) = true.
Proof.
  unfold pretty_N_char.
  destruct x as [|p]; [done|].
  do 4 (destruct p as [p|p|]; try done).
Qed.

Lemma string_app_cons c s t : String c s +:+ t = String c (s +:+ t).
Proof. done. Qed.

Lemma all_digits_app s t :
  all_digits (s +:+ t) = all_digits s && all_digits t.
Proof.
  induction s as [|c s IH]; [done|].
  rewrite string_app_cons. cbn [all_digits]. rewrite IH.
  by rewrite andb_assoc.
Qed.

Lemma pretty_N_go_digits x : forall s,
  all_digits s = true -> all_digits (pretty_N_go x s) = true.
Proof.
  induction (N.lt_wf_0 x) as [x _ IH]; intros s Hs.
  destruct (decide (x = 0)%N) as [->|Hx].
  - by rewrite pretty_N_go_0.
  - rewrite pretty_N_go_step by lia. apply IH.
    + apply N.div_lt; lia.
    + cbn [all_digits]. by rewrite pretty_N_char_digit.
Qed.

(** The numeral of a non-negative int holds digits only. *)
Lemma pretty_Z_digits z : (0 <= z)%Z -> all_digits (pretty z) = true.
Proof.
  intros Hz. destruct z as [|p|p]; [done| |lia].
  unfold pretty, pretty_Z, pretty, pretty_positive, pretty, pretty_N.
  case_decide; [done|]. by apply pretty_N_go_digits.
Qed.

(** Two numerals each followed by the same non-digit: the numerals end
    where the non-digit stands. *)
Lemma digits_delimited c d1 : forall d2 r1 r2,
  is_digit c = false ->
  all_digits d1 = true -> all_digits d2 = true ->
  d1 +:+ String c r1 = d2 +:+ String c r2 -> d1 = d2 /\ r1 = r2.
Proof.
  induction d1 as [|a d1 IH]; intros d2 r1 r2 Hc H1 H2 Heq.
  - destruct d2 as [|b d2].
    + simpl in Heq. by simplify_eq.
    + rewrite string_app_cons in Heq. simpl in Heq.
      injection Heq as Hb _. subst b.
      cbn [all_digits] in H2. rewrite Hc in H2. done.
  - destruct d2 as [|b d2].
    + rewrite string_app_cons in Heq. simpl in Heq.
      injection Heq as Ha _. subst a.
      cbn [all_digits] in H1. rewrite Hc in H1. done.
    + rewrite !string_app_cons in Heq. injection Heq as -> Heq.
      cbn [all_digits] in H1, H2.
      apply andb_prop in H1 as [_ H1]. apply andb_prop in H2 as [_ H2].
      destruct (IH d2 r1 r2 Hc H1 H2 Heq) as [-> ->]; done.
Qed.

Lemma pretty_delimited (i i' : Z) (c : Ascii.ascii) (r r' : string) :
  (0 <= i)%Z -> (0 <= i')%Z -> is_digit c = false ->
  pretty i +:+ String c r = pretty i' +:+ String c r' -> i = i' /\ r = r'.
Proof.
  intros Hi Hi' Hc Heq.
  apply digits_delimited in Heq as [Heq ->];
    [|done|by apply pretty_Z_digits..].
  split; [|done]. by apply (inj pretty).
Qed.

(** The names of the pattern are distinct for distinct (seg, subseg,
    track). *)
Lemma seg_subseg_name_inj (prefix : string) (i j i' j' : Z)
    (name name' : string) :
  (0 <= i)%Z -> (0 <= j)%Z -> (0 <= i')%Z -> (0 <= j')%Z ->
  prefix +:+ "_seg" +:+ pretty i +:+ "_subseg" +:+ pretty j +:+ "_" +:+ name
  = prefix +:+ "_seg" +:+ pretty i' +:+ "_subseg" +:+ pretty j' +:+ "_"
      +:+ name' ->
  i = i' /\ j = j' /\ name = name'.
Proof.
  intros Hi Hj Hi' Hj' Heq.
  apply (inj (String.append prefix)) in Heq.
  apply (inj (String.append "_seg")) in Heq.
  rewrite !(string_app_cons _ "subseg") in Heq.
  apply pretty_delimited in Heq as [-> Heq]; [|done..].
  apply (inj (String.append "subseg")) in Heq.
  rewrite !(string_app_cons _ "") in Heq.
  apply pretty_delimited in Heq as [-> Heq]; [|done..].
  simpl in Heq. done.
Qed.

Lemma NoDup_pattern (line : Z -> Z -> string -> string) track_names
    num_segs num_subsegs :
  (forall i j name i' j' name',
     (0 <= i)%Z -> (0 <= j)%Z -> (0 <= i')%Z -> (0 <= j')%Z ->
     line i j name = line i' j' name' -> i = i' /\ j = j' /\ name = name') ->
  NoDup track_names ->
  NoDup (i ← range num_segs; j ← range num_subsegs; name ← track_names;
         [line i j name]).
Proof.
  intros Hinj Hnd.
  assert (forall i y,
    y ∈ (j ← range num_subsegs; name ← track_names; [line i j name]) ->
    exists j name, (0 <= j)%Z /\ name ∈ track_names /\ y = line i j name)
    as Hinner.
  { intros i y Hy. apply list_elem_of_bind in Hy as (j & Hy & Hj).
    apply list_elem_of_bind in Hy as (name & Hy & Hname).
    apply list_elem_of_singleton in Hy. apply elem_of_seqZ in Hj.
    exists j, name. split; [lia|done]. }
  apply NoDup_bind; [| |apply NoDup_seqZ].
  - intros i i' y Hi Hi' Hy Hy'.
    apply Hinner in Hy as (j & name & Hj & _ & ->).
    apply Hinner in Hy' as (j' & name' & Hj' & _ & Heq).
    apply elem_of_seqZ in Hi, Hi'.
    apply Hinj in Heq as (? & _); [done|lia..].
  - intros i Hi. apply elem_of_seqZ in Hi.
    apply NoDup_bind; [| |apply NoDup_seqZ].
    + intros j j' y Hj Hj' Hy Hy'.
      apply list_elem_of_bind in Hy as (name & Hy & _).
      apply list_elem_of_bind in Hy' as (name' & Hy' & _).
      apply list_elem_of_singleton in Hy, Hy'. subst y.
      apply elem_of_seqZ in Hj, Hj'.
      apply Hinj in Hy' as (_ & ? & _); [done|lia..].
    + intros j Hj. apply elem_of_seqZ in Hj.
      apply NoDup_bind; [| |done].
      * intros name name' y _ _ Hy Hy'.
        apply list_elem_of_singleton in Hy, Hy'. subst y.
        apply Hinj in Hy' as (_ & _ & ?); [done|lia..].
      * intros name _. apply NoDup_singleton.
Qed.

Lemma NoDup_mx_name_pattern track_names num_segs num_subsegs :
  NoDup track_names ->
  NoDup (name ← track_names; i ← range num_segs; j ← range num_subsegs;
         ["mx_seg" +:+ pretty i +:+ "_subseg" +:+ pretty j +:+ "_" +:+ name]).
Proof.
  intros Hnd.
  assert (forall i j name i' j' name',
     (0 <= i)%Z -> (0 <= j)%Z -> (0 <= i')%Z -> (0 <= j')%Z ->
     "mx_seg" +:+ pretty i +:+ "_subseg" +:+ pretty j +:+ "_" +:+ name
     = "mx_seg" +:+ pretty i' +:+ "_subseg" +:+ pretty j' +:+ "_" +:+ name' ->
     i = i' /\ j = j' /\ name = name') as Hinj.
  { intros i j name i' j' name' Hi Hj Hi' Hj' Heq.
    by apply (seg_subseg_name_inj "mx" i j i' j'). }
  apply NoDup_bind; [| |done].
  - intros name name' y _ _ Hy Hy'.
    apply list_elem_of_bind in Hy as (i & Hy & Hi).
    apply list_elem_of_bind in Hy as (j & Hy & Hj).
    apply list_elem_of_bind in Hy' as (i' & Hy' & Hi').
    apply list_elem_of_bind in Hy' as (j' & Hy' & Hj').
    apply list_elem_of_singleton in Hy, Hy'. subst y.
    apply elem_of_seqZ in Hi, Hi', Hj, Hj'.
    apply Hinj in Hy' as (_ & _ & ?); [done|lia..].
  - intros name _. apply NoDup_bind; [| |apply NoDup_seqZ].
    + intros i i' y Hi Hi' Hy Hy'.
      apply list_elem_of_bind in Hy as (j & Hy & Hj).
      apply list_elem_of_bind in Hy' as (j' & Hy' & Hj').
      apply list_elem_of_singleton in Hy, Hy'. subst y.
      apply elem_of_seqZ in Hi, Hi', Hj, Hj'.
      apply Hinj in Hy' as (? & _); [done|lia..].
    + intros i Hi. apply elem_of_seqZ in Hi.
      apply NoDup_bind; [| |apply NoDup_seqZ].
      * intros j j' y Hj Hj' Hy Hy'.
        apply list_elem_of_singleton in Hy, Hy'. subst y.
        apply elem_of_seqZ in Hj, Hj'.
        apply Hinj in Hy' as (_ & ? & _); [done|lia..].
      * intros j _. apply NoDup_singleton.
Qed.

(** X4.  For every allowed kind but [mc_missing], distinct track names
    give distinct object names: the decimal indices and the track are read
    back from a name, so no two (seg, subseg, track) share one. *)
Theorem names_distinct (kind : string) (track_names : list string)
    (num_segs num_subsegs : Z) (distribution : string)
    (num_mix_components : Z) :
  kind ∈ allowed_types -> kind <> "mc_missing" -> NoDup track_names ->
  exists names,
    generate_gmtk_obj_names kind track_names num_segs num_subsegs
      distribution num_mix_components = Ok names
    /\ NoDup names.
Proof.
  intros Hkind Hmissing Hnd. apply allowed_types_closed in Hkind.
  assert (forall prefix : string,
    NoDup (i ← range num_segs; j ← range num_subsegs; name ← track_names;
           [prefix +:+ "_seg" +:+ pretty i +:+ "_subseg" +:+ pretty j
              +:+ "_" +:+ name])) as Hgeneral.
  { intros prefix.
    apply (NoDup_pattern (fun i j name =>
             prefix +:+ "_seg" +:+ pretty i +:+ "_subseg" +:+ pretty j
               +:+ "_" +:+ name)); [|done].
    intros i j name i' j' name' Hi Hj Hi' Hj'.
    by apply seg_subseg_name_inj. }
  destruct Hkind as [->|[->|[->|[?|[->|[->|[->|[->|[->|[->|[->| ->]]]]]]]]]]];
    [| | |done|..];
    eval_kind; try destruct (num_mix_components =? 1)%Z;
    rewrite ?foldl_append_map, ?general_branch_names, ?mx_name_branch_names;
    (eexists; split; [reflexivity|]);
    first [ apply NoDup_singleton
          | apply (NoDup_fmap_2 _), Hnd
          | by apply NoDup_mx_name_pattern
          | apply Hgeneral
          | idtac ].
  all: try apply (Hgeneral ("mc_" +:+ distribution)).
Qed.

(** ** What the conditional probability tables render *)

Lemma join_atoms_strs sep (xs : list atom) :
  join_atoms sep xs
  = if forallb is_str xs then Ok (join sep (str_atom <$> xs))
    else Raise TypeError.
Proof.
  unfold join_atoms.
  assert (forall acc,
    for_each (fun acc a => match a with
                           | AStr s => Ok (append acc s)
                           | AInt _ => Raise TypeError
                           end) xs acc
    = if forallb is_str xs then Ok (acc ++ (str_atom <$> xs))
      else Raise TypeError) as Hloop.
  { induction xs as [|[z|s] xs IH]; intros acc; cbn [for_each forallb is_str].
    - by rewrite app_nil_r.
    - done.
    - cbn [mbind result_bind andb]. rewrite IH. unfold append.
      destruct (forallb is_str xs); [|done].
      by rewrite <- app_assoc. }
  rewrite Hloop. by destruct (forallb is_str xs).
Qed.

(** X5.  [DeterministicCPT.generate] returns exactly when the parent
    cardinalities and the cardinality are all strs, and then gives the
    index and name, the number of parents, the cardinalities separated by
    spaces, the decision tree and an empty line; with an int among them it
    raises TypeError. *)
Theorem DeterministicCPT_generate_needs_strs (self : DeterministicCPT)
    (index : nat) :
  DeterministicCPT_generate self index
  = if forallb is_str (det_parent_card self ++ [det_cardinality self]) then
      Ok (join nl [pretty index +:+ " " +:+ det_name self;
                   pretty (length (det_parent_card self));
                   join " " (str_atom <$>
                               det_parent_card self ++ [det_cardinality self]);
                   det_dt self; nl])
    else Raise TypeError.
Proof.
  unfold DeterministicCPT_generate, append. rewrite join_atoms_strs.
  destruct (forallb is_str _); [|done].
  cbn [mbind result_bind app]. do 2 f_equal.
Qed.

Section dense.
Context {F : Type} `{FloatOps F} (str_float : F -> string).

Lemma prob_table_nested_ind (P : prob_table (F:=F) -> Prop) :
  (forall xs, P (PRow xs)) ->
  (forall ps, Forall P ps -> P (PNest ps)) ->
  forall p, P p.
Proof.
  intros Hrow Hnest. fix IH 1. intros [xs|ps].
  - apply Hrow.
  - apply Hnest. induction ps as [|p ps IHps]; constructor; [apply IH|done].
Qed.

Lemma DenseCPT_generate_prob_spec (p : prob_table (F:=F)) :
  DenseCPT_generate_prob str_float p
  = if prob_nonempty p then Ok (prob_text str_float p) else Raise IndexError.
Proof.
  induction p as [xs|ps IH] using prob_table_nested_ind.
  - destruct xs as [|x xs]; [done|].
    cbn [DenseCPT_generate_prob prob_nonempty prob_text length Nat.eqb negb].
    by rewrite foldl_append_map.
  - destruct ps as [|p0 ps0]; [done|].
    set (ps := p0 :: ps0) in *.
    assert (forall line,
      (fix go (ps : list prob_table) (line : list string) :=
         match ps with
         | [] => Ok line
         | p :: ps' =>
             t ← DenseCPT_generate_prob str_float p; go ps' (append line t)
         end) ps line
      = if forallb prob_nonempty ps
        then Ok (line ++ (prob_text str_float <$> ps))
        else Raise IndexError) as Hgo.
    { clearbody ps. induction IH as [|p ps Hp _ IHps]; intros line.
      - cbn. by rewrite app_nil_r.
      - cbn [forallb fmap list_fmap]. rewrite Hp.
        destruct (prob_nonempty p); [|done].
        cbn [mbind result_bind andb]. rewrite IHps. unfold append.
        destruct (forallb prob_nonempty ps); [|done].
        by rewrite <- app_assoc. }
    change (DenseCPT_generate_prob str_float (PNest ps))
      with (line ← (fix go (ps : list prob_table) (line : list string) :=
                      match ps with
                      | [] => Ok line
                      | p :: ps' =>
                          t ← DenseCPT_generate_prob str_float p;
                          go ps' (append line t)
                      end) ps [];
            Ok (join nl line)).
    rewrite Hgo. unfold ps at 3. cbn [prob_nonempty length Nat.eqb negb andb].
    fold ps. by destruct (forallb prob_nonempty ps).
Qed.

(** X6.  [DenseCPT.generate] returns exactly when no list of the
    probability table, at any depth, is empty, and then gives the header
    line (index, name, number of parents and their cardinalities, or 0,
    and the cardinality) followed by the table, rows on lines of their
    own; with an empty list it raises IndexError. *)
Theorem DenseCPT_generate_needs_rows (self : DenseCPT (F:=F)) (index : nat) :
  DenseCPT_generate str_float self index
  = if prob_nonempty (dense_prob self) then
      Ok (join nl
            [join " " ([pretty index; dense_name self]
                       ++ match dense_parent_card self with
                          | None => ["0"]
                          | Some pc => pretty (length pc) :: (str_atom <$> pc)
                          end
                       ++ [str_atom (dense_cardinality self)]);
             prob_text str_float (dense_prob self) +:+ nl;
             nl])
    else Raise IndexError.
Proof.
  unfold DenseCPT_generate. rewrite DenseCPT_generate_prob_spec.
  destruct (prob_nonempty (dense_prob self)).
  - cbn [mbind result_bind].
    destruct (dense_parent_card self) as [pc|].
    + rewrite foldl_append_map. unfold append. cbn [app]. do 3 f_equal.
    + done.
  - destruct (dense_parent_card self); done.
Qed.

End dense.

(** ** The registry as a mapping *)

Section ordered_dict_lookup.
Context {O : Type}.
Implicit Types (d : list (string * O)) (key : string) (v : O).

Lemma od_getitem_setitem_eq key v d :
  od_getitem key (od_setitem key v d) = Ok v.
Proof.
  induction d as [|[k x] d IH]; simpl.
  - by rewrite String.eqb_refl.
  - destruct (String.eqb_spec k key) as [->|Hne]; simpl.
    + by rewrite String.eqb_refl.
    + destruct (String.eqb_spec k key); [done|]. exact IH.
Qed.

Lemma od_getitem_setitem_ne key key' v d :
  key' <> key -> od_getitem key' (od_setitem key v d) = od_getitem key' d.
Proof.
  intros Hne. induction d as [|[k x] d IH]; simpl.
  - destruct (String.eqb_spec key key'); [congruence|done].
  - destruct (String.eqb_spec k key) as [->|Hk]; simpl.
    + destruct (String.eqb_spec key key'); [congruence|done].
    + destruct (String.eqb_spec k key'); [done|]. exact IH.
Qed.

Lemma od_length_setitem key v d :
  length (od_setitem key v d)
  = if decide (key ∈ od_keys d) then length d else S (length d).
Proof.
  destruct (decide (key ∈ od_keys d)) as [Hin|Hout].
  - rewrite <- (length_fmap fst (od_setitem key v d)).
    fold (od_keys (od_setitem key v d)).
    rewrite od_keys_setitem_in by done. unfold od_keys. by rewrite length_fmap.
  - rewrite od_setitem_notin by done. rewrite length_app. simpl. lia.
Qed.

Lemma od_getitem_keys key d :
  (exists v, od_getitem key d = Ok v) <-> key ∈ od_keys d.
Proof.
  unfold od_keys. induction d as [|[k x] d IH]; simpl.
  - rewrite elem_of_nil. split; [intros [v Hv]; discriminate Hv|done].
  - rewrite elem_of_cons. destruct (String.eqb_spec k key) as [->|Hne].
    + split; [by left|eauto].
    + rewrite IH. split; [by right|]. intros [?|?]; [congruence|done].
Qed.

Lemma od_getitem_missing key d :
  key ∉ od_keys d -> od_getitem key d = Raise KeyError.
Proof.
  unfold od_keys. induction d as [|[k x] d IH]; simpl; [done|].
  intros Hout. apply not_elem_of_cons in Hout as [Hne Hout].
  destruct (String.eqb_spec k key); [congruence|]. by apply IH.
Qed.

End ordered_dict_lookup.

Section registry_laws.
Context {F : Type} `{FloatOps F} {V : Type}.
Implicit Types (obj : pyobj (F:=F) (V:=V)) (im : InputMaster (F:=F) (V:=V))
  (k : kind).

Lemma update_single im obj :
  is_wire_object obj = true ->
  InputMaster_update (inl obj) im = (Ok tt, register im obj).
Proof.
  intros Hobj.
  change (InputMaster_update (inl obj) im)
    with (InputMaster_update (inr [obj]) im).
  rewrite update_list. cbn [forallb]. by rewrite Hobj.
Qed.

Lemma foldl_register_one_by_one im (objs : list (pyobj (F:=F) (V:=V))) :
  Forall (fun obj => is_wire_object obj = true) objs ->
  foldl (fun im obj => (InputMaster_update (inl obj) im).2) im objs
  = foldl register im objs.
Proof.
  intros Hall. revert im.
  induction Hall as [|obj objs Hobj _ IH]; intros im; [done|].
  cbn [foldl]. rewrite update_single by done. apply IH.
Qed.

Lemma forallb_wire (objs : list (pyobj (F:=F) (V:=V))) :
  Forall (fun obj => is_wire_object obj = true) objs ->
  forallb is_wire_object objs = true.
Proof.
  intros Hall. apply forallb_forall. intros obj Hin.
  apply list_elem_of_In in Hin. rewrite Forall_forall in Hall. by apply Hall.
Qed.

(** X7.  Registering a list of wire objects in one call to [update] is
    registering its elements one call at a time, in order; so a list may
    be split in two calls. *)
Theorem update_list_one_by_one im (xs ys : list (pyobj (F:=F) (V:=V))) :
  Forall (fun obj => is_wire_object obj = true) (xs ++ ys) ->
  InputMaster_update (inr (xs ++ ys)) im
  = (Ok tt,
     foldl (fun im obj => (InputMaster_update (inl obj) im).2) im (xs ++ ys))
  /\ InputMaster_update (inr (xs ++ ys)) im
     = InputMaster_update (inr ys) (InputMaster_update (inr xs) im).2
  /\ (InputMaster_update (inr xs) im).1 = Ok tt.
Proof.
  intros Hall. pose proof Hall as Hboth.
  apply Forall_app in Hboth as [Hxs Hys].
  rewrite !update_list.
  rewrite (forallb_wire _ Hall), (forallb_wire _ Hxs), (forallb_wire _ Hys).
  cbn [fst snd]. split; [|split; [|done]].
  - by rewrite foldl_register_one_by_one.
  - by rewrite foldl_app.
Qed.

(** X8.  After [update] of a wire object, looking its name up in the
    mapping of its kind gives the object; every other name looks up as
    before; and the mapping grew by one entry exactly when the name was
    new. *)
Theorem update_then_getitem im obj k :
  kind_of obj = Some k ->
  exists im',
    InputMaster_update (inl obj) im = (Ok tt, im')
    /\ od_getitem (obj_name obj) (entries k im') = Ok obj
    /\ (forall key, key <> obj_name obj ->
          od_getitem key (entries k im') = od_getitem key (entries k im))
    /\ length (entries k im')
       = if decide (obj_name obj ∈ od_keys (entries k im))
         then length (entries k im) else S (length (entries k im)).
Proof.
  intros Hk. exists (register im obj).
  assert (is_wire_object obj = true) as Hobj.
  { unfold is_wire_object. by rewrite Hk. }
  rewrite (register_entries _ _ _ Hk).
  split; [by apply update_single|]. split; [apply od_getitem_setitem_eq|].
  split; [intros key Hne; by apply od_getitem_setitem_ne|].
  apply od_length_setitem.
Qed.

End registry_laws.

(** ** When the document can be rendered *)

Section render_outcome.
Context {O : Type} (header : string) (generate : O -> nat -> result string).
Context (ok : O -> bool) (err : exn).
Hypothesis generate_outcome :
  forall o i, if ok o then exists t, generate o i = Ok t
              else generate o i = Raise err.

Lemma render_from_outcome (d : list (string * O)) : forall i0,
  if forallb ok d.*2 then exists texts, render_from generate i0 d = Ok texts
  else render_from generate i0 d = Raise err.
Proof.
  induction d as [|[n o] d IH]; intros i0; cbn [fmap list_fmap forallb snd].
  - by exists [].
  - cbn [render_from]. pose proof (generate_outcome o i0) as Hgen.
    destruct (ok o); cbn [andb].
    + destruct Hgen as [t ->]. cbn [mbind result_bind].
      specialize (IH (S i0)). destruct (forallb ok d.*2).
      * destruct IH as [texts ->]. cbn [mbind result_bind]. eauto.
      * by rewrite IH.
    + by rewrite Hgen.
Qed.

(** A non-empty mapping renders as header, count and entries. *)
Lemma generate_kind_render (d : list (string * O)) :
  NoDup (od_keys d) -> d <> [] ->
  generate_kind header d generate
  = (texts ← render_from generate 0 d;
     Ok (BlockStr (join nl ([header; pretty (length d) +:+ nl] ++ texts)))).
Proof.
  intros Hnd Hne. unfold generate_kind.
  destruct d as [|kv d']; [done|].
  cbn [length Nat.eqb]. unfold od_keys at 2. rewrite length_fmap.
  rewrite (generate_kind_loop _ _ Hnd (kv :: d') [] _ eq_refl).
  change (length (@nil (string * O))) with 0.
  by destruct (render_from generate 0 (kv :: d')).
Qed.

Lemma generate_kind_outcome (d : list (string * O)) :
  NoDup (od_keys d) ->
  if forallb ok d.*2 then exists b, generate_kind header d generate = Ok b
  else generate_kind header d generate = Raise err.
Proof.
  intros Hnd. destruct (decide (d = [])) as [->|Hne].
  - cbn. eauto.
  - rewrite (generate_kind_render d Hnd Hne).
    pose proof (render_from_outcome d 0) as Hrender.
    destruct (forallb ok d.*2).
    + destruct Hrender as [texts ->]. cbn [mbind result_bind]. eauto.
    + by rewrite Hrender.
Qed.

End render_outcome.

Lemma generate_kind_total {O} header (generate : O -> nat -> result string)
    (d : list (string * O)) :
  NoDup (od_keys d) ->
  (forall o i, exists t, generate o i = Ok t) ->
  exists b, generate_kind header d generate = Ok b.
Proof.
  intros Hnd Htotal.
  pose proof (generate_kind_outcome header generate (fun _ => true)
                KeyError (fun o i => Htotal o i) d Hnd) as Hout.
  replace (forallb (fun _ => true) d.*2) with true in Hout; [done|].
  symmetry. apply forallb_forall. done.
Qed.

Lemma od_keys_prod_map {O P} (f : O -> P) (d : list (string * O)) :
  od_keys (prod_map id f <$> d) = od_keys d.
Proof.
  unfold od_keys. rewrite <- list_fmap_compose.
  apply list_fmap_ext. by intros i [n o] _.
Qed.

Section document_outcome.
Context {F : Type} `{FloatOps F} (str_float : F -> string).
Context {V : Type} (str_value : V -> string).

Lemma DeterministicCPT_generate_outcome (o : DeterministicCPT) (i : nat) :
  if deterministic_renders o
  then exists t, DeterministicCPT_generate o i = Ok t
  else DeterministicCPT_generate o i = Raise TypeError.
Proof.
  unfold DeterministicCPT_generate, append, deterministic_renders.
  rewrite join_atoms_strs.
  destruct (forallb is_str _); [|done]. cbn [mbind result_bind]. eauto.
Qed.

Lemma DenseCPT_generate_outcome (o : DenseCPT (F:=F)) (i : nat) :
  if dense_renders o
  then exists t, DenseCPT_generate str_float o i = Ok t
  else DenseCPT_generate str_float o i = Raise IndexError.
Proof.
  unfold DenseCPT_generate, dense_renders.
  rewrite DenseCPT_generate_prob_spec.
  destruct (prob_nonempty (dense_prob o)).
  - cbn [mbind result_bind]. destruct (dense_parent_card o); eauto.
  - by destruct (dense_parent_card o).
Qed.

(** X9.  On a registry that holds each name once, [__str__] raises
    TypeError when some DeterministicCPT has an int cardinality, otherwise
    IndexError when some DenseCPT has an empty list in its table, and
    otherwise returns the document. *)
Theorem str_outcome (im : InputMaster (F:=F) (V:=V)) :
  registry_wf im ->
  let dets_ok := forallb deterministic_renders (deterministic im).*2 in
  let denses_ok := forallb dense_renders (dense im).*2 in
  (dets_ok = false -> InputMaster_str str_float str_value im = Raise TypeError)
  /\ (dets_ok = true -> denses_ok = false ->
      InputMaster_str str_float str_value im = Raise IndexError)
  /\ (dets_ok = true -> denses_ok = true ->
      exists text, InputMaster_str str_float str_value im = Ok text).
Proof.
  intros Hwf dets_ok denses_ok.
  pose proof (Hwf KNameCollection) as Hcol.
  pose proof (Hwf KDeterministicCPT) as Hdet.
  pose proof (Hwf KDenseCPT) as Hdense.
  pose proof (Hwf KMean) as Hmean.
  pose proof (Hwf KCovar) as Hcovar.
  pose proof (Hwf KDPMF) as Hdpmf.
  pose proof (Hwf KMC) as Hmc.
  pose proof (Hwf KMX) as Hmx.
  cbn [entries] in *.
  rewrite od_keys_prod_map in Hcol. rewrite od_keys_prod_map in Hdet.
  rewrite od_keys_prod_map in Hdense. rewrite od_keys_prod_map in Hmean.
  rewrite od_keys_prod_map in Hcovar. rewrite od_keys_prod_map in Hdpmf.
  rewrite od_keys_prod_map in Hmc. rewrite od_keys_prod_map in Hmx.
  clear Hwf.
  assert (forall {O} (g : O -> nat -> string) o i,
            exists t, total g o i = Ok t) as Htotal.
  { intros O g o i. by exists (g o i). }
  destruct (generate_kind_total "NAME_COLLECTION_IN_FILE inline"
              (total NameCollection_generate) _ Hcol (Htotal _ _))
    as [a1 Ha1].
  pose proof (generate_kind_outcome "DETERMINISTIC_CPT_IN_FILE inline"
    DeterministicCPT_generate deterministic_renders TypeError) as Ha2.
  specialize (Ha2 DeterministicCPT_generate_outcome _ Hdet).
  pose proof (generate_kind_outcome "DENSE_CPT_IN_FILE inline"
    (DenseCPT_generate str_float) dense_renders IndexError) as Ha3.
  specialize (Ha3 DenseCPT_generate_outcome _ Hdense).
  destruct (generate_kind_total "MEAN_IN_FILE inline"
              (total (Mean_generate str_value)) _ Hmean (Htotal _ _))
    as [a4 Ha4].
  destruct (generate_kind_total "COVAR_IN_FILE inline"
              (total (Covar_generate str_value)) _ Hcovar (Htotal _ _))
    as [a5 Ha5].
  destruct (generate_kind_total "DPMF_IN_FILE inline"
              (total (DPMF_generate str_float)) _ Hdpmf (Htotal _ _))
    as [a6 Ha6].
  destruct (generate_kind_total "MC_IN_FILE inline"
              (total MC_generate) _ Hmc (Htotal _ _)) as [a7 Ha7].
  destruct (generate_kind_total "MX_IN_FILE inline"
              (total MX_generate) _ Hmx (Htotal _ _)) as [a8 Ha8].
  unfold InputMaster_str, generate_name_col, generate_deterministic,
    generate_dense, generate_mean, generate_covar, generate_dpmf,
    generate_mc, generate_mx.
  rewrite Ha1. cbn [mbind result_bind].
  fold dets_ok in Ha2. fold denses_ok in Ha3.
  destruct dets_ok.
  - destruct Ha2 as [a2 ->]. cbn [mbind result_bind].
    destruct denses_ok.
    + destruct Ha3 as [a3 ->]. cbn [mbind result_bind].
      rewrite Ha4, Ha5, Ha6, Ha7, Ha8. cbn [mbind result_bind].
      split; [done|]. split; [done|]. eauto.
    + rewrite Ha3. done.
  - rewrite Ha2. done.
Qed.

End document_outcome.

(** ** Transition probabilities, exactly *)





(** ** Slices, in general *)



Section duration_table_cover.
Context {F : Type} `{FloatOps F}.
Implicit Types (self : TableParamSpec) (res : list (list (list F))).



End duration_table_cover.



(** ** The builders of [ParamSpec] *)

Lemma fold_until_ok {S A} (step : S -> A -> S) (xs : list A) (s : S) :
  fold_until step (Ok <$> xs) s = (Ok tt, foldl step s xs).
Proof.
  revert s. induction xs as [|x xs IH]; intros s; [done|].
  cbn [fmap list_fmap fold_until foldl]. apply IH.
Qed.

Lemma fold_until_raise {S A} (step : S -> A -> S) (xs : list A) e rest
    (s : S) :
  fold_until step ((Ok <$> xs) ++ Raise e :: rest) s
  = (Raise e, foldl step s xs).
Proof.
  revert s. induction xs as [|x xs IH]; intros s; [done|].
  cbn [fmap list_fmap app fold_until foldl]. apply IH.
Qed.

Lemma fold_until_cons_ok {S A} (step : S -> A -> S) a items (s : S) :
  fold_until step (Ok a :: items) s = fold_until step items (step s a).
Proof. done. Qed.

Section builder_loops.
Context {F : Type} `{FloatOps F} {V : Type}.
Implicit Types (im : InputMaster (F:=F) (V:=V)) (obj : pyobj (F:=F) (V:=V)).

(** A loop that builds one object per index and registers it. *)
Lemma prog_for_each_register (Inv : InputMaster (F:=F) (V:=V) -> Prop)
    (body : nat -> prog (InputMaster (F:=F) (V:=V)) unit)
    (item : nat -> result (pyobj (F:=F) (V:=V))) :
  (forall i im, Inv im ->
     body i im = match item i with
                 | Ok obj => input_master_update obj im
                 | Raise e => (Raise e, im)
                 end) ->
  (forall i obj, item i = Ok obj -> is_wire_object obj = true) ->
  (forall i im obj, item i = Ok obj -> Inv im -> Inv (register im obj)) ->
  forall (indices : list nat) im,
    Inv im ->
    prog_for_each body indices im = fold_until register (item <$> indices) im.
Proof.
  intros Hbody Hwire Hinv indices.
  induction indices as [|i indices IH]; intros im Him; [done|].
  cbn [prog_for_each fmap list_fmap].
  unfold mbind, prog_bind. rewrite (Hbody i im Him).
  destruct (item i) as [obj|e] eqn:Hitem; [|done].
  unfold input_master_update. rewrite update_single by eauto.
  rewrite fold_until_cons_ok. apply IH. by eapply Hinv.
Qed.

(** The outcomes of pairing two lists index by index. *)
Lemma zip_items {A B} (mk : A -> B -> pyobj (F:=F) (V:=V))
    (xs : list A) (ys : list B) (n : nat) :
  (fun i => x ← list_getitem xs i; y ← list_getitem ys i; Ok (mk x y))
    <$> seq 0 n
  = (Ok <$> take n (zip_with mk xs ys))
    ++ replicate (n - length (zip_with mk xs ys)) (Raise IndexError).
Proof.
  apply list_eq. intros i.
  rewrite list_lookup_fmap.
  destruct (decide (i < n)) as [Hi|Hi].
  - rewrite lookup_seq_lt by done. cbn [fmap option_fmap option_map Nat.add].
    destruct (decide (i < length (zip_with mk xs ys))) as [Hz|Hz].
    + rewrite lookup_app_l by (rewrite length_fmap, length_take; lia).
      rewrite list_lookup_fmap, lookup_take by done.
      rewrite lookup_zip_with. unfold list_getitem.
      rewrite length_zip_with in Hz.
      destruct (lookup_lt_is_Some_2 xs i ltac:(lia)) as [x ->].
      destruct (lookup_lt_is_Some_2 ys i ltac:(lia)) as [y ->].
      by rewrite decide_True by done.
    + rewrite lookup_app_r by (rewrite length_fmap, length_take; lia).
      rewrite length_fmap, length_take.
      rewrite lookup_replicate_2 by lia.
      unfold list_getitem. rewrite length_zip_with in Hz.
      destruct (xs !! i) as [x|] eqn:Hx; [|done].
      rewrite (proj2 (lookup_ge_None ys i)); [done|].
      apply lookup_lt_Some in Hx. lia.
  - rewrite lookup_seq_ge by lia. symmetry. apply lookup_ge_None.
    rewrite length_app, length_fmap, length_take, length_replicate. lia.
Qed.

Lemma fold_until_zip {A B} (mk : A -> B -> pyobj (F:=F) (V:=V))
    (xs : list A) (ys : list B) im :
  fold_until register
    ((fun i => x ← list_getitem xs i; y ← list_getitem ys i; Ok (mk x y))
       <$> seq 0 (length xs)) im
  = (if decide (length xs <= length ys) then Ok tt else Raise IndexError,
     foldl register im (zip_with mk xs ys)).
Proof.
  rewrite zip_items. rewrite take_ge by (rewrite length_zip_with; lia).
  rewrite length_zip_with.
  destruct (decide (length xs <= length ys)) as [Hle|Hgt].
  - replace (length xs - length xs `min` length ys) with 0 by lia.
    cbn [replicate]. rewrite app_nil_r. apply fold_until_ok.
  - destruct (length xs - length xs `min` length ys) as [|m] eqn:Hm; [lia|].
    cbn [replicate]. apply fold_until_raise.
Qed.

End builder_loops.

(** ** Lists cut in equal parts *)

Lemma drop_bind_const {A B} (f : A -> list B) (g : nat) (l : list A) :
  (forall x, length (f x) = g) ->
  forall k, drop (k * g) (l ≫= f) = drop k l ≫= f.
Proof.
  intros Hf. induction l as [|x l IH]; intros k.
  - change ([] ≫= f) with (@nil B). by rewrite !drop_nil.
  - destruct k as [|k]; [done|].
    rewrite bind_cons. cbn [drop Nat.mul].
    rewrite drop_app_add' by (by rewrite Hf). apply IH.
Qed.

(** The [k]-th part of a list made of parts of [g] elements each. *)
Lemma list_slice_part {A B} (f : A -> list B) (g : nat) (l : list A) k x :
  (forall x, length (f x) = g) ->
  l !! k = Some x ->
  list_slice (l ≫= f) (Z.of_nat (k * g)) (Z.of_nat (k * g) + Z.of_nat g)
  = f x.
Proof.
  intros Hf Hx. unfold list_slice, slice_bound.
  rewrite (length_bind_const f g l Hf).
  pose proof (lookup_lt_Some _ _ _ Hx) as Hk.
  assert (k * g + g <= length l * g) by nia.
  destruct (Z.ltb_spec (Z.of_nat (k * g)) 0) as [?|_]; [lia|].
  destruct (Z.ltb_spec (Z.of_nat (k * g) + Z.of_nat g) 0) as [?|_]; [lia|].
  replace (Z.to_nat (Z.of_nat (k * g) `min` Z.of_nat (length l * g)))
    with (k * g) by lia.
  replace (Z.to_nat ((Z.of_nat (k * g) + Z.of_nat g)
                       `min` Z.of_nat (length l * g)
                     - Z.of_nat (k * g) `min` Z.of_nat (length l * g)))
    with g by lia.
  rewrite (drop_bind_const f g l Hf).
  rewrite (drop_S _ _ _ Hx), bind_cons.
  by apply take_app_length'.
Qed.

Lemma int_truediv_parts (t g : nat) :
  t <> 0 ->
  int_truediv (Z.of_nat (t * g)) (Z.of_nat t) = Ok (Z.of_nat g).
Proof.
  intros Ht. unfold int_truediv.
  destruct (Z.eqb_spec (Z.of_nat t) 0) as [?|_]; [lia|].
  f_equal. rewrite Nat2Z.inj_mul, Z.mul_comm. apply Z.quot_mul. lia.
Qed.

Lemma range3_parts (t g : nat) :
  g <> 0 ->
  range3 0 (Z.of_nat (t * g)) (Z.of_nat g)
  = Ok ((fun k => Z.of_nat (k * g)) <$> seq 0 t).
Proof.
  intros Hg. unfold range3.
  destruct (Z.eqb_spec (Z.of_nat g) 0) as [?|_]; [lia|].
  destruct (Z.ltb_spec 0 (Z.of_nat g)) as [_|?]; [|lia].
  f_equal.
  replace ((Z.of_nat (t * g) - 0 + Z.of_nat g - 1) / Z.of_nat g)%Z
    with (Z.of_nat t).
  2:{ apply Z.div_unique with (Z.of_nat g - 1)%Z; lia. }
  unfold seqZ. rewrite Nat2Z.id, <- list_fmap_compose.
  apply list_fmap_ext. intros i k _. simpl. lia.
Qed.

Section builder_loops_more.
Context {F : Type} `{FloatOps F} {V : Type}.

Lemma fold_until_zip_n {S A B C} (step : S -> C -> S) (mk : A -> B -> C)
    (xs : list A) (ys : list B) (n : nat) (s : S) :
  length (zip_with mk xs ys) <= n ->
  fold_until step
    ((fun i => x ← list_getitem xs i; y ← list_getitem ys i; Ok (mk x y))
       <$> seq 0 n) s
  = (if decide (n <= length (zip_with mk xs ys)) then Ok tt
     else Raise IndexError,
     foldl step s (zip_with mk xs ys)).
Proof.
  intros Hn.
  assert ((fun i => x ← list_getitem xs i; y ← list_getitem ys i;
                    Ok (mk x y)) <$> seq 0 n
          = (Ok <$> take n (zip_with mk xs ys))
            ++ replicate (n - length (zip_with mk xs ys)) (Raise IndexError))
    as ->.
  { apply list_eq. intros i. rewrite list_lookup_fmap.
    destruct (decide (i < n)) as [Hi|Hi].
    - rewrite lookup_seq_lt by done.
      cbn [fmap option_fmap option_map Nat.add].
      destruct (decide (i < length (zip_with mk xs ys))) as [Hz|Hz].
      + rewrite lookup_app_l by (rewrite length_fmap, length_take; lia).
        rewrite list_lookup_fmap, lookup_take by done.
        rewrite lookup_zip_with. unfold list_getitem.
        rewrite length_zip_with in Hz.
        destruct (lookup_lt_is_Some_2 xs i ltac:(lia)) as [x ->].
        destruct (lookup_lt_is_Some_2 ys i ltac:(lia)) as [y ->].
        by rewrite decide_True by done.
      + rewrite lookup_app_r by (rewrite length_fmap, length_take; lia).
        rewrite length_fmap, length_take.
        rewrite lookup_replicate_2 by lia.
        unfold list_getitem. rewrite length_zip_with in Hz.
        destruct (xs !! i) as [x|] eqn:Hx; [|done].
        rewrite (proj2 (lookup_ge_None ys i)); [done|].
        apply lookup_lt_Some in Hx. lia.
    - rewrite lookup_seq_ge by lia. symmetry. apply lookup_ge_None.
      rewrite length_app, length_fmap, length_take, length_replicate. lia. }
  rewrite take_ge by done.
  destruct (decide (n <= length (zip_with mk xs ys))) as [Hle|Hgt].
  - replace (n - length (zip_with mk xs ys)) with 0 by lia.
    cbn [replicate]. rewrite app_nil_r. apply fold_until_ok.
  - destruct (n - length (zip_with mk xs ys)) as [|m] eqn:Hm; [lia|].
    cbn [replicate]. apply fold_until_raise.
Qed.

Lemma register_mc_fields (im : InputMaster (F:=F) (V:=V)) o :
  mc (register im (ObjMC o)) = od_setitem (mc_name o) o (mc im)
  /\ mean (register im (ObjMC o)) = mean im
  /\ covar (register im (ObjMC o)) = covar im.
Proof. by rewrite register_cases. Qed.

End builder_loops_more.

Lemma od_setitem_twice {O} key (v1 v2 : O) (d : list (string * O)) :
  od_setitem key v2 (od_setitem key v1 d) = od_setitem key v2 d.
Proof.
  induction d as [|[k x] d IH]; simpl.
  - by rewrite String.eqb_refl.
  - destruct (String.eqb_spec k key) as [->|Hne]; simpl.
    + by rewrite String.eqb_refl.
    + destruct (String.eqb_spec k key); [done|]. by rewrite IH.
Qed.

Section same_name.
Context {F : Type} `{FloatOps F} {V : Type}.

(** Components registered under one name leave at most one new entry. *)
Lemma foldl_register_same_name (key : string)
    (objs : list (pyobj (F:=F) (V:=V))) : forall im,
  Forall (fun obj => exists o, obj = ObjMC o /\ mc_name o = key) objs ->
  let im' := foldl register im objs in
  mean im' = mean im /\ covar im' = covar im
  /\ (mc im' = mc im
      \/ exists o, mc_name o = key /\ mc im' = od_setitem key o (mc im)).
Proof.
  induction objs as [|obj objs IH]; intros im Hall; [by auto|].
  apply Forall_cons in Hall as [(o & -> & Hname) Hall].
  cbn [foldl]. cbn zeta.
  destruct (IH (register im (ObjMC o)) Hall) as (Hmean & Hcovar & Hmc).
  destruct (register_mc_fields im o) as (Hmc1 & Hmean1 & Hcovar1).
  rewrite Hmean, Hcovar, Hmean1, Hcovar1. split; [done|]. split; [done|].
  right. destruct Hmc as [Hmc|(o' & Hname' & Hmc)]; rewrite Hmc, Hmc1, Hname.
  - eauto.
  - exists o'. split; [done|]. apply od_setitem_twice.
Qed.

End same_name.

Lemma bind_singleton_fmap {A B} (f : A -> B) (l : list A) :
  (x ← l; [f x]) = f <$> l.
Proof. induction l as [|x l IH]; [done|]. rewrite bind_cons, IH. done. Qed.

Lemma pattern_fmap {A B} (line : Z -> Z -> A -> B) (tracks : list A)
    num_segs num_subsegs :
  (i ← range num_segs; j ← range num_subsegs; track ← tracks;
   [line i j track])
  = (fun p => line p.1.1 p.1.2 p.2)
      <$> seg_subseg_tracks tracks num_segs num_subsegs.
Proof.
  unfold seg_subseg_tracks.
  induction (range num_segs) as [|i segs IHi]; [done|].
  rewrite !bind_cons, fmap_app, IHi. f_equal. clear IHi.
  induction (range num_subsegs) as [|j js IHj]; [done|].
  rewrite !bind_cons, fmap_app, IHj. f_equal.
  by rewrite !bind_singleton_fmap, <- list_fmap_compose.
Qed.

Lemma items_of_list {A C} (g : A -> C) (l : list A) :
  (fun i => match l !! i with
            | Some p => Ok (g p)
            | None => Raise IndexError
            end) <$> seq 0 (length l)
  = Ok <$> (g <$> l).
Proof.
  apply list_eq. intros i. rewrite !list_lookup_fmap.
  destruct (l !! i) as [p|] eqn:Hp.
  - rewrite lookup_seq_lt by (by eapply lookup_lt_Some). simpl.
    by rewrite Hp.
  - rewrite lookup_seq_ge; [done|]. by apply lookup_ge_None.
Qed.

Section builders_facts.
Context {F : Type} `{FloatOps F} (str_float : F -> string).
Context {V : Type} (str_value : V -> string).
Context (DISTRIBUTION_NORM DISTRIBUTION_ASINH_NORMAL DISTRIBUTION_GAMMA
         : string) (USE_MFSDG : bool).
Context (str_round : F -> Z -> string).
Implicit Types (im : InputMaster (F:=F) (V:=V))
  (self : ParamSpec (V:=V)).

Lemma spec_names_covar self :
  (if negb (COVAR_TIED USE_MFSDG)
   then spec_names self "covar" else spec_names self "tied_covar")
  = Ok ((fun name => "covar_" +:+ name) <$> spec_track_names self).
Proof.
  unfold spec_names. destruct (negb (COVAR_TIED USE_MFSDG));
    eval_kind; by rewrite foldl_append_map.
Qed.

Lemma spec_names_pattern self (prefix : string) :
  prefix ∈ ["mx"; "mean"; "mc_gamma"; "gammascale"; "gammashape"] ->
  spec_names self prefix
  = Ok (seg_subseg_track_names prefix (spec_track_names self)
          (spec_num_segs self) (spec_num_subsegs self)).
Proof.
  intros Hin. unfold spec_names, seg_subseg_track_names.
  repeat (apply elem_of_cons in Hin as [->|Hin]);
    [..|by apply elem_of_nil in Hin];
    eval_kind; by rewrite general_branch_names.
Qed.

(** The covariance builder registers one Covar per track, whether or not
    covariances are tied. *)
Lemma generate_covar_objects_run self im :
  ParamSpec_generate_covar_objects str_value USE_MFSDG self im
  = let im' :=
      foldl register im
        (zip_with (fun track value =>
                     ObjCovar {| covar_name := "covar_" +:+ track;
                                 covar_values := [value] |})
           (spec_track_names self) (spec_vars self)) in
    if decide (length (spec_track_names self) <= length (spec_vars self))
    then (generate_covar str_value im', im')
    else (Raise IndexError, im').
Proof.
  unfold ParamSpec_generate_covar_objects.
  rewrite spec_names_covar.
  unfold mbind at 1 2, prog_bind at 1 2, lift at 1, call.
  set (names := (fun name => "covar_" +:+ name) <$> spec_track_names self).
  rewrite (prog_for_each_register (fun _ => True) _
             (fun i => name ← list_getitem names i;
                       value ← list_getitem (spec_vars self) i;
                       Ok (ObjCovar (Covar_init name [value])))).
  - rewrite fold_until_zip. unfold names.
    rewrite length_fmap, zip_with_fmap_l. cbn zeta.
    by destruct (decide (length (spec_track_names self)
                         <= length (spec_vars self))).
  - intros i im' _. unfold mbind, prog_bind, lift.
    destruct (list_getitem names i) as [name|e]; [|done].
    cbn [result_bind].
    destruct (list_getitem (spec_vars self) i) as [value|e]; done.
  - intros i obj Hitem.
    destruct (list_getitem names i) as [name|e]; [|done].
    cbn [mbind result_bind] in Hitem.
    destruct (list_getitem (spec_vars self) i) as [value|e]; [|done].
    by injection Hitem as <-.
  - done.
  - done.
Qed.

(** The mean builder pairs the names of the pattern with the data by
    position. *)
Lemma generate_mean_objects_run self im :
  ParamSpec_generate_mean_objects str_value self im
  = let names :=
      seg_subseg_track_names "mean" (spec_track_names self)
        (spec_num_segs self) (spec_num_subsegs self) in
    let im' :=
      foldl register im
        (zip_with (fun name value =>
                     ObjMean {| mean_name := name; mean_values := [value] |})
           names (spec_mean_data self)) in
    if decide (length names <= length (spec_mean_data self))
    then (generate_mean str_value im', im')
    else (Raise IndexError, im').
Proof.
  unfold ParamSpec_generate_mean_objects.
  rewrite spec_names_pattern by (repeat constructor).
  unfold mbind at 1 2, prog_bind at 1 2, lift at 1, call.
  set (names := seg_subseg_track_names "mean" (spec_track_names self)
                  (spec_num_segs self) (spec_num_subsegs self)).
  rewrite (prog_for_each_register (fun _ => True) _
             (fun i => name ← list_getitem names i;
                       value ← list_getitem (spec_mean_data self) i;
                       Ok (ObjMean (Mean_init name [value])))).
  - rewrite fold_until_zip. cbn zeta.
    by destruct (decide (length names <= length (spec_mean_data self))).
  - intros i im' _. unfold mbind, prog_bind, lift.
    destruct (list_getitem names i) as [name|e]; [|done].
    cbn [result_bind].
    destruct (list_getitem (spec_mean_data self) i) as [value|e]; done.
  - intros i obj Hitem.
    destruct (list_getitem names i) as [name|e]; [|done].
    cbn [mbind result_bind] in Hitem.
    destruct (list_getitem (spec_mean_data self) i) as [value|e]; [|done].
    by injection Hitem as <-.
  - done.
  - done.
Qed.

(** The DPMF builder: with one mixture component it registers the DPMF
    [dpmf_always] of the single value 1.0; with any other number of
    components and at least one name it raises and registers nothing. *)
Lemma generate_dpmf_objects_single self im :
  spec_num_mix_components self = 1%Z ->
  feqb (py_sum [of_int 1]) (of_int 1) = true ->
  ParamSpec_generate_dpmf_objects str_float str_round self im
  = let im' :=
      register im (ObjDPMF {| dpmf_name := "dpmf_always";
                              dpmf_values := [of_int 1] |}) in
    (generate_dpmf str_float im', im').
Proof.
  intros Hone Hsum. unfold ParamSpec_generate_dpmf_objects, spec_names.
  rewrite Hone. eval_kind. cbn [Z.eqb Pos.eqb].
  unfold mbind, prog_bind, lift, call, list_getitem. cbn [lookup list_lookup].
  unfold DPMF_init. cbn [foldl append app]. rewrite Hsum. cbn [negb].
  unfold input_master_update. by rewrite update_single.
Qed.

Lemma generate_dpmf_objects_mixture self im :
  spec_num_mix_components self <> 1%Z ->
  spec_track_names self <> [] ->
  (1 <= spec_num_segs self)%Z -> (1 <= spec_num_subsegs self)%Z ->
  exists e,
    ParamSpec_generate_dpmf_objects str_float str_round self im = (Raise e, im)
    /\ (e = ZeroDivisionError \/ e = IndexError \/ e = TypeError).
Proof.
  intros Hmix Htracks Hsegs Hsubsegs.
  unfold ParamSpec_generate_dpmf_objects, spec_names.
  destruct (Z.eqb_spec (spec_num_mix_components self) 1) as [?|_]; [done|].
  eval_kind.
  destruct (Z.eqb_spec (spec_num_mix_components self) 1) as [?|_]; [done|].
  rewrite general_branch_names.
  unfold mbind at 1 2, prog_bind at 1 2, lift at 1.
  unfold truediv.
  destruct (Z.eqb_spec (spec_num_mix_components self) 0) as [Hz|Hnz].
  { unfold mbind, prog_bind, lift. eauto. }
  unfold mbind at 1, prog_bind at 1, lift at 1.
  set (names := _ ≫= _).
  assert (exists name rest, names = name :: rest) as (name & rest & Hnames).
  { destruct names as [|name rest] eqn:Hn; [|eauto].
    exfalso. assert (length names = 0) as Hlen by (by rewrite Hn).
    unfold names in Hlen. rewrite length_pattern in Hlen.
    destruct (spec_track_names self); [done|]. simpl in Hlen. nia. }
  rewrite Hnames. cbn [length seq prog_for_each].
  unfold mbind, prog_bind, lift, list_getitem. cbn [lookup list_lookup].
  destruct (chars _ !! 0) as [c|]; cbn; eauto.
Qed.

Lemma spec_names_col self :
  spec_names self "col"
  = Ok ((fun name => "collection_seg_" +:+ name) <$> spec_track_names self).
Proof. unfold spec_names. eval_kind. by rewrite foldl_append_map. Qed.

Lemma spec_names_mx_name self :
  spec_names self "mx_name"
  = Ok (name ← spec_track_names self;
        i ← range (spec_num_segs self); j ← range (spec_num_subsegs self);
        ["mx_seg" +:+ pretty i +:+ "_subseg" +:+ pretty j +:+ "_" +:+ name]).
Proof. unfold spec_names. eval_kind. by rewrite mx_name_branch_names. Qed.

Lemma generate_name_collection_run self im :
  spec_track_names self <> [] ->
  (1 <= spec_num_segs self)%Z -> (1 <= spec_num_subsegs self)%Z ->
  ParamSpec_generate_name_collection self im
  = let im' :=
      foldl register im
        ((fun track =>
            ObjNameCollection
              {| col_name := "collection_seg_" +:+ track;
                 names_in_col :=
                   i ← range (spec_num_segs self);
                   j ← range (spec_num_subsegs self);
                   ["mx_seg" +:+ pretty i +:+ "_subseg" +:+ pretty j
                      +:+ "_" +:+ track] |})
           <$> spec_track_names self) in
    (generate_name_col im', im').
Proof.
  intros Htracks Hsegs Hsubsegs.
  unfold ParamSpec_generate_name_collection.
  rewrite spec_names_col, spec_names_mx_name.
  set (tracks := spec_track_names self) in *.
  set (part := fun name : string =>
         i ← range (spec_num_segs self); j ← range (spec_num_subsegs self);
         ["mx_seg" +:+ pretty i +:+ "_subseg" +:+ pretty j +:+ "_" +:+ name]).
  set (g := Z.to_nat (spec_num_segs self) * Z.to_nat (spec_num_subsegs self)).
  assert (forall name, length (part name) = g) as Hpart.
  { intros name. unfold part.
    rewrite (length_bind_const _ (Z.to_nat (spec_num_subsegs self))).
    { by rewrite length_range. }
    intros i. rewrite (length_bind_const _ 1); [|done].
    rewrite length_range. lia. }
  assert (g <> 0) as Hg by (unfold g; nia).
  assert (length tracks <> 0) as Ht by (by destruct tracks).
  unfold mbind at 1 2 3 4, prog_bind at 1 2 3 4, lift at 1 2.
  change (tracks ≫= _) with (tracks ≫= part).
  rewrite (length_bind_const part g tracks Hpart).
  rewrite int_truediv_parts by done.
  unfold lift at 1. rewrite range3_parts by done. unfold lift at 1.
  assert ((fun i => list_slice (tracks ≫= part) i (i + Z.of_nat g))
            <$> ((fun k => Z.of_nat (k * g)) <$> seq 0 (length tracks))
          = part <$> tracks) as ->.
  { apply list_eq. intros k. rewrite <- list_fmap_compose, !list_lookup_fmap.
    destruct (tracks !! k) as [x|] eqn:Hx.
    - rewrite lookup_seq_lt by (by eapply lookup_lt_Some). simpl.
      f_equal. by apply list_slice_part.
    - rewrite lookup_seq_ge; [done|]. by apply lookup_ge_None. }
  unfold mbind at 1, prog_bind at 1, call.
  set (cols := (fun name => "collection_seg_" +:+ name) <$> tracks).
  replace (length (part <$> tracks)) with (length cols)
    by (unfold cols; by rewrite !length_fmap).
  rewrite (prog_for_each_register (fun _ => True) _
             (fun i => name ← list_getitem cols i;
                       group ← list_getitem (part <$> tracks) i;
                       Ok (ObjNameCollection
                             (NameCollection_init name [inr group])))).
  - rewrite fold_until_zip. unfold cols.
    rewrite !length_fmap, decide_True by done.
    rewrite zip_with_fmap_l, zip_with_fmap_r, zip_with_diag. done.
  - intros i im' _. unfold mbind, prog_bind, lift.
    destruct (list_getitem cols i) as [name|e]; [|done].
    cbn [result_bind].
    destruct (list_getitem (part <$> tracks) i) as [group|e]; done.
  - intros i obj Hitem.
    destruct (list_getitem cols i) as [name|e]; [|done].
    cbn [mbind result_bind] in Hitem.
    destruct (list_getitem (part <$> tracks) i) as [group|e]; [|done].
    by injection Hitem as <-.
  - done.
  - done.
Qed.

Lemma generate_name_collection_no_tracks self im :
  spec_track_names self = [] ->
  ParamSpec_generate_name_collection self im = (Raise ZeroDivisionError, im).
Proof.
  intros Htracks. unfold ParamSpec_generate_name_collection.
  rewrite spec_names_col, spec_names_mx_name, Htracks. done.
Qed.

Lemma generate_name_collection_no_names self im :
  spec_track_names self <> [] ->
  (spec_num_segs self <= 0)%Z \/ (spec_num_subsegs self <= 0)%Z ->
  ParamSpec_generate_name_collection self im
  = (Raise (ValueError "range() arg 3 must not be zero"), im).
Proof.
  intros Htracks Hnone. unfold ParamSpec_generate_name_collection.
  rewrite spec_names_col, spec_names_mx_name.
  unfold mbind at 1 2 3 4, prog_bind at 1 2 3 4, lift at 1 2.
  set (names := _ ≫= _).
  assert (length names = 0) as Hlen.
  { unfold names.
    rewrite (length_mx_name_pattern
               (fun name i j => "mx_seg" +:+ pretty i +:+ "_subseg"
                                +:+ pretty j +:+ "_" +:+ name)).
    destruct Hnone; lia. }
  rewrite Hlen. unfold int_truediv, lift at 1.
  destruct (Z.eqb_spec (Z.of_nat (length (spec_track_names self))) 0)
    as [Hz|_].
  { destruct (spec_track_names self); [done|]. simpl in Hz. lia. }
  rewrite Z.quot_0_l.
  2:{ destruct (spec_track_names self); [done|]. simpl. lia. }
  done.
Qed.

Lemma lookup_list_repeat_singleton {A} (x : A) (n : Z) (i : nat) :
  list_repeat [x] n !! i = if decide (i < Z.to_nat n) then Some x else None.
Proof.
  unfold list_repeat. generalize (Z.to_nat n). clear n. intros n.
  revert i. induction n as [|n IH]; intros i; [done|].
  cbn [replicate mjoin list_join app]. destruct i as [|i]; [done|].
  cbn [lookup list_lookup]. rewrite IH.
  destruct (decide (i < n)), (decide (S i < S n)); done || lia.
Qed.

(** The mixture builder: without a registered DPMF it raises
    ZeroDivisionError and registers nothing; with the one DPMF of a single
    weight it gives every name of the pattern the component registered at
    the same position. *)
Lemma generate_mx_objects_no_dpmf self im :
  dpmf im = [] ->
  ParamSpec_generate_mx_objects self im = (Raise ZeroDivisionError, im).
Proof.
  intros Hdpmf. unfold ParamSpec_generate_mx_objects.
  rewrite spec_names_pattern by (repeat constructor).
  unfold mbind, prog_bind, lift, gets, od_values. by rewrite Hdpmf.
Qed.

Lemma generate_mx_objects_run self im key d :
  dpmf im = [(key, d)] ->
  length (dpmf_values d) = 1 ->
  ParamSpec_generate_mx_objects self im
  = let names :=
      seg_subseg_track_names "mx" (spec_track_names self)
        (spec_num_segs self) (spec_num_subsegs self) in
    let im' :=
      foldl register im
        (zip_with (fun name component =>
                     ObjMX {| mx_name := name; mx_dim := AInt 1;
                              mx_comp := [component]; mx_dpmf := d |})
           names (od_values (mc im))) in
    if decide (length names <= length (mc im))
    then (generate_mx im', im')
    else (Raise IndexError, im').
Proof.
  intros Hdpmf Hone. unfold ParamSpec_generate_mx_objects.
  rewrite spec_names_pattern by (repeat constructor).
  set (names := seg_subseg_track_names "mx" (spec_track_names self)
                  (spec_num_segs self) (spec_num_subsegs self)).
  unfold mbind at 1 2 3 4 5, prog_bind at 1 2 3 4 5, lift at 1 2, gets, call.
  rewrite Hdpmf. unfold int_truediv.
  change (Z.of_nat (length (od_values [(key, d)])) =? 0)%Z with false.
  change (Z.of_nat (length (od_values [(key, d)]))) with 1%Z.
  rewrite Z.quot_1_r.
  change (od_values [(key, d)]) with [d].
  fold (od_values (mc im)).
  rewrite (prog_for_each_register (fun _ => True) _
             (fun i => name ← list_getitem names i;
                       component ← list_getitem (od_values (mc im)) i;
                       Ok (ObjMX {| mx_name := name; mx_dim := AInt 1;
                                    mx_comp := [component];
                                    mx_dpmf := d |}))).
  - rewrite fold_until_zip. cbn zeta. unfold od_values.
    rewrite length_fmap.
    by destruct (decide (length names <= length (mc im))).
  - intros i im' _. unfold mbind, prog_bind, lift, list_getitem.
    rewrite lookup_list_repeat_singleton, Nat2Z.id.
    destruct (names !! i) as [name|] eqn:Hname; [|done].
    rewrite decide_True by (by eapply lookup_lt_Some).
    destruct (od_values (mc im) !! i) as [component|]; [|done].
    unfold MX_init. cbn [length]. rewrite Hone. done.
  - intros i obj Hitem.
    destruct (list_getitem names i) as [name|e]; [|done].
    cbn [mbind result_bind] in Hitem.
    destruct (list_getitem (od_values (mc im)) i) as [c|e]; [|done].
    by injection Hitem as <-.
  - done.
  - done.
Qed.

Lemma spec_names_mc self :
  spec_names self (if USE_MFSDG then "mc_missing" else "mc_diag")
  = Ok (i ← range (spec_num_segs self); j ← range (spec_num_subsegs self);
        name ← spec_track_names self;
        [if USE_MFSDG then ""
         else "mc_" +:+ spec_distribution self +:+ "_seg" +:+ pretty i
              +:+ "_subseg" +:+ pretty j +:+ "_" +:+ name]).
Proof.
  unfold spec_names. destruct USE_MFSDG; eval_kind;
    by rewrite general_branch_names.
Qed.

(** The component builder for a norm-like distribution: the name at each
    position gets the mean registered at that position and the covariance
    at that position of the registered covariances repeated
    [num_segs * num_subsegs] times. *)
Lemma generate_mc_objects_norm_run self im :
  spec_distribution self
    ∈ DISTRIBUTIONS_LIKE_NORM DISTRIBUTION_NORM DISTRIBUTION_ASINH_NORMAL ->
  ParamSpec_generate_mc_objects DISTRIBUTION_NORM DISTRIBUTION_ASINH_NORMAL
    DISTRIBUTION_GAMMA USE_MFSDG self im
  = let names :=
      i ← range (spec_num_segs self); j ← range (spec_num_subsegs self);
      name ← spec_track_names self;
      [if USE_MFSDG then ""
       else "mc_" +:+ spec_distribution self +:+ "_seg" +:+ pretty i
            +:+ "_subseg" +:+ pretty j +:+ "_" +:+ name] in
    let means := od_values (mean im) in
    let covars :=
      list_repeat (od_values (covar im))
        (spec_num_segs self * spec_num_subsegs self) in
    let im' :=
      foldl register im
        (zip_with (fun name_mean covar =>
                     ObjMC {| mc_name := name_mean.1; mc_dim := AInt 1;
                              mc_type := AStr "COMPONENT_TYPE_DIAG_GAUSSIAN";
                              mc_mean := name_mean.2; mc_covar := inr covar;
                              mc_weights := []; mc_gamma_shape := "";
                              mc_gamma_scale := "" |})
           (zip names means) covars) in
    if decide (length names <= length means /\ length names <= length covars)
    then (generate_mc im', im')
    else (Raise IndexError, im').
Proof.
  intros Hnorm. unfold ParamSpec_generate_mc_objects.
  rewrite bool_decide_true by done. cbn zeta.
  rewrite spec_names_mc.
  set (names := range (spec_num_segs self) ≫= _).
  set (means := od_values (mean im)).
  set (covars := list_repeat (od_values (covar im))
                   (spec_num_segs self * spec_num_subsegs self)).
  set (mk := fun (name_mean : string * Mean (V:=V)) (covar : Covar (V:=V)) =>
         ObjMC (F:=F) {| mc_name := name_mean.1; mc_dim := AInt 1;
                  mc_type := AStr "COMPONENT_TYPE_DIAG_GAUSSIAN";
                  mc_mean := name_mean.2; mc_covar := inr covar;
                  mc_weights := []; mc_gamma_shape := "";
                  mc_gamma_scale := "" |}).
  unfold mbind at 1 2 3, prog_bind at 1 2 3, lift at 1, gets at 1, call.
  fold covars.
  rewrite (prog_for_each_register (fun im' => mean im' = mean im) _
             (fun i => name_mean ← list_getitem (zip names means) i;
                       covar ← list_getitem covars i;
                       Ok (mk name_mean covar))).
  - rewrite fold_until_zip_n.
    2:{ rewrite !length_zip_with. lia. }
    rewrite !length_zip_with.
    destruct (decide (length names <= length means
                      /\ length names <= length covars)) as [Hle|Hgt].
    + by rewrite decide_True by lia.
    + by rewrite decide_False by lia.
  - intros i im' Hmean. unfold mbind, prog_bind, lift, gets, list_getitem.
    rewrite lookup_zip_with. unfold od_values. rewrite Hmean.
    fold (od_values (mean im)). fold means.
    destruct (names !! i) as [name|]; [|done]. cbn [mbind option_bind].
    destruct (means !! i) as [m|]; [|done]. cbn [mbind option_bind].
    destruct (covars !! i) as [c|]; done.
  - intros i obj Hitem.
    destruct (list_getitem (zip names means) i) as [nm|e]; [|done].
    cbn [mbind result_bind] in Hitem.
    destruct (list_getitem covars i) as [c|e]; [|done].
    by injection Hitem as <-.
  - intros i im' obj Hitem Hmean.
    destruct (list_getitem (zip names means) i) as [nm|e]; [|done].
    cbn [mbind result_bind] in Hitem.
    destruct (list_getitem covars i) as [c|e]; [|done].
    injection Hitem as <-. unfold mk.
    by rewrite (proj1 (proj2 (register_mc_fields im' _))).
  - done.
Qed.

Lemma generate_mc_objects_missing self im :
  USE_MFSDG = true ->
  spec_distribution self
    ∈ DISTRIBUTIONS_LIKE_NORM DISTRIBUTION_NORM DISTRIBUTION_ASINH_NORMAL ->
  let im' :=
    (ParamSpec_generate_mc_objects DISTRIBUTION_NORM DISTRIBUTION_ASINH_NORMAL
       DISTRIBUTION_GAMMA USE_MFSDG self im).2 in
  mean im' = mean im /\ covar im' = covar im
  /\ (mc im' = mc im
      \/ exists o, mc_name o = "" /\ mc im' = od_setitem "" o (mc im)).
Proof.
  intros Hmfsdg Hnorm. rewrite (generate_mc_objects_norm_run self im Hnorm).
  cbn zeta. rewrite Hmfsdg.
  set (objs := zip_with _ _ _).
  assert (Forall (fun obj => exists o, obj = ObjMC o /\ mc_name o = "") objs)
    as Hall.
  { apply Forall_forall. intros obj Hin.
    apply list_elem_of_lookup in Hin as [i Hi]. unfold objs in Hi.
    apply lookup_zip_with_Some in Hi as ([name m] & c & -> & Hnm & _).
    eexists. split; [reflexivity|]. cbn [mc_name fst].
    apply lookup_zip_with_Some in Hnm as (name' & m' & Heq & Hname & _).
    injection Heq as -> ->.
    apply list_elem_of_lookup_2 in Hname.
    apply list_elem_of_bind in Hname as (i0 & Hname & _).
    apply list_elem_of_bind in Hname as (j0 & Hname & _).
    apply list_elem_of_bind in Hname as (t0 & Hname & _).
    by apply list_elem_of_singleton in Hname. }
  pose proof (foldl_register_same_name "" objs im Hall) as Hsame.
  by destruct (decide _).
Qed.

Lemma generate_mc_objects_gamma self im :
  spec_distribution self
    ∉ DISTRIBUTIONS_LIKE_NORM DISTRIBUTION_NORM DISTRIBUTION_ASINH_NORMAL ->
  spec_distribution self = DISTRIBUTION_GAMMA ->
  ParamSpec_generate_mc_objects DISTRIBUTION_NORM DISTRIBUTION_ASINH_NORMAL
    DISTRIBUTION_GAMMA USE_MFSDG self im
  = let im' :=
      foldl register im
        (gamma_component
           <$> seg_subseg_tracks (spec_track_names self)
                 (spec_num_segs self) (spec_num_subsegs self)) in
    (generate_mc im', im').
Proof.
  intros Hnot Hgamma. unfold ParamSpec_generate_mc_objects.
  rewrite bool_decide_false by done. rewrite Hgamma, String.eqb_refl.
  cbn zeta. rewrite !spec_names_pattern by (repeat constructor).
  unfold seg_subseg_track_names. rewrite !pattern_fmap.
  set (idx := seg_subseg_tracks _ _ _).
  unfold mbind at 1 2 3 4, prog_bind at 1 2 3 4, lift at 1 2 3, call.
  rewrite length_fmap.
  rewrite (prog_for_each_register (fun _ => True) _
             (fun i => match idx !! i with
                       | Some p => Ok (gamma_component p)
                       | None => Raise IndexError
                       end)).
  - rewrite (items_of_list gamma_component idx), fold_until_ok.
    reflexivity.
  - intros i im' _. unfold mbind, prog_bind, lift, list_getitem.
    rewrite !list_lookup_fmap. destruct (idx !! i) as [p|]; [|done].
    reflexivity.
  - intros i obj Hitem. destruct (idx !! i) as [p|]; [|done].
    by injection Hitem as <-.
  - done.
  - done.
Qed.

Lemma generate_mc_objects_other self im :
  spec_distribution self
    ∉ DISTRIBUTIONS_LIKE_NORM DISTRIBUTION_NORM DISTRIBUTION_ASINH_NORMAL ->
  spec_distribution self <> DISTRIBUTION_GAMMA ->
  ParamSpec_generate_mc_objects DISTRIBUTION_NORM DISTRIBUTION_ASINH_NORMAL
    DISTRIBUTION_GAMMA USE_MFSDG self im
  = (generate_mc im, im).
Proof.
  intros Hnot Hgamma. unfold ParamSpec_generate_mc_objects.
  rewrite bool_decide_false by done.
  by destruct (String.eqb_spec (spec_distribution self) DISTRIBUTION_GAMMA).
Qed.

End builders_facts.

Section builders_outcomes.
Context {F : Type} `{FloatOps F} (str_float : F -> string).
Context {V : Type} (str_value : V -> string).
Context (DISTRIBUTION_NORM DISTRIBUTION_ASINH_NORMAL DISTRIBUTION_GAMMA
         : string) (USE_MFSDG : bool).
Context (str_round : F -> Z -> string).
Implicit Types (im : InputMaster (F:=F) (V:=V))
  (self : ParamSpec (V:=V)).

(** X12.  [generate_covar_objects] registers one Covar per track, named
    [covar_<track>] and holding the track's variance, whether or not
    covariances are tied, and returns the rendered covariance block; with
    fewer variances than tracks it registers those it has and raises
    IndexError. *)
Theorem generate_covar_objects_registers self im :
  ParamSpec_generate_covar_objects str_value USE_MFSDG self im
  = let im' :=
      foldl register im
        (zip_with (fun track value =>
                     ObjCovar {| covar_name := "covar_" +:+ track;
                                 covar_values := [value] |})
           (spec_track_names self) (spec_vars self)) in
    if decide (length (spec_track_names self) <= length (spec_vars self))
    then (generate_covar str_value im', im')
    else (Raise IndexError, im').
Proof. apply generate_covar_objects_run. Qed.

(** X13.  [generate_mean_objects] pairs the names
    [mean_seg<i>_subseg<j>_<track>] with the rows of the mean data by
    position and registers a Mean for each pair; with fewer rows than
    names it registers the pairs it has and raises IndexError. *)
Theorem generate_mean_objects_registers self im :
  ParamSpec_generate_mean_objects str_value self im
  = let names :=
      seg_subseg_track_names "mean" (spec_track_names self)
        (spec_num_segs self) (spec_num_subsegs self) in
    let im' :=
      foldl register im
        (zip_with (fun name value =>
                     ObjMean {| mean_name := name; mean_values := [value] |})
           names (spec_mean_data self)) in
    if decide (length names <= length (spec_mean_data self))
    then (generate_mean str_value im', im')
    else (Raise IndexError, im').
Proof. apply generate_mean_objects_run. Qed.

(** X14.  [generate_dpmf_objects]: with one mixture component it
    registers the DPMF [dpmf_always] of the single value 1.0 and returns
    the rendered block; with any other number of components, and at least
    one name, it raises (ZeroDivisionError, IndexError or TypeError) and
    leaves the registry as it was. *)
Theorem generate_dpmf_objects_outcome self im :
  (spec_num_mix_components self = 1%Z ->
   feqb (py_sum [of_int 1]) (of_int 1) = true ->
   ParamSpec_generate_dpmf_objects str_float str_round self im
   = let im' :=
       register im (ObjDPMF {| dpmf_name := "dpmf_always";
                               dpmf_values := [of_int 1] |}) in
     (generate_dpmf str_float im', im'))
  /\ (spec_num_mix_components self <> 1%Z ->
      spec_track_names self <> [] ->
      (1 <= spec_num_segs self)%Z -> (1 <= spec_num_subsegs self)%Z ->
      exists e,
        ParamSpec_generate_dpmf_objects str_float str_round self im
        = (Raise e, im)
        /\ (e = ZeroDivisionError \/ e = IndexError \/ e = TypeError)).
Proof.
  split.
  - apply generate_dpmf_objects_single.
  - apply generate_dpmf_objects_mixture.
Qed.

(** X15.  [generate_name_collection]: with at least one track, segment and
    subsegment it registers, per track in order, the NameCollection
    [collection_seg_<track>] that holds that track's names
    [mx_seg<i>_subseg<j>_<track>] in (seg, subseg) order, and returns the
    rendered block; without tracks it raises ZeroDivisionError, and with
    tracks but no segment or no subsegment it raises ValueError, the
    registry left as it was in both cases. *)
Theorem generate_name_collection_groups self im :
  (spec_track_names self <> [] ->
   (1 <= spec_num_segs self)%Z -> (1 <= spec_num_subsegs self)%Z ->
   ParamSpec_generate_name_collection self im
   = let im' :=
       foldl register im
         ((fun track =>
             ObjNameCollection
               {| col_name := "collection_seg_" +:+ track;
                  names_in_col :=
                    i ← range (spec_num_segs self);
                    j ← range (spec_num_subsegs self);
                    ["mx_seg" +:+ pretty i +:+ "_subseg" +:+ pretty j
                       +:+ "_" +:+ track] |})
            <$> spec_track_names self) in
     (generate_name_col im', im'))
  /\ (spec_track_names self = [] ->
      ParamSpec_generate_name_collection self im
      = (Raise ZeroDivisionError, im))
  /\ (spec_track_names self <> [] ->
      (spec_num_segs self <= 0)%Z \/ (spec_num_subsegs self <= 0)%Z ->
      ParamSpec_generate_name_collection self im
      = (Raise (ValueError "range() arg 3 must not be zero"), im)).
Proof.
  split; [|split].
  - apply generate_name_collection_run.
  - apply generate_name_collection_no_tracks.
  - apply generate_name_collection_no_names.
Qed.

(** X16.  [generate_mx_objects]: without a registered DPMF it raises
    ZeroDivisionError and leaves the registry as it was; with the one DPMF
    of a single weight it gives the name at each position of the pattern
    [mx_seg<i>_subseg<j>_<track>] the component registered at the same
    position, and raises IndexError after the registered components run
    out. *)
Theorem generate_mx_objects_pairs self im :
  (dpmf im = [] ->
   ParamSpec_generate_mx_objects self im = (Raise ZeroDivisionError, im))
  /\ (forall key d,
        dpmf im = [(key, d)] ->
        length (dpmf_values d) = 1 ->
        ParamSpec_generate_mx_objects self im
        = let names :=
            seg_subseg_track_names "mx" (spec_track_names self)
              (spec_num_segs self) (spec_num_subsegs self) in
          let im' :=
            foldl register im
              (zip_with (fun name component =>
                           ObjMX {| mx_name := name; mx_dim := AInt 1;
                                    mx_comp := [component]; mx_dpmf := d |})
                 names (od_values (mc im))) in
          if decide (length names <= length (mc im))
          then (generate_mx im', im')
          else (Raise IndexError, im')).
Proof.
  split.
  - apply generate_mx_objects_no_dpmf.
  - apply generate_mx_objects_run.
Qed.

(** X17.  [generate_mc_objects] for a norm-like distribution: the name at
    each position gets the mean registered at that position and the
    covariance at that position of the registered covariances repeated
    [num_segs * num_subsegs] times; it raises IndexError, with the
    components built so far registered, when the means or the repeated
    covariances are fewer than the names. *)
Theorem generate_mc_objects_norm self im :
  spec_distribution self
    ∈ DISTRIBUTIONS_LIKE_NORM DISTRIBUTION_NORM DISTRIBUTION_ASINH_NORMAL ->
  ParamSpec_generate_mc_objects DISTRIBUTION_NORM DISTRIBUTION_ASINH_NORMAL
    DISTRIBUTION_GAMMA USE_MFSDG self im
  = let names :=
      i ← range (spec_num_segs self); j ← range (spec_num_subsegs self);
      name ← spec_track_names self;
      [if USE_MFSDG then ""
       else "mc_" +:+ spec_distribution self +:+ "_seg" +:+ pretty i
            +:+ "_subseg" +:+ pretty j +:+ "_" +:+ name] in
    let means := od_values (mean im) in
    let covars :=
      list_repeat (od_values (covar im))
        (spec_num_segs self * spec_num_subsegs self) in
    let im' :=
      foldl register im
        (zip_with (fun name_mean covar =>
                     ObjMC {| mc_name := name_mean.1; mc_dim := AInt 1;
                              mc_type := AStr "COMPONENT_TYPE_DIAG_GAUSSIAN";
                              mc_mean := name_mean.2; mc_covar := inr covar;
                              mc_weights := []; mc_gamma_shape := "";
                              mc_gamma_scale := "" |})
           (zip names means) covars) in
    if decide (length names <= length means /\ length names <= length covars)
    then (generate_mc im', im')
    else (Raise IndexError, im').
Proof. apply generate_mc_objects_norm_run. Qed.

(** X18.  Under MFSDG every component of a norm-like distribution is
    named by the empty string, so [generate_mc_objects] leaves at most one
    component in the registry however many names the pattern has: the
    mapping of components is as before, or as before with the one key
    [""] set. *)
Theorem generate_mc_objects_missing_collapse self im :
  USE_MFSDG = true ->
  spec_distribution self
    ∈ DISTRIBUTIONS_LIKE_NORM DISTRIBUTION_NORM DISTRIBUTION_ASINH_NORMAL ->
  let im' :=
    (ParamSpec_generate_mc_objects DISTRIBUTION_NORM DISTRIBUTION_ASINH_NORMAL
       DISTRIBUTION_GAMMA USE_MFSDG self im).2 in
  mean im' = mean im /\ covar im' = covar im
  /\ (mc im' = mc im
      \/ exists o, mc_name o = "" /\ mc im' = od_setitem "" o (mc im)).
Proof. apply generate_mc_objects_missing. Qed.

(** X19.  [generate_mc_objects] for the gamma distribution registers, for
    every (seg, subseg, track) in that order, a component
    [mc_gamma_seg<i>_subseg<j>_<track>] with the shape and scale names of
    the same indices and the default mean and covariance, and cannot
    raise; for a distribution that is neither norm-like nor gamma it
    registers nothing and renders the components already there. *)
Theorem generate_mc_objects_gamma_registers self im :
  (spec_distribution self
     ∉ DISTRIBUTIONS_LIKE_NORM DISTRIBUTION_NORM DISTRIBUTION_ASINH_NORMAL ->
   spec_distribution self = DISTRIBUTION_GAMMA ->
   ParamSpec_generate_mc_objects DISTRIBUTION_NORM DISTRIBUTION_ASINH_NORMAL
     DISTRIBUTION_GAMMA USE_MFSDG self im
   = let im' :=
       foldl register im
         (gamma_component
            <$> seg_subseg_tracks (spec_track_names self)
                  (spec_num_segs self) (spec_num_subsegs self)) in
     (generate_mc im', im'))
  /\ (spec_distribution self
        ∉ DISTRIBUTIONS_LIKE_NORM DISTRIBUTION_NORM
            DISTRIBUTION_ASINH_NORMAL ->
      spec_distribution self <> DISTRIBUTION_GAMMA ->
      ParamSpec_generate_mc_objects DISTRIBUTION_NORM
        DISTRIBUTION_ASINH_NORMAL DISTRIBUTION_GAMMA USE_MFSDG self im
      = (generate_mc im, im)).
Proof.
  split.
  - apply generate_mc_objects_gamma.
  - apply generate_mc_objects_other.
Qed.

End builders_outcomes.

(** ** The builders, one after the other *)

Lemma od_setitem_fresh {O} key (v : O) (d : list (string * O)) :
  key ∉ od_keys d -> od_setitem key v d = d ++ [(key, v)].
Proof.
  induction d as [|[k x] d IH]; intros Hnew; [done|].
  cbn [od_setitem app].
  destruct (String.eqb_spec k key) as [->|Hne].
  - exfalso. apply Hnew. apply list_elem_of_here.
  - rewrite IH; [done|]. intros Hin. apply Hnew. by apply list_elem_of_further.
Qed.

Lemma foldl_od_setitem_fresh {O} (key : O -> string) (xs : list O) :
  forall d : list (string * O),
  NoDup (od_keys d ++ (key <$> xs)) ->
  foldl (fun d x => od_setitem (key x) x d) d xs
  = d ++ ((fun x => (key x, x)) <$> xs).
Proof.
  induction xs as [|x xs IH]; intros d Hnd; [by rewrite app_nil_r|].
  cbn [foldl fmap list_fmap] in *.
  apply NoDup_app in Hnd as (Hd & Hdisj & Hxs).
  apply NoDup_cons in Hxs as [Hx Hxs].
  rewrite od_setitem_fresh.
  2:{ intros Hin. apply (Hdisj _ Hin). apply list_elem_of_here. }
  rewrite IH.
  - by rewrite <- app_assoc.
  - unfold od_keys. rewrite fmap_app. cbn [fmap list_fmap fst].
    rewrite <- app_assoc. cbn [app]. apply NoDup_app. split; [done|].
    split.
    + intros k Hk Hin. apply (Hdisj k Hk). done.
    + by apply NoDup_cons.
Qed.

Section register_lists.
Context {F : Type} `{FloatOps F} {V : Type}.
Implicit Types (im : InputMaster (F:=F) (V:=V)).

Lemma foldl_register_means (ms : list (Mean (V:=V))) : forall im,
  foldl register im (ObjMean <$> ms)
  = {| mean := foldl (fun d m => od_setitem (mean_name m) m d) (mean im) ms;
       covar := covar im; dense := dense im;
       deterministic := deterministic im; dpmf := dpmf im;
       mc := mc im; mx := mx im; name_collection := name_collection im |}.
Proof.
  induction ms as [|m ms IH]; intros im; [by destruct im|].
  cbn [fmap list_fmap foldl]. rewrite IH, register_cases. done.
Qed.

Lemma foldl_register_covars (cs : list (Covar (V:=V))) : forall im,
  foldl register im (ObjCovar <$> cs)
  = {| mean := mean im;
       covar := foldl (fun d c => od_setitem (covar_name c) c d) (covar im) cs;
       dense := dense im;
       deterministic := deterministic im; dpmf := dpmf im;
       mc := mc im; mx := mx im; name_collection := name_collection im |}.
Proof.
  induction cs as [|c cs IH]; intros im; [by destruct im|].
  cbn [fmap list_fmap foldl]. rewrite IH, register_cases. done.
Qed.

Lemma foldl_register_mcs (os : list (MC (F:=F) (V:=V))) : forall im,
  foldl register im (ObjMC <$> os)
  = {| mean := mean im; covar := covar im; dense := dense im;
       deterministic := deterministic im; dpmf := dpmf im;
       mc := foldl (fun d o => od_setitem (mc_name o) o d) (mc im) os;
       mx := mx im; name_collection := name_collection im |}.
Proof.
  induction os as [|o os IH]; intros im; [by destruct im|].
  cbn [fmap list_fmap foldl]. rewrite IH, register_cases. done.
Qed.

Lemma foldl_register_mxs (os : list (MX (F:=F) (V:=V))) : forall im,
  foldl register im (ObjMX <$> os)
  = {| mean := mean im; covar := covar im; dense := dense im;
       deterministic := deterministic im; dpmf := dpmf im;
       mc := mc im;
       mx := foldl (fun d o => od_setitem (mx_name o) o d) (mx im) os;
       name_collection := name_collection im |}.
Proof.
  induction os as [|o os IH]; intros im; [by destruct im|].
  cbn [fmap list_fmap foldl]. rewrite IH, register_cases. done.
Qed.

End register_lists.

(** Three lists read off one list of indices, zipped position by
    position. *)
Lemma zip_with_same_index {A B C D E G}
    (mk : C * D -> E -> G) (f1 : A -> C) (g : A -> B -> D) (h : A -> E)
    (l : list A) : forall (d : list B),
  zip_with mk (zip (f1 <$> l) (zip_with g l d)) (h <$> l)
  = zip_with (fun p v => mk (f1 p, g p v) (h p)) l d.
Proof.
  induction l as [|p l IH]; intros d; [done|].
  destruct d as [|v d]; [done|].
  cbn [fmap list_fmap zip_with]. by rewrite <- IH.
Qed.

Lemma bind_fmap_singleton {A B C} (f : A -> B) (g : B -> C) (l : list A) :
  (x ← f <$> l; [g x]) = (x ← l; [g (f x)]).
Proof. by rewrite !bind_singleton_fmap, <- list_fmap_compose. Qed.

(** The pattern over the tracks of a list of (track, value) pairs. *)
Lemma pattern_fmap_fst {A B} (line : Z -> Z -> string -> B)
    (pairs : list (string * A)) num_segs num_subsegs :
  (i ← range num_segs; j ← range num_subsegs; name ← pairs.*1;
   [line i j name])
  = (fun p => line p.1.1 p.1.2 p.2.1)
      <$> seg_subseg_tracks pairs num_segs num_subsegs.
Proof.
  rewrite <- (pattern_fmap (fun i j (x : string * A) => line i j x.1)).
  induction (range num_segs) as [|i segs IHi]; [done|].
  rewrite !bind_cons, IHi. f_equal. clear IHi.
  induction (range num_subsegs) as [|j js IHj]; [done|].
  rewrite !bind_cons, IHj. f_equal.
  apply bind_fmap_singleton.
Qed.

Lemma bind_const {A B} (f : A -> list B) (ys : list B) (l : list A) :
  (forall x, f x = ys) -> l ≫= f = mjoin (replicate (length l) ys).
Proof.
  intros Hf. induction l as [|x l IH]; [done|].
  rewrite bind_cons, Hf, IH. done.
Qed.

Lemma join_replicate_mul {A} (xs : list A) (s u : nat) :
  mjoin (replicate s (mjoin (replicate u xs))) = mjoin (replicate (s * u) xs).
Proof.
  induction s as [|s IH]; [done|].
  cbn [replicate Nat.mul]. rewrite replicate_add, join_app, <- IH. done.
Qed.

(** A list repeated once per (seg, subseg). *)
Lemma list_repeat_pattern {A} (xs : list A) (num_segs num_subsegs : Z) :
  (0 <= num_segs)%Z -> (0 <= num_subsegs)%Z ->
  list_repeat xs (num_segs * num_subsegs)
  = (fun p => p.2) <$> seg_subseg_tracks xs num_segs num_subsegs.
Proof.
  intros Hs Hu.
  rewrite <- (pattern_fmap (fun _ _ (x : A) => x)).
  unfold list_repeat. rewrite Z2Nat.inj_mul by done.
  rewrite (bind_const _ (mjoin (replicate (Z.to_nat num_subsegs) xs))).
  - by rewrite length_range, join_replicate_mul.
  - intros _. rewrite (bind_const _ xs).
    + by rewrite length_range.
    + intros _. rewrite bind_singleton_fmap. apply list_fmap_id.
Qed.

Lemma list_repeat_fmap_pattern {A B} (f : A -> B) (xs : list A)
    (num_segs num_subsegs : Z) :
  (0 <= num_segs)%Z -> (0 <= num_subsegs)%Z ->
  list_repeat (f <$> xs) (num_segs * num_subsegs)
  = (fun p => f p.2) <$> seg_subseg_tracks xs num_segs num_subsegs.
Proof.
  intros Hs Hu. rewrite list_repeat_pattern by done.
  rewrite <- (pattern_fmap (fun _ _ (x : B) => x)).
  rewrite <- (pattern_fmap (fun _ _ (x : A) => f x)).
  induction (range num_segs) as [|i segs IHi]; [done|].
  rewrite !bind_cons, IHi. f_equal. clear IHi.
  induction (range num_subsegs) as [|j js IHj]; [done|].
  rewrite !bind_cons, IHj. f_equal. apply (bind_fmap_singleton f id).
Qed.

Lemma length_seg_subseg_tracks {A} (xs : list A) (num_segs num_subsegs : Z) :
  length (seg_subseg_tracks xs num_segs num_subsegs)
  = Z.to_nat num_segs * Z.to_nat num_subsegs * length xs.
Proof.
  unfold seg_subseg_tracks.
  rewrite (length_bind_const _ (Z.to_nat num_subsegs * length xs)).
  { rewrite length_range. lia. }
  intros i. rewrite (length_bind_const _ (length xs)).
  { by rewrite length_range. }
  intros j. rewrite (length_bind_const _ 1); [lia|done].
Qed.

Lemma fmap_zip_with {A B C D} (w : C -> D) (h : A -> B -> C) (l : list A) :
  forall d : list B,
  w <$> zip_with h l d = zip_with (fun x y => w (h x y)) l d.
Proof.
  induction l as [|x l IH]; intros [|y d]; try done.
  cbn [zip_with fmap list_fmap]. by rewrite <- IH.
Qed.

Lemma zip_with_const_r {A B C} (g : A -> C) (l : list A) :
  forall d : list B,
  length l <= length d -> zip_with (fun x _ => g x) l d = g <$> l.
Proof.
  induction l as [|x l IH]; intros [|y d] Hlen; try done.
  - cbn [length] in Hlen. lia.
  - cbn [zip_with fmap list_fmap]. rewrite IH; [done|].
    cbn [length] in Hlen. lia.
Qed.

(** Registering, into an empty mapping, objects built from distinct
    names: the mapping lists them in order. *)
Lemma od_of_fresh_zip {O A B} (key : O -> string) (h : A -> B -> O)
    (g : A -> string) (l : list A) (d : list B) :
  (forall p v, key (h p v) = g p) ->
  length l <= length d -> NoDup (g <$> l) ->
  foldl (fun d x => od_setitem (key x) x d) [] (zip_with h l d)
  = (fun o => (key o, o)) <$> zip_with h l d.
Proof.
  intros Hkey Hlen Hnd.
  rewrite foldl_od_setitem_fresh; [done|].
  cbn [od_keys fmap list_fmap app]. rewrite fmap_zip_with.
  rewrite <- (zip_with_const_r g l d Hlen) in Hnd.
  replace (zip_with (fun x y => key (h x y)) l d)
    with (zip_with (fun x (_ : B) => g x) l d); [done|].
  apply zip_with_ext; [|done..]. intros. by rewrite Hkey.
Qed.

Lemma od_values_keyed {O} (key : O -> string) (xs : list O) :
  od_values ((fun o => (key o, o)) <$> xs) = xs.
Proof.
  unfold od_values. rewrite <- list_fmap_compose. apply list_fmap_id.
Qed.

Lemma od_keys_keyed {O} (key : O -> string) (xs : list O) :
  od_keys ((fun o => (key o, o)) <$> xs) = key <$> xs.
Proof. unfold od_keys. by rewrite <- list_fmap_compose. Qed.

(** The names of the general pattern over the tracks of (track, value)
    pairs are distinct when the tracks are. *)
Lemma NoDup_pattern_names {A} (prefix : string) (pairs : list (string * A))
    num_segs num_subsegs :
  NoDup pairs.*1 ->
  NoDup ((fun p : Z * Z * (string * A) =>
            prefix +:+ "_seg" +:+ pretty p.1.1 +:+ "_subseg"
              +:+ pretty p.1.2 +:+ "_" +:+ p.2.1)
           <$> seg_subseg_tracks pairs num_segs num_subsegs).
Proof.
  intros Hnd.
  rewrite <- (pattern_fmap_fst
                (fun i j name => prefix +:+ "_seg" +:+ pretty i +:+ "_subseg"
                                   +:+ pretty j +:+ "_" +:+ name)).
  apply NoDup_pattern; [|done].
  intros i j name i' j' name'. apply seg_subseg_name_inj.
Qed.

Lemma zip_with_nested_r {A B C D} (g : A -> C -> D) (h : A -> B -> C)
    (l : list A) : forall d : list B,
  zip_with g l (zip_with h l d) = zip_with (fun p v => g p (h p v)) l d.
Proof.
  induction l as [|p l IH]; intros [|v d]; try done.
  cbn [zip_with]. by rewrite IH.
Qed.

Section pipeline.
Context {F : Type} `{FloatOps F} (str_float : F -> string).
Context {V : Type} (str_value : V -> string).
Context (DISTRIBUTION_NORM DISTRIBUTION_ASINH_NORMAL DISTRIBUTION_GAMMA
         : string).
Context (str_round : F -> Z -> string).
Implicit Types (im : InputMaster (F:=F) (V:=V))
  (self : ParamSpec (V:=V)).

Lemma total_renders {O} (g : O -> nat -> string) (o : O) (i : nat) :
  exists t, total g o i = Ok t.
Proof. by exists (g o i). Qed.

(** The builders in the order [make_mapping] calls them for a norm-like
    distribution without MFSDG, from a registry that holds none of their
    objects. *)
Lemma norm_builders_run self im :
  spec_distribution self
    ∈ DISTRIBUTIONS_LIKE_NORM DISTRIBUTION_NORM DISTRIBUTION_ASINH_NORMAL ->
  spec_num_mix_components self = 1%Z ->
  feqb (py_sum [of_int 1]) (of_int 1) = true ->
  (0 <= spec_num_segs self)%Z -> (0 <= spec_num_subsegs self)%Z ->
  NoDup (spec_track_names self) ->
  length (spec_track_names self) <= length (spec_vars self) ->
  Z.to_nat (spec_num_segs self) * Z.to_nat (spec_num_subsegs self)
    * length (spec_track_names self) <= length (spec_mean_data self) ->
  mean im = [] -> covar im = [] -> mc im = [] -> dpmf im = [] ->
  mx im = [] ->
  exists block im',
    (_ ← ParamSpec_generate_mean_objects str_value self;
     _ ← ParamSpec_generate_covar_objects str_value false self;
     _ ← ParamSpec_generate_mc_objects DISTRIBUTION_NORM
           DISTRIBUTION_ASINH_NORMAL DISTRIBUTION_GAMMA false self;
     _ ← ParamSpec_generate_dpmf_objects str_float str_round self;
     ParamSpec_generate_mx_objects self) im
    = (Ok block, im')
    /\ mx im'
       = (fun o => (mx_name o, o))
           <$> zip_with (wired_mixture (spec_distribution self))
                 (seg_subseg_tracks
                    (zip (spec_track_names self) (spec_vars self))
                    (spec_num_segs self) (spec_num_subsegs self))
                 (spec_mean_data self).
Proof.
  intros Hnorm Hone Hsum Hs Hu Hnd Hvars Hdata Hmean Hcovar Hmc Hdpmf Hmx.
  set (tv := zip (spec_track_names self) (spec_vars self)).
  assert (spec_track_names self = tv.*1) as Htracks.
  { symmetry. by apply fst_zip. }
  assert (length tv = length (spec_track_names self)) as Htv.
  { unfold tv. rewrite length_zip. lia. }
  set (idx := seg_subseg_tracks tv (spec_num_segs self)
                (spec_num_subsegs self)).
  assert (length idx <= length (spec_mean_data self)) as Hidx.
  { unfold idx. rewrite length_seg_subseg_tracks, Htv. done. }
  pose (name := fun (prefix : string) (p : Z * Z * (string * V)) =>
          prefix +:+ "_seg" +:+ pretty p.1.1 +:+ "_subseg"
            +:+ pretty p.1.2 +:+ "_" +:+ p.2.1).
  assert (forall prefix,
            seg_subseg_track_names prefix (spec_track_names self)
              (spec_num_segs self) (spec_num_subsegs self)
            = name prefix <$> idx) as Hnames.
  { intros prefix. unfold seg_subseg_track_names. rewrite Htracks.
    apply (pattern_fmap_fst
             (fun i j name => prefix +:+ "_seg" +:+ pretty i +:+ "_subseg"
                                +:+ pretty j +:+ "_" +:+ name)). }
  assert (forall prefix, NoDup (name prefix <$> idx)) as Hdistinct.
  { intros prefix. apply NoDup_pattern_names. by rewrite <- Htracks. }
  (* the means *)
  unfold mbind at 1, prog_bind at 1.
  rewrite generate_mean_objects_run. cbn zeta.
  rewrite (Hnames "mean").
  rewrite decide_True by (by rewrite length_fmap).
  rewrite zip_with_fmap_l.
  set (hmean := fun (p : Z * Z * (string * V)) (value : V) =>
         {| mean_name := name "mean" p; mean_values := [value] |}).
  rewrite <- (fmap_zip_with ObjMean hmean).
  set (ms := zip_with hmean idx (spec_mean_data self)).
  pose proof (foldl_register_means ms im) as Him1.
  set (im1 := foldl register im (ObjMean <$> ms)) in *.
  assert (mean im1 = (fun o => (mean_name o, o)) <$> ms) as Hmean1.
  { rewrite Him1. cbn [mean]. rewrite Hmean.
    by apply (od_of_fresh_zip mean_name hmean (name "mean")). }
  assert (covar im1 = [] /\ mc im1 = [] /\ dpmf im1 = [] /\ mx im1 = [])
    as (Hcovar1 & Hmc1 & Hdpmf1 & Hmx1).
  { rewrite Him1. cbn [covar mc dpmf mx]. done. }
  clearbody im1. clear Him1.
  destruct (generate_kind_total "MEAN_IN_FILE inline"
              (total (Mean_generate str_value)) (mean im1)) as [b1 Hb1].
  { rewrite Hmean1, od_keys_keyed. unfold ms.
    rewrite fmap_zip_with. cbn [hmean mean_name].
    rewrite zip_with_const_r by done. apply Hdistinct. }
  { apply total_renders. }
  unfold generate_mean at 1. rewrite Hb1.
  (* the covariances *)
  unfold mbind at 1, prog_bind at 1.
  rewrite generate_covar_objects_run. cbn zeta.
  rewrite decide_True by done.
  rewrite zip_with_zip. fold tv.
  set (hcovar := fun (t : string * V) =>
         {| covar_name := "covar_" +:+ t.1; covar_values := [t.2] |}).
  replace (uncurry _ <$> tv)
    with (ObjCovar (F:=F) (V:=V) <$> (hcovar <$> tv)).
  2:{ rewrite <- list_fmap_compose. apply list_fmap_ext. by intros i [t v] _. }
  set (cs := hcovar <$> tv).
  pose proof (foldl_register_covars cs im1) as Him2.
  set (im2 := foldl register im1 (ObjCovar <$> cs)) in *.
  assert (covar im2 = (fun o => (covar_name o, o)) <$> cs) as Hcovar2.
  { rewrite Him2. cbn [covar]. rewrite Hcovar1.
    rewrite foldl_od_setitem_fresh; [done|].
    cbn [od_keys fmap list_fmap app]. unfold cs.
    rewrite <- list_fmap_compose.
    change (covar_name ∘ hcovar)
      with (String.append "covar_" ∘ (fst : string * V -> string)).
    rewrite list_fmap_compose, <- Htracks.
    by apply (NoDup_fmap_2 _). }
  assert (mean im2 = mean im1 /\ mc im2 = [] /\ dpmf im2 = [] /\ mx im2 = [])
    as (Hmean2 & Hmc2 & Hdpmf2 & Hmx2).
  { rewrite Him2. cbn [mean mc dpmf mx]. done. }
  clearbody im2. clear Him2.
  destruct (generate_kind_total "COVAR_IN_FILE inline"
              (total (Covar_generate str_value)) (covar im2)) as [b2 Hb2].
  { rewrite Hcovar2, od_keys_keyed. unfold cs.
    rewrite <- list_fmap_compose.
    change (covar_name ∘ hcovar)
      with (String.append "covar_" ∘ (fst : string * V -> string)).
    rewrite list_fmap_compose, <- Htracks.
    by apply (NoDup_fmap_2 _). }
  { apply total_renders. }
  unfold generate_covar at 1. rewrite Hb2.
  (* the components *)
  unfold mbind at 1, prog_bind at 1.
  rewrite (generate_mc_objects_norm_run _ _ _ _ _ _ Hnorm). cbn zeta.
  change (range (spec_num_segs self) ≫= _)
    with (seg_subseg_track_names ("mc_" +:+ spec_distribution self)
            (spec_track_names self) (spec_num_segs self)
            (spec_num_subsegs self)).
  rewrite (Hnames ("mc_" +:+ spec_distribution self)).
  rewrite Hmean2, Hmean1, Hcovar2, !od_values_keyed.
  unfold cs. rewrite (list_repeat_fmap_pattern hcovar tv) by done.
  fold idx. unfold ms.
  rewrite (zip_with_same_index _ (name ("mc_" +:+ spec_distribution self))
             hmean (fun p => hcovar p.2) idx).
  rewrite decide_True.
  2:{ rewrite !length_fmap, length_zip_with. lia. }
  set (hmc := fun (p : Z * Z * (string * V)) (value : V) =>
         {| mc_name := name ("mc_" +:+ spec_distribution self) p;
            mc_dim := AInt 1;
            mc_type := AStr "COMPONENT_TYPE_DIAG_GAUSSIAN";
            mc_mean := hmean p value; mc_covar := inr (hcovar p.2);
            mc_weights := ([] : list F); mc_gamma_shape := "";
            mc_gamma_scale := "" |}).
  rewrite <- (fmap_zip_with ObjMC hmc).
  set (os := zip_with hmc idx (spec_mean_data self)).
  pose proof (foldl_register_mcs os im2) as Him3.
  set (im3 := foldl register im2 (ObjMC <$> os)) in *.
  assert (NoDup (mc_name <$> os)) as Hosnd.
  { unfold os. rewrite fmap_zip_with. cbn [hmc mc_name].
    rewrite zip_with_const_r by done. apply Hdistinct. }
  assert (mc im3 = (fun o => (mc_name o, o)) <$> os) as Hmc3.
  { rewrite Him3. cbn [mc]. rewrite Hmc2.
    by rewrite foldl_od_setitem_fresh. }
  assert (dpmf im3 = [] /\ mx im3 = []) as (Hdpmf3 & Hmx3).
  { rewrite Him3. cbn [dpmf mx]. done. }
  clearbody im3. clear Him3.
  destruct (generate_kind_total "MC_IN_FILE inline"
              (total MC_generate) (mc im3)) as [b3 Hb3].
  { by rewrite Hmc3, od_keys_keyed. }
  { apply total_renders. }
  unfold generate_mc at 1. rewrite Hb3.
  (* the DPMF *)
  unfold mbind at 1, prog_bind at 1.
  rewrite (generate_dpmf_objects_single _ _ _ _ Hone Hsum). cbn zeta.
  set (always := {| dpmf_name := "dpmf_always";
                    dpmf_values := [of_int 1] |}).
  pose proof (register_cases im3 (ObjDPMF always)) as Him4.
  set (im4 := register im3 (ObjDPMF always)) in *.
  assert (dpmf im4 = [("dpmf_always", always)] /\ mc im4 = mc im3
          /\ mx im4 = []) as (Hdpmf4 & Hmc4 & Hmx4).
  { rewrite Him4. cbn [dpmf mc mx]. rewrite Hdpmf3. done. }
  clearbody im4. clear Him4.
  destruct (generate_kind_total "DPMF_IN_FILE inline"
              (total (DPMF_generate str_float)) (dpmf im4)) as [b4 Hb4].
  { rewrite Hdpmf4. apply NoDup_singleton. }
  { apply total_renders. }
  unfold generate_dpmf at 1. rewrite Hb4.
  (* the mixtures *)
  rewrite (generate_mx_objects_run self im4 "dpmf_always" always Hdpmf4 eq_refl).
  cbn zeta. rewrite (Hnames "mx"), Hmc4, Hmc3, od_values_keyed.
  rewrite decide_True.
  2:{ unfold os. rewrite !length_fmap, length_zip_with. lia. }
  unfold os. rewrite zip_with_fmap_l, zip_with_nested_r.
  set (xs := zip_with (wired_mixture (spec_distribution self)) idx
               (spec_mean_data self)).
  change (zip_with _ idx (spec_mean_data self))
    with (zip_with (fun p v => ObjMX (wired_mixture (F:=F)
                                        (spec_distribution self) p v))
            idx (spec_mean_data self)).
  rewrite <- (fmap_zip_with ObjMX (wired_mixture (spec_distribution self))).
  fold xs.
  pose proof (foldl_register_mxs xs im4) as Him5.
  set (im5 := foldl register im4 (ObjMX <$> xs)) in *.
  assert (NoDup (mx_name <$> xs)) as Hxsnd.
  { unfold xs. rewrite fmap_zip_with.
    change (zip_with _ idx (spec_mean_data self))
      with (zip_with (fun p (_ : V) => name "mx" p) idx (spec_mean_data self)).
    rewrite zip_with_const_r by done. apply Hdistinct. }
  assert (mx im5 = (fun o => (mx_name o, o)) <$> xs) as Hmx5.
  { rewrite Him5. cbn [mx]. rewrite Hmx4.
    by rewrite foldl_od_setitem_fresh. }
  clearbody im5. clear Him5.
  destruct (generate_kind_total "MX_IN_FILE inline"
              (total MX_generate) (mx im5)) as [b5 Hb5].
  { by rewrite Hmx5, od_keys_keyed. }
  { apply total_renders. }
  unfold generate_mx. rewrite Hb5.
  exists b5, im5. done.
Qed.


End pipeline.

(** ** The template mappings *)

Lemma gen_for_each_ok {X A} (body : X -> gen A) (f : X -> list A)
    (xs : list X) :
  (forall x, x ∈ xs -> body x = (f x, Ok tt)) ->
  gen_for_each body xs = (xs ≫= f, Ok tt).
Proof.
  induction xs as [|x xs IH]; intros Hbody; [done|].
  cbn [gen_for_each]. rewrite (Hbody x) by apply list_elem_of_here.
  rewrite IH; [done|]. intros y Hy. apply Hbody. by apply list_elem_of_further.
Qed.

Lemma gen_for_each_raise {X A} (body : X -> gen A) (f : X -> list A)
    (xs : list X) x ys e rest :
  (forall y, y ∈ xs -> body y = (f y, Ok tt)) ->
  body x = (ys, Raise e) ->
  gen_for_each body (xs ++ x :: rest) = ((xs ≫= f) ++ ys, Raise e).
Proof.
  intros Hbody Hx. induction xs as [|y xs IH].
  - cbn [app gen_for_each]. by rewrite Hx.
  - cbn [app gen_for_each]. rewrite (Hbody y) by apply list_elem_of_here.
    rewrite IH.
    + by rewrite bind_cons, <- app_assoc.
    + intros z Hz. apply Hbody. by apply list_elem_of_further.
Qed.

Lemma gen_for_each_raise_first {X A} (body : X -> gen A) x ys e rest :
  body x = (ys, Raise e) ->
  gen_for_each body (x :: rest) = (ys, Raise e).
Proof. intros Hx. cbn [gen_for_each]. by rewrite Hx. Qed.

Lemma enumerate_format (fmt : string) (num : Z) :
  enumerate (format_indexed_strs fmt num)
  = (fun i => (i, fmt +:+ pretty (Z.of_nat i))) <$> seq 0 (Z.to_nat num).
Proof.
  unfold enumerate, format_indexed_strs, range, seqZ.
  rewrite !length_fmap, length_seq, <- list_fmap_compose.
  rewrite zip_with_fmap_r, zip_with_diag.
  apply list_fmap_ext. intros _ i _. cbn [compose].
  by rewrite Z.add_0_r.
Qed.

Lemma bind_ext_in {A B} (f g : A -> list B) (l : list A) :
  (forall x, x ∈ l -> f x = g x) -> l ≫= f = l ≫= g.
Proof.
  induction l as [|x l IH]; intros Hfg; [done|].
  rewrite !bind_cons, (Hfg x) by apply list_elem_of_here.
  rewrite IH; [done|]. intros y Hy. apply Hfg. by apply list_elem_of_further.
Qed.

(** Blocks of [base] consecutive numbers, one block per index, are the
    consecutive numbers. *)
Lemma seq_blocks (base off n : nat) : forall a,
  (j ← seq a n; seq (base * (off + j)) base)
  = seq (base * (off + a)) (base * n).
Proof.
  induction n as [|n IH]; intros a.
  - by rewrite Nat.mul_0_r.
  - cbn [seq]. rewrite bind_cons, IH.
    replace (base * S n) with (base + base * n) by lia.
    rewrite seq_app. do 2 f_equal. lia.
Qed.

Lemma fmap_bind {A B C} (g : B -> C) (f : A -> list B) (l : list A) :
  g <$> (l ≫= f) = l ≫= (fun x => g <$> f x).
Proof.
  induction l as [|x l IH]; [done|]. by rewrite !bind_cons, fmap_app, IH.
Qed.

Lemma enumerate_app {A} (xs : list A) (x : A) (ys : list A) :
  exists rest,
    enumerate (xs ++ x :: ys) = enumerate xs ++ (length xs, x) :: rest.
Proof.
  unfold enumerate. rewrite length_app. cbn [length].
  rewrite seq_app. cbn [seq Nat.add].
  rewrite zip_with_app by (by rewrite length_seq).
  cbn [zip_with]. eauto.
Qed.

Lemma enumerate_lookup {A} (xs : list A) (t : nat) (x : A) :
  (t, x) ∈ enumerate xs -> xs !! t = Some x.
Proof.
  unfold enumerate. intros Hin.
  apply list_elem_of_lookup in Hin as [k Hk].
  apply lookup_zip_with_Some in Hk as (t' & x' & Heq & Ht & Hx).
  injection Heq as -> ->.
  apply lookup_seq in Ht as [-> _]. done.
Qed.

Lemma enumerate_fst {A} (xs : list A) :
  (enumerate xs).*1 = seq 0 (length xs).
Proof. unfold enumerate. apply fst_zip. by rewrite length_seq. Qed.

Lemma bind_fmap {A B C} (f : A -> B) (k : B -> list C) (l : list A) :
  (f <$> l) ≫= k = l ≫= (k ∘ f).
Proof.
  induction l as [|x l IH]; [done|].
  cbn [fmap list_fmap]. by rewrite !bind_cons, IH.
Qed.

Section templates_facts.
Context {V : Type}.
Implicit Types (self : ParamSpec (V:=V)).

(** The mapping yielded for segment [i], subsegment [j] and the group
    [g] at position [t]. *)
Lemma tmpl_mappings_run self :
  Forall (fun g => g <> []) (spec_track_groups self) ->
  ParamSpec_generate_tmpl_mappings self
  = (i ← seq 0 (Z.to_nat (spec_num_segs self));
     j ← seq 0 (Z.to_nat (spec_num_subsegs self));
     tg ← enumerate (spec_track_groups self);
     [{| tm_seg := "seg" +:+ pretty (Z.of_nat i);
         tm_subseg := "subseg" +:+ pretty (Z.of_nat j);
         tm_track := default "" (head tg.2);
         tm_seg_index := i; tm_subseg_index := j; tm_track_index := tg.1;
         tm_index := (spec_num_track_groups self * spec_num_subsegs self
                        * Z.of_nat i
                      + spec_num_track_groups self * Z.of_nat j
                      + Z.of_nat tg.1)%Z;
         tm_distribution := spec_distribution self |}],
     Ok tt).
Proof.
  intros Hgroups. unfold ParamSpec_generate_tmpl_mappings,
    ParamSpec_make_segnames, ParamSpec_make_subsegnames.
  rewrite !enumerate_format.
  set (mk := fun (i j : nat) (tg : nat * list string) =>
         {| tm_seg := "seg" +:+ pretty (Z.of_nat i);
            tm_subseg := "subseg" +:+ pretty (Z.of_nat j);
            tm_track := default "" (head tg.2);
            tm_seg_index := i; tm_subseg_index := j; tm_track_index := tg.1;
            tm_index := (spec_num_track_groups self * spec_num_subsegs self
                           * Z.of_nat i
                         + spec_num_track_groups self * Z.of_nat j
                         + Z.of_nat tg.1)%Z;
            tm_distribution := spec_distribution self |}).
  rewrite (gen_for_each_ok _
             (fun p : nat * string =>
                j ← seq 0 (Z.to_nat (spec_num_subsegs self));
                tg ← enumerate (spec_track_groups self); [mk p.1 j tg])).
  - by rewrite bind_fmap.
  - intros [i segname] Hi.
    apply list_elem_of_fmap in Hi as (i' & Heq & _).
    injection Heq as -> ->.
    rewrite (gen_for_each_ok _
               (fun p : nat * string =>
                  tg ← enumerate (spec_track_groups self); [mk i' p.1 tg])).
    + by rewrite bind_fmap.
    + intros [j subsegname] Hj.
      apply list_elem_of_fmap in Hj as (j' & Heq & _).
      injection Heq as -> ->.
      apply (gen_for_each_ok _ (fun tg => [mk i' j' tg])).
      intros [t g] Htg. apply enumerate_lookup in Htg.
      apply list_elem_of_lookup_2 in Htg.
      rewrite Forall_forall in Hgroups. specialize (Hgroups g Htg).
      destruct g as [|head g]; [done|]. reflexivity.
Qed.

(** X21.  [generate_tmpl_mappings]: when every track group has a track and
    [num_track_groups] is the number of groups, the generator is exhausted
    without raising and yields one mapping per (seg, subseg, track group):
    the (seg_index, subseg_index, track_index) of the mappings, in the
    order they are yielded, are the triples with the segment outermost and
    the track group innermost, and the [index] of the mapping at position
    [k] is [k]; each mapping names its segment and subsegment by their
    indices and carries the first track of its group.  When a group is
    empty, and there is a segment and a subsegment, the generator raises
    IndexError after one mapping for each group before the first empty
    one. *)
Theorem generate_tmpl_mappings_indexed self :
  (Forall (fun g => g <> []) (spec_track_groups self) ->
   Z.of_nat (length (spec_track_groups self)) = spec_num_track_groups self ->
   exists ms,
     ParamSpec_generate_tmpl_mappings self = (ms, Ok tt)
     /\ length ms
        = Z.to_nat (spec_num_segs self) * Z.to_nat (spec_num_subsegs self)
          * length (spec_track_groups self)
     /\ (fun m => (tm_seg_index m, tm_subseg_index m, tm_track_index m))
          <$> ms
        = (i ← seq 0 (Z.to_nat (spec_num_segs self));
           j ← seq 0 (Z.to_nat (spec_num_subsegs self));
           t ← seq 0 (length (spec_track_groups self));
           [(i, j, t)])
     /\ tm_index <$> ms = Z.of_nat <$> seq 0 (length ms)
     /\ Forall (fun m =>
                  tm_seg m = "seg" +:+ pretty (Z.of_nat (tm_seg_index m))
                  /\ tm_subseg m
                     = "subseg" +:+ pretty (Z.of_nat (tm_subseg_index m))
                  /\ exists rest,
                       spec_track_groups self !! tm_track_index m
                       = Some (tm_track m :: rest)) ms)
  /\ (forall pre post,
        spec_track_groups self = pre ++ [] :: post ->
        Forall (fun g => g <> []) pre ->
        (1 <= spec_num_segs self)%Z -> (1 <= spec_num_subsegs self)%Z ->
        exists ms,
          ParamSpec_generate_tmpl_mappings self = (ms, Raise IndexError)
          /\ length ms = length pre).
Proof.
  split.
  - intros Hgroups HG. rewrite tmpl_mappings_run by done.
    eexists. split; [reflexivity|].
    set (s := Z.to_nat (spec_num_segs self)).
    set (u := Z.to_nat (spec_num_subsegs self)).
    set (G := length (spec_track_groups self)) in *.
    set (ms := seq 0 s ≫= _).
    assert (length ms = s * u * G) as Hlen.
    { unfold ms. rewrite (length_bind_const _ (u * G)).
      { rewrite length_seq. lia. }
      intros i. rewrite (length_bind_const _ G).
      { by rewrite length_seq. }
      intros j. rewrite (length_bind_const _ 1).
      { unfold enumerate, G. rewrite length_zip, length_seq. lia. }
      done. }
    split; [exact Hlen|]. split; [|split].
    + unfold ms. rewrite fmap_bind. apply bind_ext_in. intros i _.
      rewrite fmap_bind. apply bind_ext_in. intros j _.
      rewrite !bind_singleton_fmap, <- list_fmap_compose.
      unfold G. rewrite <- enumerate_fst, <- list_fmap_compose.
      apply list_fmap_ext. by intros _ [t g] _.
    + destruct (Z.le_gt_cases 0 (spec_num_subsegs self)) as [Hu|Hu].
      * rewrite Hlen. unfold ms. rewrite fmap_bind.
        rewrite (bind_ext_in _ (fun i => Z.of_nat <$> seq (G * u * (0 + i))
                                                      (G * u))).
        { rewrite <- fmap_bind. f_equal.
          rewrite (seq_blocks (G * u) 0 s 0). f_equal; lia. }
        intros i _. rewrite fmap_bind.
        rewrite (bind_ext_in _ (fun j => Z.of_nat <$> seq (G * (u * i + j)) G)).
        { rewrite <- fmap_bind. f_equal.
          rewrite (seq_blocks G (u * i) u 0). f_equal; lia. }
        intros j _. rewrite bind_singleton_fmap, <- list_fmap_compose.
        transitivity ((fun t => (Z.of_nat (G * (u * i + j)) + Z.of_nat t)%Z)
                        <$> (enumerate (spec_track_groups self)).*1).
        { rewrite <- list_fmap_compose. apply list_fmap_ext.
          intros _ [t g] _. cbn [compose tm_index fst].
          rewrite <- HG. unfold u. lia. }
        rewrite enumerate_fst. fold G.
        transitivity (Z.of_nat <$> (Nat.add (G * (u * i + j)) <$> seq 0 G)).
        { rewrite <- list_fmap_compose. apply list_fmap_ext.
          intros _ t _. cbn [compose]. lia. }
        by rewrite fmap_add_seq, Nat.add_0_r.
      * assert (ms = []) as ->; [|done].
        apply nil_length_inv. rewrite Hlen. unfold u. lia.
    + apply Forall_forall. intros m Hm. unfold ms in Hm.
      apply list_elem_of_bind in Hm as (i & Hm & _).
      apply list_elem_of_bind in Hm as (j & Hm & _).
      apply list_elem_of_bind in Hm as ([t g] & Hm & Htg).
      apply list_elem_of_singleton in Hm as ->. cbn.
      split; [done|]. split; [done|].
      apply enumerate_lookup in Htg.
      rewrite Forall_forall in Hgroups.
      specialize (Hgroups g (list_elem_of_lookup_2 _ _ _ Htg)).
      destruct g as [|head rest]; [done|]. eauto.
  - intros pre post Hsplit Hpre Hs Hu.
    unfold ParamSpec_generate_tmpl_mappings,
      ParamSpec_make_segnames, ParamSpec_make_subsegnames.
    rewrite !enumerate_format, Hsplit.
    destruct (Z.to_nat (spec_num_segs self)) as [|s] eqn:Hsn; [lia|].
    destruct (Z.to_nat (spec_num_subsegs self)) as [|u] eqn:Hun; [lia|].
    cbn [seq fmap list_fmap].
    destruct (enumerate_app pre [] post) as [rest Henum].
    eexists. split.
    + apply gen_for_each_raise_first. apply gen_for_each_raise_first.
      rewrite Henum.
      apply (gen_for_each_raise _
               (fun tg => [{| tm_seg := "seg" +:+ pretty (Z.of_nat 0);
                              tm_subseg := "subseg" +:+ pretty (Z.of_nat 0);
                              tm_track := default "" (head tg.2);
                              tm_seg_index := 0; tm_subseg_index := 0;
                              tm_track_index := tg.1;
                              tm_index :=
                                (spec_num_track_groups self
                                 * spec_num_subsegs self * Z.of_nat 0
                                 + spec_num_track_groups self * Z.of_nat 0
                                 + Z.of_nat tg.1)%Z;
                              tm_distribution := spec_distribution self |}])
               _ _ []).
      * intros [t g] Htg. apply enumerate_lookup in Htg.
        apply list_elem_of_lookup_2 in Htg.
        rewrite Forall_forall in Hpre. specialize (Hpre g Htg).
        destruct g as [|head g]; [done|]. reflexivity.
      * reflexivity.
    + rewrite app_nil_r. rewrite (length_bind_const _ 1) by done.
      unfold enumerate. rewrite length_zip, length_seq. lia.
Qed.

End templates_facts.

(** ** The free-parameter count of [make_mapping] *)

Section register_name_collections.
Context {F : Type} `{FloatOps F} {V : Type}.

Lemma foldl_register_name_collections (cs : list NameCollection) :
  forall im : InputMaster (F:=F) (V:=V),
  foldl register im (ObjNameCollection <$> cs)
  = {| mean := mean im; covar := covar im; dense := dense im;
       deterministic := deterministic im; dpmf := dpmf im;
       mc := mc im; mx := mx im;
       name_collection :=
         foldl (fun d c => od_setitem (col_name c) c d)
               (name_collection im) cs |}.
Proof.
  induction cs as [|c cs IH]; intros im; [by destruct im|].
  cbn [fmap list_fmap foldl]. rewrite IH, register_cases. done.
Qed.

Lemma foldl_od_setitem_nodup {O} (key : O -> string) (xs : list O) :
  forall d : list (string * O),
  NoDup (od_keys d) ->
  NoDup (od_keys (foldl (fun d x => od_setitem (key x) x d) d xs)).
Proof.
  induction xs as [|x xs IH]; intros d Hnd; [done|].
  cbn [foldl]. apply IH. by apply od_keys_setitem_nodup.
Qed.

End register_name_collections.

Section make_mapping_facts.
Context {F : Type} `{FloatOps F} (str_float : F -> string).
Context {V : Type} (str_value : V -> string).
Context (DISTRIBUTION_NORM DISTRIBUTION_ASINH_NORMAL DISTRIBUTION_GAMMA
         : string) (USE_MFSDG : bool).
Context (str_round : F -> Z -> string).
Implicit Types (self : InputMasterSaver (V:=V))
  (st : InputMaster (F:=F) (V:=V)).

Abbreviation like_norm :=
  (DISTRIBUTIONS_LIKE_NORM DISTRIBUTION_NORM DISTRIBUTION_ASINH_NORMAL).
Abbreviation run_make_mapping :=
  (make_mapping str_float str_value DISTRIBUTION_NORM
     DISTRIBUTION_ASINH_NORMAL DISTRIBUTION_GAMMA USE_MFSDG str_round).

(** Whatever the builders do, a mapping that is returned carries the
    stated count, and the distribution was a supported one. *)
Lemma make_mapping_result self st m st' :
  run_make_mapping self st = (Ok m, st') ->
  let norm_like := bool_decide (saver_distribution self ∈ like_norm) in
  (norm_like = true \/ saver_distribution self = DISTRIBUTION_GAMMA)
  /\ num_free_params m
     = free_params_stated norm_like (COVAR_TIED USE_MFSDG)
         (saver_num_segs self) (saver_num_subsegs self)
         (saver_num_track_groups self)
  /\ fullnum_subsegs m = (saver_num_segs self * saver_num_subsegs self)%Z.
Proof.
  unfold make_mapping, free_params_stated.
  unfold mbind, mret, prog_bind, prog_ret, raise.
  destruct (ParamSpec_generate_name_collection _ st) as [[t1|e] st1]; [|done].
  destruct (bool_decide (saver_distribution self ∈ like_norm)).
  - destruct (ParamSpec_generate_mean_objects _ _ st1) as [[t2|e] st2];
      [|done].
    destruct (ParamSpec_generate_covar_objects _ _ _ st2) as [[t3|e] st3];
      [|done].
    destruct (ParamSpec_generate_mc_objects _ _ _ _ _ st3) as [[t4|e] st4];
      [|done].
    destruct (ParamSpec_generate_dpmf_objects _ _ _ st4) as [[t5|e] st5];
      [|done].
    destruct (ParamSpec_generate_mx_objects _ st5) as [[t6|e] st6]; [|done].
    intros Hm. injection Hm as <- <-. cbn [num_free_params fullnum_subsegs].
    split; [by left|]. split; [|done].
    destruct (COVAR_TIED USE_MFSDG); lia.
  - destruct (String.eqb_spec (saver_distribution self) DISTRIBUTION_GAMMA)
      as [Hgamma|Hother]; [|done].
    destruct (ParamSpec_generate_mc_objects _ _ _ _ _ st1) as [[t4|e] st4];
      [|done].
    destruct (ParamSpec_generate_dpmf_objects _ _ _ st4) as [[t5|e] st5];
      [|done].
    destruct (ParamSpec_generate_mx_objects _ st5) as [[t6|e] st6]; [|done].
    intros Hm. injection Hm as <- <-. cbn [num_free_params fullnum_subsegs].
    split; [by right|]. split; [lia|done].
Qed.

(** For a norm-like distribution without MFSDG, [make_mapping] returns
    when the registry holds no mean, covariance, component, DPMF or
    mixture yet and the saver has distinct tracks, at least one of them, a
    segment and a subsegment, one mixture component, a variance per track
    and a mean row per name. *)
Lemma make_mapping_returns_norm self st :
  USE_MFSDG = false ->
  saver_distribution self ∈ like_norm ->
  saver_num_mix_components self = 1%Z ->
  feqb (py_sum [of_int 1]) (of_int 1) = true ->
  saver_tracks self <> [] ->
  (1 <= saver_num_segs self)%Z -> (1 <= saver_num_subsegs self)%Z ->
  NoDup (saver_tracks self) ->
  length (saver_tracks self) <= length (saver_vars self) ->
  Z.to_nat (saver_num_segs self) * Z.to_nat (saver_num_subsegs self)
    * length (saver_tracks self) <= length (saver_mean_data self) ->
  NoDup (od_keys (name_collection st)) ->
  mean st = [] -> covar st = [] -> mc st = [] -> dpmf st = [] ->
  mx st = [] ->
  exists m st', run_make_mapping self st = (Ok m, st').
Proof.
  intros -> Hnorm Hone Hsum Htracks Hs Hu Hnd Hvars Hdata Hcols
    Hmean Hcovar Hmc Hdpmf Hmx.
  unfold make_mapping.
  set (param_spec := ParamSpec_init self).
  assert (spec_track_names param_spec = saver_tracks self) as Hnames.
  { unfold param_spec, ParamSpec_init. cbn [spec_track_names].
    apply foldl_append_id. }
  unfold mbind at 1, prog_bind at 1.
  rewrite generate_name_collection_run by (by rewrite ?Hnames). cbn zeta.
  set (collection := fun track : string =>
         {| col_name := "collection_seg_" +:+ track;
            names_in_col :=
              i ← range (spec_num_segs param_spec);
              j ← range (spec_num_subsegs param_spec);
              ["mx_seg" +:+ pretty i +:+ "_subseg" +:+ pretty j
                 +:+ "_" +:+ track] |}).
  change (foldl register st (_ <$> spec_track_names param_spec))
    with (foldl register st
            ((ObjNameCollection (F:=F) (V:=V) ∘ collection)
               <$> spec_track_names param_spec)).
  rewrite list_fmap_compose.
  set (cs := collection <$> spec_track_names param_spec).
  pose proof (foldl_register_name_collections cs st) as Him1.
  set (im1 := foldl register st (ObjNameCollection <$> cs)) in *.
  assert (NoDup (od_keys (name_collection im1))) as Hcols1.
  { rewrite Him1. cbn [name_collection].
    by apply foldl_od_setitem_nodup. }
  assert (mean im1 = [] /\ covar im1 = [] /\ mc im1 = [] /\ dpmf im1 = []
          /\ mx im1 = []) as (Hmean1 & Hcovar1 & Hmc1 & Hdpmf1 & Hmx1).
  { rewrite Him1. cbn [mean covar mc dpmf mx]. done. }
  clearbody im1. clear Him1.
  destruct (generate_kind_total "NAME_COLLECTION_IN_FILE inline"
              (total NameCollection_generate) (name_collection im1) Hcols1)
    as [b0 Hb0].
  { intros o i. by exists (NameCollection_generate o i). }
  unfold generate_name_col at 1. rewrite Hb0.
  rewrite bool_decide_true by done.
  destruct (norm_builders_run str_float str_value DISTRIBUTION_NORM
              DISTRIBUTION_ASINH_NORMAL DISTRIBUTION_GAMMA str_round
              param_spec im1)
    as (b & im' & Hrun & _); try done.
  { cbn [param_spec ParamSpec_init spec_num_segs]. lia. }
  { cbn [param_spec ParamSpec_init spec_num_subsegs]. lia. }
  { by rewrite Hnames. }
  { by rewrite Hnames. }
  { by rewrite Hnames. }
  revert Hrun. unfold mbind, mret, prog_bind, prog_ret.
  destruct (ParamSpec_generate_mean_objects _ _ im1) as [[t2|e] st2];
    [|done].
  destruct (ParamSpec_generate_covar_objects _ _ _ st2) as [[t3|e] st3];
    [|done].
  destruct (ParamSpec_generate_mc_objects _ _ _ _ _ st3) as [[t4|e] st4];
    [|done].
  destruct (ParamSpec_generate_dpmf_objects _ _ _ st4) as [[t5|e] st5];
    [|done].
  destruct (ParamSpec_generate_mx_objects _ st5) as [[t6|e] st6]; [|done].
  intros _. eauto.
Qed.

(** C9.  With [fullnum_subsegs = num_segs * num_subsegs], the mapping
    that [make_mapping] returns carries a free-parameter count of
    [fullnum_subsegs * (fullnum_subsegs - 1)] for the seg-seg table, plus
    [fullnum_subsegs] for the countdown table, plus, for a norm-like
    distribution, [(fullnum_subsegs + 1) * num_track_groups] when
    covariances are tied and [(fullnum_subsegs * 2) * num_track_groups]
    otherwise, and, for the gamma distribution,
    [(fullnum_subsegs * 2) * num_track_groups]; no other distribution
    gives a mapping.  And [make_mapping] does return, with the tied count,
    for a norm-like distribution without MFSDG, from a registry that holds
    no mean, covariance, component, DPMF or mixture yet, when the saver has
    distinct tracks, at least one of them, a segment and a subsegment, one
    mixture component, a variance per track and a mean row per name. *)
Theorem make_mapping_free_params :
  (forall self st m st',
     run_make_mapping self st = (Ok m, st') ->
     let f := (saver_num_segs self * saver_num_subsegs self)%Z in
     let g := saver_num_track_groups self in
     fullnum_subsegs m = f
     /\ (saver_distribution self ∈ like_norm ->
         num_free_params m
         = (f * (f - 1) + f
            + (if COVAR_TIED USE_MFSDG then (f + 1) * g else (f * 2) * g))%Z)
     /\ (saver_distribution self ∉ like_norm ->
         saver_distribution self = DISTRIBUTION_GAMMA
         /\ num_free_params m = (f * (f - 1) + f + (f * 2) * g)%Z))
  /\ (forall self st,
        USE_MFSDG = false ->
        saver_distribution self ∈ like_norm ->
        saver_num_mix_components self = 1%Z ->
        feqb (py_sum [of_int 1]) (of_int 1) = true ->
        saver_tracks self <> [] ->
        (1 <= saver_num_segs self)%Z -> (1 <= saver_num_subsegs self)%Z ->
        NoDup (saver_tracks self) ->
        length (saver_tracks self) <= length (saver_vars self) ->
        Z.to_nat (saver_num_segs self) * Z.to_nat (saver_num_subsegs self)
          * length (saver_tracks self) <= length (saver_mean_data self) ->
        NoDup (od_keys (name_collection st)) ->
        mean st = [] -> covar st = [] -> mc st = [] -> dpmf st = [] ->
        mx st = [] ->
        let f := (saver_num_segs self * saver_num_subsegs self)%Z in
        let g := saver_num_track_groups self in
        exists m st',
          run_make_mapping self st = (Ok m, st')
          /\ fullnum_subsegs m = f
          /\ num_free_params m = (f * (f - 1) + f + (f + 1) * g)%Z).
Proof.
  split.
  - intros self st m st' Hrun f g.
    destruct (make_mapping_result self st m st' Hrun)
      as (Hdist & Hcount & Hfull).
    split; [exact Hfull|]. split.
    + intros Hnorm. rewrite bool_decide_true in Hcount by done.
      rewrite Hcount. unfold free_params_stated. by fold f.
    + intros Hnot. rewrite bool_decide_false in Hcount, Hdist by done.
      destruct Hdist as [?|Hgamma]; [done|]. split; [exact Hgamma|].
      rewrite Hcount. unfold free_params_stated. by fold f.
  - intros self st Hmfsdg Hnorm Hone Hsum Htracks Hs Hu Hnd Hvars Hdata
      Hcols Hmean Hcovar Hmc Hdpmf Hmx f g.
    destruct (make_mapping_returns_norm self st) as (m & st' & Hrun);
      try done.
    exists m, st'. split; [exact Hrun|].
    destruct (make_mapping_result self st m st' Hrun) as (_ & Hcount & Hfull).
    split; [exact Hfull|].
    rewrite bool_decide_true in Hcount by done.
    rewrite Hcount, Hmfsdg. unfold free_params_stated. by fold f.
Qed.

End make_mapping_facts.

(** ** More concrete runs *)


Lemma names_count_witness :
  exists names,
    generate_gmtk_obj_names "mean" ["a"; "b"] 2 1 "norm" 1 = Ok names
    /\ length names = 4.
Proof.
  apply (names_count "mean" ["a"; "b"] 2 1 "norm" 1).
  apply (bool_decide_unpack _). vm_compute. exact I.
Defined.

Lemma names_distinct_witness :
  exists names,
    generate_gmtk_obj_names "mx" ["a"; "b"] 2 1 "norm" 1 = Ok names
    /\ NoDup names.
Proof.
  apply (names_distinct "mx" ["a"; "b"] 2 1 "norm" 1).
  - apply (bool_decide_unpack _). vm_compute. exact I.
  - discriminate.
  - apply (bool_decide_unpack _). vm_compute. exact I.
Defined.

Lemma update_list_one_by_one_witness :
  InputMaster_update (inr [ObjMean mean_a'; ObjMean mean_b]) two_means
  = InputMaster_update (inr [ObjMean mean_b])
      (InputMaster_update (inr [ObjMean mean_a']) two_means).2.
Proof.
  apply (update_list_one_by_one two_means [ObjMean mean_a'] [ObjMean mean_b]).
  repeat constructor.
Defined.

Lemma update_then_getitem_witness :
  exists im',
    InputMaster_update (inl (ObjMean mean_a')) two_means = (Ok tt, im')
    /\ od_getitem "mean_a" (entries KMean im') = Ok (ObjMean mean_a')
    /\ od_getitem "mean_b" (entries KMean im') = Ok (ObjMean mean_b)
    /\ length (entries KMean im') = 2.
Proof.
  destruct (update_then_getitem two_means (ObjMean mean_a') KMean eq_refl)
    as (im' & Hrun & Hget & Hothers & Hlen).
  exists im'. split; [exact Hrun|]. split; [exact Hget|]. split.
  - rewrite (Hothers "mean_b"); [reflexivity|discriminate].
  - rewrite Hlen. reflexivity.
Defined.

Lemma str_outcome_witness :
  exists text, InputMaster_str str_float_whole pretty two_means = Ok text.
Proof.
  destruct (str_outcome str_float_whole pretty two_means two_means_wf)
    as (_ & _ & Hok).
  apply Hok; reflexivity.
Defined.


Lemma binary64_sum_one :
  feqb (py_sum [of_int (F:=float) 1]) (of_int 1) = true.
Proof. vm_compute. reflexivity. Qed.

Lemma generate_dpmf_objects_outcome_witness :
  (exists e,
     ParamSpec_generate_dpmf_objects str_float_whole str_round_half
       two_component_spec two_means = (Raise e, two_means))
  /\ dpmf (ParamSpec_generate_dpmf_objects str_float_whole str_round_half
             two_track_spec two_means).2
     = [("dpmf_always", {| dpmf_name := "dpmf_always";
                           dpmf_values := [1%float] |})].
Proof.
  split.
  - destruct (proj2 (generate_dpmf_objects_outcome str_float_whole
                       str_round_half two_component_spec two_means))
      as (e & Hrun & _); [discriminate|discriminate|simpl; lia..|].
    exists e. exact Hrun.
  - rewrite (proj1 (generate_dpmf_objects_outcome str_float_whole
                      str_round_half two_track_spec two_means)
               eq_refl binary64_sum_one).
    reflexivity.
Defined.

Lemma generate_name_collection_groups_witness :
  od_keys (name_collection
             (ParamSpec_generate_name_collection two_track_spec two_means).2)
  = ["collection_seg_a"; "collection_seg_b"].
Proof.
  rewrite (proj1 (generate_name_collection_groups two_track_spec two_means));
    [reflexivity|discriminate|simpl; lia..].
Defined.

Lemma generate_mx_objects_pairs_witness :
  ParamSpec_generate_mx_objects two_track_spec two_means
  = (Raise ZeroDivisionError, two_means).
Proof.
  apply (proj1 (generate_mx_objects_pairs two_track_spec two_means)).
  reflexivity.
Defined.

Lemma generate_mc_objects_norm_witness :
  (ParamSpec_generate_mc_objects "norm" "asinh_norm" "gamma" false
     two_track_spec two_means).1
  = Raise IndexError.
Proof.
  rewrite (generate_mc_objects_norm "norm" "asinh_norm" "gamma" false
             two_track_spec two_means).
  - reflexivity.
  - apply list_elem_of_here.
Defined.

Lemma generate_mc_objects_missing_collapse_witness :
  let im' :=
    (ParamSpec_generate_mc_objects "norm" "asinh_norm" "gamma" true
       two_track_spec two_means).2 in
  mean im' = mean two_means /\ covar im' = covar two_means
  /\ (mc im' = mc two_means
      \/ exists o, mc_name o = "" /\ mc im' = od_setitem "" o (mc two_means)).
Proof.
  apply (generate_mc_objects_missing_collapse "norm" "asinh_norm" "gamma"
           true two_track_spec two_means).
  - reflexivity.
  - apply list_elem_of_here.
Defined.

Lemma generate_mc_objects_gamma_registers_witness :
  ParamSpec_generate_mc_objects "norm" "asinh_norm" "gamma" false
    other_distribution_spec two_means
  = (generate_mc two_means, two_means).
Proof.
  apply (proj2 (generate_mc_objects_gamma_registers "norm" "asinh_norm"
                  "gamma" false other_distribution_spec two_means)).
  - apply (bool_decide_unpack _). vm_compute. exact I.
  - discriminate.
Defined.


Lemma generate_tmpl_mappings_indexed_witness :
  exists ms,
    ParamSpec_generate_tmpl_mappings two_track_spec = (ms, Ok tt)
    /\ (fun m => (tm_seg_index m, tm_subseg_index m, tm_track_index m))
         <$> ms
       = [(0, 0, 0); (0, 0, 1); (1, 0, 0); (1, 0, 1)]
    /\ tm_index <$> ms = [0; 1; 2; 3]%Z
    /\ tm_track <$> ms = ["a"; "b"; "a"; "b"].
Proof.
  destruct (proj1 (generate_tmpl_mappings_indexed two_track_spec))
    as (ms & Hrun & Hlen & Horder & Hindex & _).
  - repeat constructor; discriminate.
  - reflexivity.
  - exists ms. split; [exact Hrun|]. split; [exact Horder|]. split.
    + rewrite Hindex, Hlen. reflexivity.
    + vm_compute in Hrun. injection Hrun as <-. reflexivity.
Defined.

(** Two segments, one subsegment, one track group, tied covariance, a
    norm-like distribution, from the empty registry: [make_mapping]
    returns and the count is 7. *)
Lemma make_mapping_free_params_witness :
  exists m st',
    make_mapping str_float_whole pretty "norm" "asinh_norm" "gamma" false
      str_round_half two_seg_saver InputMaster_init = (Ok m, st')
    /\ num_free_params m = 7%Z.
Proof.
  destruct (proj2 (make_mapping_free_params str_float_whole pretty
                     "norm" "asinh_norm" "gamma" false str_round_half)
              two_seg_saver InputMaster_init)
    as (m & st' & Hrun & _ & Hcount).
  - reflexivity.
  - apply list_elem_of_here.
  - reflexivity.
  - exact binary64_sum_one.
  - discriminate.
  - simpl; lia.
  - simpl; lia.
  - apply (bool_decide_unpack _). vm_compute. exact I.
  - simpl; lia.
  - simpl; lia.
  - apply NoDup_nil_2.
  - reflexivity.
  - reflexivity.
  - reflexivity.
  - reflexivity.
  - reflexivity.
  - exists m, st'. split; [exact Hrun|]. rewrite Hcount. reflexivity.
Defined.

(** The other two branches of the count are reached from the empty
    registry as well: the gamma distribution, and a norm-like distribution
    with untied covariances (MFSDG), the latter with a single name. *)
Example make_mapping_gamma_run :
  exists m st',
    make_mapping str_float_whole pretty "norm" "asinh_norm" "gamma" false
      str_round_half two_seg_gamma_saver InputMaster_init = (Ok m, st')
    /\ num_free_params m = 8%Z.
Proof. eexists _, _. split; vm_compute; reflexivity. Qed.

Example make_mapping_untied_run :
  exists m st',
    make_mapping str_float_whole pretty "norm" "asinh_norm" "gamma" true
      str_round_half one_seg_saver InputMaster_init = (Ok m, st')
    /\ num_free_params m = 3%Z.
Proof. eexists _, _. split; vm_compute; reflexivity. Qed.

(** With MFSDG and more than one name the components collapse onto one
    key, and [generate_mx_objects] runs out of components. *)
Example make_mapping_untied_two_segs :
  (make_mapping str_float_whole pretty "norm" "asinh_norm" "gamma" true
     str_round_half two_seg_saver InputMaster_init).1
  = Raise IndexError.
Proof. vm_compute. reflexivity. Qed.
